(** * TestVariantApp: variant assembly, option shuffling and answer keys

    A shallow embedding of the three generator programs of the repository
    ([TestV-App.py], [TestVariant-W.py], [TestApp-With-Validation.py]) and
    the properties of their variant-assembly core.

    Conventions of the embedding:
    - a Python [str] is a [string] whose characters are the code points
      0..255;
    - a Python [int] read from a UI field is a [Z];
    - the global [random] stream is an explicit tape of naturals threaded
      through every call; each primitive draw pops one entry;
    - exceptions are values of type [pyexc], propagated by the monad [M]. *)

From Stdlib Require Import ZArith Lia Ascii String.
From stdpp Require Import base list strings pretty.

Open Scope nat_scope.

(** ** Python strings *)

Module PyStr.

(** [str.isspace] on one character, for the code points below 256. *)
Definition isspace (c : ascii) : bool :=
  let n := nat_of_ascii c in
  ((9 <=? n) && (n <=? 13)) || ((28 <=? n) && (n <=? 32))
  || (n =? 133) || (n =? 160).

Fixpoint lstrip (s : string) : string :=
  match s with
  | EmptyString => EmptyString
  | String c s' => if isspace c then lstrip s' else s
  end.

Fixpoint rstrip (s : string) : string :=
  match s with
  | EmptyString => EmptyString
  | String c s' =>
      match rstrip s' with
      | EmptyString => if isspace c then EmptyString else String c EmptyString
      | r => String c r
      end
  end.

(** [s.strip()] *)
Definition strip (s : string) : string := rstrip (lstrip s).

Definition lower_char (c : ascii) : ascii :=
  let n := nat_of_ascii c in
  if ((65 <=? n) && (n <=? 90))
     || ((192 <=? n) && (n <=? 222) && negb (n =? 215))
  then ascii_of_nat (n + 32) else c.

(** [s.lower()] *)
Fixpoint lower (s : string) : string :=
  match s with
  | EmptyString => EmptyString
  | String c s' => String (lower_char c) (lower s')
  end.

(** Truth value of a string: [bool(s)], false exactly for [''] . *)
Definition truthy (s : string) : bool :=
  match s with EmptyString => false | _ => true end.

Fixpoint startswith (p s : string) : bool :=
  match p, s with
  | EmptyString, _ => true
  | String a p', String b s' => if Ascii.eqb a b then startswith p' s' else false
  | String _ _, EmptyString => false
  end.

(** [sub in s] *)
Fixpoint contains (sub s : string) : bool :=
  startswith sub s ||
  match s with
  | EmptyString => false
  | String _ s' => contains sub s'
  end.

(** [s.strip().lower()], the normal form both matchers compare. *)
Definition norm (s : string) : string := lower (strip s).

End PyStr.

(** ** Exceptions and the random stream *)

Inductive pyexc : Type := ValueError | IndexError.

Definition exc (A : Type) : Type := pyexc + A.

Definition rng : Type := list nat.

(** Computations that may draw from the stream and may raise. *)
Definition M (A : Type) : Type := rng -> exc (A * rng).

Definition ret {A} (a : A) : M A := fun g => inr (a, g).

Definition raise {A} (e : pyexc) : M A := fun _ => inl e.

Definition bind {A B} (m : M A) (f : A -> M B) : M B :=
  fun g => match m g with
           | inl e => inl e
           | inr (a, g') => f a g'
           end.

Notation "x <- m ;; k" := (bind m (fun x => k))
  (at level 100, m at next level, right associativity).

(** [try: m except e: h] *)
Definition catch {A} (e : pyexc) (m : M A) (h : M A) : M A :=
  fun g => match m g with
           | inl e' => match e, e' with
                       | ValueError, ValueError | IndexError, IndexError => h g
                       | _, _ => inl e'
                       end
           | r => r
           end.

Definition lift {A} (x : exc A) : M A :=
  fun g => match x with inl e => inl e | inr a => inr (a, g) end.

Fixpoint mapM {A B} (f : A -> M B) (l : list A) : M (list B) :=
  match l with
  | [] => ret []
  | a :: l' => b <- f a ;; bs <- mapM f l' ;; ret (b :: bs)
  end.

Module Random.

(** One primitive draw: an integer below [n], taken from the head of the
    tape ([0] once the tape is exhausted).  Every sequence of outcomes of
    [random] is the image of some tape. *)
Definition randbelow (n : nat) : M nat :=
  fun g => match g with
           | [] => inr (0, [])
           | x :: g' => inr (x mod n, g')
           end.

(** [x[i], x[j] = x[j], x[i]] *)
Definition swap {A} (x : list A) (i j : nat) : list A :=
  match x !! i, x !! j with
  | Some a, Some b => <[j:=a]> (<[i:=b]> x)
  | _, _ => x
  end.

(** The loop of [random.shuffle]:
    [for i in reversed(range(1, len(x))): j = randbelow(i + 1); swap]. *)
Fixpoint shuffle_from {A} (i : nat) (x : list A) : M (list A) :=
  match i with
  | 0 => ret x
  | S i' => j <- randbelow (S i) ;; shuffle_from i' (swap x i j)
  end.

Definition shuffle {A} (x : list A) : M (list A) :=
  shuffle_from (length x - 1) x.

(** [seq[i]], raising [IndexError] out of range. *)
Definition getitem {A} (l : list A) (i : nat) : M A :=
  match l !! i with
  | Some a => ret a
  | None => raise IndexError
  end.

(** The selection loop of [random.sample] over a copy of the population:
    [for i in range(k): j = randbelow(n - i); result[i] = pool[j];
     pool[j] = pool[n - i - 1]].  [todo] counts the remaining rounds.
    CPython switches to drawing indices into a set, redrawing on a repeat,
    once the population is large compared with [k]; that variant also
    returns [k] rows of the population at distinct positions, but the
    number of draws it makes depends on the stream.  The pool loop stands
    for both here. *)
Fixpoint sample_loop {A} (todo i n : nat) (pool : list A) : M (list A) :=
  match todo with
  | 0 => ret []
  | S todo' =>
      j <- randbelow (n - i) ;;
      a <- getitem pool j ;;
      z <- getitem pool (n - i - 1) ;;
      rest <- sample_loop todo' (S i) n (<[j:=z]> pool) ;;
      ret (a :: rest)
  end.

(** [random.sample(population, k)] *)
Definition sample {A} (population : list A) (k : Z) : M (list A) :=
  let n := length population in
  if ((0 <=? k)%Z && (k <=? Z.of_nat n)%Z)
  then sample_loop (Z.to_nat k) 0 n population
  else raise ValueError.

(** [random.choice(seq)] *)
Definition choice {A} (seq : list A) : M A :=
  match seq with
  | [] => raise IndexError
  | _ => j <- randbelow (length seq) ;; getitem seq j
  end.

(** [[random.choice(seq) for _ in range(k)]] *)
Fixpoint choice_n {A} (k : nat) (seq : list A) : M (list A) :=
  match k with
  | 0 => ret []
  | S k' => a <- choice seq ;; rest <- choice_n k' seq ;; ret (a :: rest)
  end.

(** [random.choices(population, k=k)] with equal weights: one draw for
    each of the [k] elements. *)
Fixpoint choices {A} (population : list A) (k : nat) : M (list A) :=
  match k with
  | 0 => ret []
  | S k' =>
      j <- randbelow (length population) ;;
      a <- getitem population j ;;
      rest <- choices population k' ;;
      ret (a :: rest)
  end.

End Random.

(** ** Python list helpers *)

(** [l[:k]] for an integer [k] of either sign. *)
Definition slice_to {A} (l : list A) (k : Z) : list A :=
  if (0 <=? k)%Z then take (Z.to_nat k) l
  else take (length l - Z.to_nat (- k)) l.

(** [l.index(x)], raising [ValueError] when [x] is absent. *)
Fixpoint index_of (x : string) (l : list string) : exc nat :=
  match l with
  | [] => inl ValueError
  | y :: l' =>
      if String.eqb y x then inr 0
      else match index_of x l' with
           | inl e => inl e
           | inr n => inr (S n)
           end
  end.

(** [while len(l) < 4: l.append('')] *)
Definition pad4 (l : list string) : list string :=
  l ++ replicate (4 - length l) "".

Definition LABELS : list string := ["A"; "B"; "C"; "D"].

(** [string.digits] *)
Definition digits : list ascii :=
  ["0"; "1"; "2"; "3"; "4"; "5"; "6"; "7"; "8"; "9"]%char.

(** [''.join(chars)] for one-character strings. *)
Definition join_chars (cs : list ascii) : string :=
  foldr String EmptyString cs.

(** ** Spreadsheet input *)

(** A cell as [pandas] hands it over: [None] for an empty cell ([None] or
    [NaN]), [Some s] for a value whose [str()] is [s]. *)
Definition cell : Type := option string.

Definition safe_str (x : cell) : string :=
  match x with
  | None => ""
  | Some s => s
  end.

(** One row of a data frame, and the frame [pd.read_excel] returns. *)
Definition series : Type := list cell.
Definition dataframe : Type := list series.

(** The workbook: its sheets in order, each with its name. *)
Definition workbook : Type := list (string * dataframe).

(** The dict appended to [final_q] / [final_questions]. *)
Record question_out : Type := mkQ {
  q_question : string;
  q_A : string;
  q_B : string;
  q_C : string;
  q_D : string
}.

(** What one pass of the generation loop hands to the two writers. *)
Record variant : Type := mkVariant {
  booklet_id : string;
  final_q : list question_out;
  key : list string
}.

(** The two lists a pass fills side by side, and the booklet id. *)
Definition assemble (qk : list (question_out * string)) (booklet : list ascii) : variant :=
  mkVariant (join_chars booklet) (map fst qk) (map snd qk).

(** [q[label]] on a finished question. *)
Definition q_get (q : question_out) (label : string) : option string :=
  if String.eqb label "A" then Some (q_A q)
  else if String.eqb label "B" then Some (q_B q)
  else if String.eqb label "C" then Some (q_C q)
  else if String.eqb label "D" then Some (q_D q)
  else None.

(** How a run of the generator ends: an error dialog before anything is
    written, a completed run, or an exception caught by the outer handler
    after the listed files were written. *)
Inductive outcome (E : Type) : Type :=
| Rejected (errors : list E)
| Finished (files : list (nat * variant))
| Failed (files : list (nat * variant)) (e : pyexc).

Arguments Rejected {E} errors.
Arguments Finished {E} files.
Arguments Failed {E} files e.

(** [for v in range(1, n + 1): body; write both files] *)
Fixpoint gen_loop (body : M variant) (todo v : nat) (g : rng)
  : list (nat * variant) * option pyexc :=
  match todo with
  | 0 => ([], None)
  | S todo' =>
      match body g with
      | inl e => ([], Some e)
      | inr (x, g') =>
          let '(fs, r) := gen_loop body todo' (S v) g' in
          ((v, x) :: fs, r)
      end
  end.

Definition run_loop {E} (body : M variant) (VARIANT_COUNT : Z) (g : rng) : outcome E :=
  match gen_loop body (Z.to_nat VARIANT_COUNT) 1 g with
  | (fs, None) => Finished fs
  | (fs, Some e) => Failed fs e
  end.

(** ** The two Tkinter programs: shared row format *)

Module UI.

(** The tuple [(q, opts, corr)]. *)
Definition row : Type := string * list string * string.

(** The body of [for _, r in df.iterrows()]:
    [q = safe_str(r.iloc[0])];
    [opts = [safe_str(r.iloc[i]) if i < len(r) else '' for i in range(1, 5)]];
    [corr = opts[0] if opts else '']. *)
Definition read_row (r : series) : exc row :=
  match r !! 0 with
  | None => inl IndexError
  | Some c0 =>
      let q := safe_str c0 in
      let opts :=
        map (fun i => match r !! i with
                      | Some c => safe_str c
                      | None => ""
                      end) [1; 2; 3; 4] in
      let corr := match opts with
                  | o :: _ => o
                  | [] => ""
                  end in
      inr (q, opts, corr)
  end.

Fixpoint read_rows (df : dataframe) : exc (list row) :=
  match df with
  | [] => inr []
  | r :: df' =>
      match read_row r with
      | inl e => inl e
      | inr x =>
          match read_rows df' with
          | inl e => inl e
          | inr xs => inr (x :: xs)
          end
      end
  end.

(** [for sname in sheet_names: df = read_excel(...).iloc[1:]; ...] *)
Fixpoint load_sheets (sheets : list (string * dataframe)) : exc (list (list row)) :=
  match sheets with
  | [] => inr []
  | (_, df) :: rest =>
      match read_rows (tail df) with
      | inl e => inl e
      | inr rows =>
          match load_sheets rest with
          | inl e => inl e
          | inr more => inr (rows :: more)
          end
      end
  end.

(** [EXTRA = max(0, QCOUNT - SHEET_LIMIT * FROM_FIRST)] *)
Definition EXTRA (QCOUNT SHEET_LIMIT FROM_FIRST : Z) : Z :=
  Z.max 0 (QCOUNT - SHEET_LIMIT * FROM_FIRST).

(** [{'question': qtext, 'A': opts_copy[0], ..., 'D': opts_copy[3]}] *)
Definition make_question (qtext : string) (opts_copy : list string) : M question_out :=
  a <- Random.getitem opts_copy 0 ;;
  b <- Random.getitem opts_copy 1 ;;
  c <- Random.getitem opts_copy 2 ;;
  d <- Random.getitem opts_copy 3 ;;
  ret (mkQ qtext a b c d).

Definition is_empty {A} (l : list A) : bool :=
  match l with
  | [] => true
  | _ => false
  end.

End UI.

(** ** TestVariant-W.py *)

Module W.
Import UI Random.

(** Quota draw for one sheet: without replacement when the sheet is large
    enough, with replacement otherwise. *)
Definition pick_rows (rows : list row) (FROM_FIRST : Z) : M (list row) :=
  if (FROM_FIRST <=? Z.of_nat (length rows))%Z
  then sample rows FROM_FIRST
  else choice_n (Z.to_nat FROM_FIRST) rows.

(** [for rows in sheet_rows_by_sheet[:SHEET_LIMIT]: ...] *)
Fixpoint quota_loop (sheets : list (list row)) (FROM_FIRST : Z)
    (selected : list row) : M (list row) :=
  match sheets with
  | [] => ret selected
  | rows :: rest =>
      if is_empty rows then quota_loop rest FROM_FIRST selected
      else
        pick <- pick_rows rows FROM_FIRST ;;
        quota_loop rest FROM_FIRST (selected ++ pick)
  end.

(** [if EXTRA > 0 and flat_pool: ...; selected.extend(extra_pick)] *)
Definition extra_step (flat_pool : list row) (EXTRA : Z)
    (selected : list row) : M (list row) :=
  if (0 <? EXTRA)%Z && negb (is_empty flat_pool) then
    extra_pick <- pick_rows flat_pool EXTRA ;;
    ret (selected ++ extra_pick)
  else ret selected.

(** The test of the fallback loop:
    [corr and ot and corr.strip().lower() in ot.strip().lower()]. *)
Definition partial_match (corr ot : string) : bool :=
  PyStr.truthy corr && PyStr.truthy ot
  && PyStr.contains (PyStr.norm corr) (PyStr.norm ot).

(** [for idx_opt, ot in enumerate(opts_copy): if ...: found = idx_opt; break] *)
Fixpoint find_partial (corr : string) (opts_copy : list string) : option nat :=
  match opts_copy with
  | [] => None
  | ot :: rest =>
      if partial_match corr ot then Some 0
      else S <$> find_partial corr rest
  end.

Definition correct_label (corr : string) (opts_copy : list string) : M string :=
  match index_of corr opts_copy with
  | inr i => getitem LABELS i
  | inl ValueError =>
      match find_partial corr opts_copy with
      | Some found => getitem LABELS found
      | None => ret ""
      end
  | inl e => raise e
  end.

(** The body of [for qtext, opts, corr in selected[:QCOUNT]]. *)
Definition shuffle_options (r : row) : M (question_out * string) :=
  let '(qtext, opts, corr) := r in
  let opts_copy :=
    pad4 (List.filter (fun o => PyStr.truthy o && PyStr.truthy (PyStr.strip o)) opts) in
  opts_copy <- shuffle opts_copy ;;
  label <- correct_label corr opts_copy ;;
  q <- make_question qtext opts_copy ;;
  ret (q, label).

(** One pass of [for v in range(1, VARIANT_COUNT + 1)]. *)
Definition variant_body (sheet_rows_by_sheet : list (list row))
    (flat_pool : list row) (QCOUNT SHEET_LIMIT FROM_FIRST : Z) : M variant :=
  selected <- quota_loop (slice_to sheet_rows_by_sheet SHEET_LIMIT) FROM_FIRST [] ;;
  selected <- extra_step flat_pool (EXTRA QCOUNT SHEET_LIMIT FROM_FIRST) selected ;;
  selected <- shuffle selected ;;
  qk <- mapM shuffle_options (slice_to selected QCOUNT) ;;
  booklet <- choices digits 7 ;;
  ret (assemble qk booklet).

Definition start_generation (xls : workbook)
    (VARIANT_COUNT QCOUNT SHEET_LIMIT FROM_FIRST : Z) (g : rng) : outcome string :=
  match load_sheets (slice_to xls SHEET_LIMIT) with
  | inl e => Failed [] e
  | inr sheet_rows_by_sheet =>
      let flat_pool := concat sheet_rows_by_sheet in
      if (VARIANT_COUNT <=? 0)%Z then Rejected ["Variant count must be > 0"]
      else run_loop (variant_body sheet_rows_by_sheet flat_pool
                       QCOUNT SHEET_LIMIT FROM_FIRST) VARIANT_COUNT g
  end.

End W.

(** ** TestApp-With-Validation.py *)

Module V.
Import UI Random.

(** The four messages [validate_question_bank] can append, with the values
    its f-strings interpolate: too few rows in a sheet, an empty question,
    a missing correct answer, fewer than four options. *)
Inductive verror : Type :=
| NotEnoughRows (sname : string) (have : nat) (need : Z)
| EmptyQuestion (sname : string) (line : nat)
| NoCorrectAnswer (sname : string) (line : nat)
| NotFourOptions (sname : string) (line : nat).

(** The body of [for i, (q, opts, corr) in enumerate(rows, start=2)]. *)
Definition check_row (sname : string) (i : nat) (r : row) : list verror :=
  let '(q, opts, corr) := r in
  (if negb (PyStr.truthy (PyStr.strip q)) then [EmptyQuestion sname i] else [])
  ++ (if negb (PyStr.truthy (PyStr.strip corr)) then [NoCorrectAnswer sname i] else [])
  ++ (let valid_opts := List.filter (fun o => PyStr.truthy (PyStr.strip o)) opts in
      if length valid_opts <? 4 then [NotFourOptions sname i] else []).

Fixpoint check_rows (sname : string) (i : nat) (rows : list row) : list verror :=
  match rows with
  | [] => []
  | r :: rest => check_row sname i r ++ check_rows sname (S i) rest
  end.

(** [for idx, rows in enumerate(sheet_rows_by_sheet)], from index [idx] on. *)
Fixpoint validate_from (idx : nat) (sheets : list (list row))
    (sheet_names : list string) (from_first : Z) : exc (list verror) :=
  match sheets with
  | [] => inr []
  | rows :: rest =>
      match sheet_names !! idx with
      | None => inl IndexError
      | Some sname =>
          let here :=
            (if (Z.of_nat (length rows) <? from_first)%Z
             then [NotEnoughRows sname (length rows) from_first] else [])
            ++ check_rows sname 2 rows in
          match validate_from (S idx) rest sheet_names from_first with
          | inl e => inl e
          | inr errors => inr (here ++ errors)
          end
      end
  end.

Definition validate_question_bank (sheet_rows_by_sheet : list (list row))
    (sheet_names : list string) (from_first : Z) : exc (list verror) :=
  validate_from 0 sheet_rows_by_sheet sheet_names from_first.

(** [for rows in sheet_rows_by_sheet: if rows: selected.extend(sample(...))] *)
Fixpoint quota_loop (sheets : list (list row)) (FROM_FIRST : Z)
    (selected : list row) : M (list row) :=
  match sheets with
  | [] => ret selected
  | rows :: rest =>
      if is_empty rows then quota_loop rest FROM_FIRST selected
      else
        pick <- sample rows (Z.min FROM_FIRST (Z.of_nat (length rows))) ;;
        quota_loop rest FROM_FIRST (selected ++ pick)
  end.

(** [if EXTRA > 0 and flat_pool: selected.extend(sample(flat_pool, min(...)))] *)
Definition extra_step (flat_pool : list row) (EXTRA : Z)
    (selected : list row) : M (list row) :=
  if (0 <? EXTRA)%Z && negb (is_empty flat_pool) then
    extra_pick <- sample flat_pool (Z.min EXTRA (Z.of_nat (length flat_pool))) ;;
    ret (selected ++ extra_pick)
  else ret selected.

(** [try: label = LABELS[opts_copy.index(corr)]; except ValueError: label = ''] *)
Definition correct_label (corr : string) (opts_copy : list string) : M string :=
  match index_of corr opts_copy with
  | inr i => getitem LABELS i
  | inl ValueError => ret ""
  | inl e => raise e
  end.

Definition shuffle_options (r : row) : M (question_out * string) :=
  let '(qtext, opts, corr) := r in
  let opts_copy := pad4 (List.filter PyStr.truthy opts) in
  opts_copy <- shuffle opts_copy ;;
  label <- correct_label corr opts_copy ;;
  q <- make_question qtext opts_copy ;;
  ret (q, label).

Definition variant_body (sheet_rows_by_sheet : list (list row))
    (flat_pool : list row) (QCOUNT SHEET_LIMIT FROM_FIRST : Z) : M variant :=
  selected <- quota_loop sheet_rows_by_sheet FROM_FIRST [] ;;
  selected <- extra_step flat_pool (EXTRA QCOUNT SHEET_LIMIT FROM_FIRST) selected ;;
  selected <- shuffle selected ;;
  qk <- mapM shuffle_options (slice_to selected QCOUNT) ;;
  booklet <- choices digits 7 ;;
  ret (assemble qk booklet).

Definition start_generation (xls : workbook)
    (VARIANT_COUNT QCOUNT SHEET_LIMIT FROM_FIRST : Z) (g : rng) : outcome verror :=
  let sheets := slice_to xls SHEET_LIMIT in
  let sheet_names := map fst sheets in
  match load_sheets sheets with
  | inl e => Failed [] e
  | inr sheet_rows_by_sheet =>
      match validate_question_bank sheet_rows_by_sheet sheet_names FROM_FIRST with
      | inl e => Failed [] e
      | inr (e :: errors) => Rejected (take 10 (e :: errors))
      | inr [] =>
          let flat_pool := concat sheet_rows_by_sheet in
          run_loop (variant_body sheet_rows_by_sheet flat_pool
                      QCOUNT SHEET_LIMIT FROM_FIRST) VARIANT_COUNT g
      end
  end.

End V.

(** ** TestV-App.py *)

Module Script.
Import Random.

(** The row dict, with its keys ['question'], ['A'] .. ['D'], ['correct']
    and ['correct_raw'].  The last two hold [None] when the key is absent
    or maps to [None], which is all [row.get] can tell. *)
Record row : Type := mkRow {
  r_question : string;
  r_A : string;
  r_B : string;
  r_C : string;
  r_D : string;
  r_correct : option string;
  r_correct_raw : option string
}.

(** [row.get(label)] for the option keys. *)
Definition get (r : row) (label : string) : option string :=
  if String.eqb label "A" then Some (r_A r)
  else if String.eqb label "B" then Some (r_B r)
  else if String.eqb label "C" then Some (r_C r)
  else if String.eqb label "D" then Some (r_D r)
  else None.

Definition upper_char (c : ascii) : ascii :=
  let n := nat_of_ascii c in
  if ((97 <=? n) && (n <=? 122))
     || ((224 <=? n) && (n <=? 254) && negb (n =? 247))
  then ascii_of_nat (n - 32) else c.

(** [s.upper()], for the characters whose upper case is below 256. *)
Fixpoint upper (s : string) : string :=
  match s with
  | EmptyString => EmptyString
  | String c s' => String (upper_char c) (upper s')
  end.

Definition is_label (s : string) : bool := existsb (String.eqb s) LABELS.

(** [(row.get(label) or '').strip()] *)
Definition option_text (r : row) (label : string) : string :=
  PyStr.strip (default "" (get r label)).

Definition normalize_correct_label (correct : option string) (r : row) : option string :=
  match correct with
  | None => None
  | Some c =>
      if negb (PyStr.truthy c) then None
      else
        let corr := PyStr.strip c in
        if (String.length corr =? 1) && is_label (upper corr) then Some (upper corr)
        else
          match List.find (fun label =>
                  let opt := option_text r label in
                  PyStr.truthy opt
                  && String.eqb (PyStr.lower corr) (PyStr.lower opt)) LABELS with
          | Some label => Some label
          | None =>
              List.find (fun label =>
                  let opt := option_text r label in
                  PyStr.truthy opt
                  && PyStr.contains (PyStr.lower corr) (PyStr.lower opt)) LABELS
          end
  end.

(** [r['correct_raw'] = r['correct']];
    [r['correct'] = normalize_correct_label(r['correct_raw'], r)] *)
Definition normalize_row (r : row) : row :=
  mkRow (r_question r) (r_A r) (r_B r) (r_C r) (r_D r)
        (normalize_correct_label (r_correct r) r) (r_correct r).

(** The two loops that fill [new_row]: the shuffled texts take the labels
    in order, the remaining labels get ['']. *)
Definition relabel (question : string) (texts : list string) : row :=
  let slot i := default "" (texts !! i) in
  mkRow question (slot 0) (slot 1) (slot 2) (slot 3) None None.

(** The test of the first search loop of [shuffle_question]. *)
Definition exact_match (new_row : row) (t label : string) : bool :=
  match get new_row label with
  | Some v => PyStr.truthy v && String.eqb (PyStr.norm v) (PyStr.norm t)
  | None => false
  end.

(** The test of its second loop ("partial match"). *)
Definition partial_match (new_row : row) (t label : string) : bool :=
  match get new_row label with
  | Some v => PyStr.truthy v && PyStr.contains (PyStr.norm t) (PyStr.norm v)
  | None => false
  end.

Definition find_new_correct (new_row : row) (orig_text : option string) : option string :=
  match orig_text with
  | None => None
  | Some t =>
      if PyStr.truthy t then
        match List.find (exact_match new_row t) LABELS with
        | Some label => Some label
        | None => List.find (partial_match new_row t) LABELS
        end
      else None
  end.

Definition non_empty_options (r : row) : list (string * string) :=
  List.filter (fun o => negb (String.eqb (PyStr.strip (snd o)) ""))
    [("A", r_A r); ("B", r_B r); ("C", r_C r); ("D", r_D r)].

Definition orig_text (r : row) : option string :=
  match r_correct r with
  | Some l => if PyStr.truthy l && is_label l then get r l else r_correct_raw r
  | None => r_correct_raw r
  end.

Definition shuffle_question (r : row) : M (row * option string) :=
  let non_empty := non_empty_options r in
  if length non_empty <? 2 then ret (r, None)
  else
    non_empty <- shuffle non_empty ;;
    let new_row := relabel (r_question r) (map snd non_empty) in
    ret (new_row, find_new_correct new_row (orig_text r)).

Definition FROM_FIRST_8_PER_SHEET : Z := 6.
Definition EXTRA_FROM_OTHER_SHEETS : Z := 2.
Definition QUESTIONS_PER_VARIANT : Z := 50.
Definition BOOKLET_ID_LENGTH : nat := 7.
Definition VARIANT_COUNT : Z := 140.

Definition pick_rows (rows : list row) (k : Z) : M (list row) :=
  if (k <=? Z.of_nat (length rows))%Z
  then sample rows k
  else choice_n (Z.to_nat k) rows.

(** [for idx in range(8): rows = sheet_rows[all_sheets[idx]]; ...] *)
Fixpoint quota_loop (idxs : list nat) (sheet_rows : list (list row))
    (from_first : Z) (selected : list row) : M (list row) :=
  match idxs with
  | [] => ret selected
  | idx :: rest =>
      rows <- getitem sheet_rows idx ;;
      picked <- pick_rows rows from_first ;;
      quota_loop rest sheet_rows from_first (selected ++ picked)
  end.

(** The rows of the sheets after the eighth, and the draw of the extras:
    from those when they suffice, from all sheets otherwise. *)
Definition other_pool (sheet_rows : list (list row)) : list row :=
  concat (drop 8 sheet_rows).

Definition extras_step (sheet_rows : list (list row)) (extra : Z) : M (list row) :=
  let pool := other_pool sheet_rows in
  if (extra <=? Z.of_nat (length pool))%Z then sample pool extra
  else sample (concat sheet_rows) extra.

(** [answer_key.append(new_correct if new_correct else '')] *)
Definition key_entry (new_correct : option string) : string :=
  match new_correct with
  | Some l => if PyStr.truthy l then l else ""
  | None => ""
  end.

(** The body of [for q in selected].  The loop that adds missing option
    keys to [shuffled_row] finds none missing: both results of
    [shuffle_question] carry the four keys. *)
Definition shuffle_entry (q : row) : M (question_out * string) :=
  x <- shuffle_question q ;;
  let '(shuffled_row, new_correct) := x in
  ret (mkQ (r_question shuffled_row) (r_A shuffled_row) (r_B shuffled_row)
           (r_C shuffled_row) (r_D shuffled_row),
       key_entry new_correct).

Definition variant_body (sheet_rows : list (list row))
    (from_first extra : Z) (id_length : nat) : M variant :=
  selected <- quota_loop (seq 0 8) sheet_rows from_first [] ;;
  extras <- extras_step sheet_rows extra ;;
  selected <- shuffle (selected ++ extras) ;;
  qk <- mapM shuffle_entry selected ;;
  booklet <- choices digits id_length ;;
  ret (assemble qk booklet).

(** The module-level code after the sheets are read: [sheet_rows] holds the
    rows of every sheet in workbook order, before normalisation. *)
Definition main (raw_sheets : list (list row)) (g : rng) : outcome string :=
  let sheet_rows := map (map normalize_row) raw_sheets in
  if length sheet_rows <? 8
  then Rejected ["Excel must contain at least 8 sheets as per spec."]
  else run_loop (variant_body sheet_rows FROM_FIRST_8_PER_SHEET
                   EXTRA_FROM_OTHER_SHEETS BOOKLET_ID_LENGTH) VARIANT_COUNT g.

End Script.

(** ** TestV-App.py: reading the sheets *)

Module ScriptInput.
Import Script.

(** A cell or a column label as [pandas] hands it over: a missing value
    ([NaN], [NaT] or [None]), a string, or any other object, of which the
    code uses the truth value and [str()] only. *)
Inductive value : Type :=
| NaN
| Text (s : string)
| Other (truth : bool) (repr : string).

(** [pd.notna(v)] *)
Definition notna (v : value) : bool :=
  match v with
  | NaN => false
  | _ => true
  end.

(** [bool(v)]; the code asks it of a cell only after [pd.notna]. *)
Definition truthy (v : value) : bool :=
  match v with
  | NaN => true
  | Text s => PyStr.truthy s
  | Other truth _ => truth
  end.

(** [str(v)] *)
Definition str (v : value) : string :=
  match v with
  | NaN => "nan"
  | Text s => s
  | Other _ repr => repr
  end.

(** A data frame: its column labels and its rows.  [pandas] keeps the
    labels of a sheet distinct, so a label is identified with its position:
    [label in r] holds for every position of the frame and [r[label]] is the
    cell at that position. *)
Record frame : Type := mkFrame {
  f_columns : list value;
  f_rows : list (list value)
}.

(** The dict [detect_columns] returns; [None] for the Python [None]. *)
Record colmap : Type := mkCols {
  c_question : option nat;
  c_correct : option nat;
  c_option_a : option nat;
  c_option_b : option nat;
  c_option_c : option nat;
  c_option_d : option nat
}.

(** [cols[i] if len(cols) > i else None] *)
Definition col_at (cols : list value) (i : nat) : option nat :=
  if i <? length cols then Some i else None.

Definition detect_columns (cols : list value) : exc colmap :=
  match cols with
  | [] => inl IndexError
  | _ :: _ =>
      inr (mkCols (Some 0) (col_at cols 1) (col_at cols 1)
                  (col_at cols 2) (col_at cols 3) (col_at cols 4))
  end.

(** [not colmap[key]]: the entry is [None] or a label that is false. *)
Definition unset (cols : list value) (c : option nat) : bool :=
  match c with
  | None => true
  | Some p =>
      match cols !! p with
      | Some label => negb (truthy label)
      | None => true
      end
  end.

(** [if not colmap[opt_key]: pos = q_idx + 1 + i;
     if pos < len(cols): colmap[opt_key] = cols[pos]] *)
Definition fill_option (cols : list value) (q_idx i : nat) (c : option nat)
  : option nat :=
  if unset cols c
  then (if q_idx + 1 + i <? length cols then Some (q_idx + 1 + i) else c)
  else c.

(** The module-level code between [detect_columns] and [read_sheet_rows]. *)
Definition fill_columns (cols : list value) (m : colmap) : exc colmap :=
  match cols with
  | [] => inl IndexError
  | _ :: _ =>
      let question := if unset cols (c_question m) then Some 0 else c_question m in
      match question with
      | None => inl ValueError
      | Some q_idx =>
          let correct :=
            if unset cols (c_correct m) then Some (length cols - 1)
            else c_correct m in
          inr (mkCols question correct
                      (fill_option cols q_idx 0 (c_option_a m))
                      (fill_option cols q_idx 1 (c_option_b m))
                      (fill_option cols q_idx 2 (c_option_c m))
                      (fill_option cols q_idx 3 (c_option_d m)))
      end
  end.

(** [r[colmap[k]] if colmap[k] in r and pd.notna(r[colmap[k]]) else None] *)
Definition fetch (r : list value) (c : option nat) : option value :=
  match c with
  | None => None
  | Some p =>
      match r !! p with
      | Some v => if notna v then Some v else None
      | None => None
      end
  end.

(** Truth value of what [fetch] returned. *)
Definition holds (x : option value) : bool :=
  match x with
  | Some v => truthy v
  | None => false
  end.

(** [str(x) if x and not pd.isna(x) else ''] *)
Definition text (x : option value) : string :=
  match x with
  | Some v => if truthy v && notna v then str v else ""
  | None => ""
  end.

(** [str(q)] *)
Definition str_opt (x : option value) : string :=
  match x with
  | Some v => str v
  | None => "None"
  end.

(** The body of [for idx, r in df.iterrows()]: the dict appended, if any. *)
Definition read_row (m : colmap) (r : list value) : option row :=
  let q := fetch r (c_question m) in
  let a := fetch r (c_option_a m) in
  let b := fetch r (c_option_b m) in
  let c := fetch r (c_option_c m) in
  let d := fetch r (c_option_d m) in
  let corr := fetch r (c_correct m) in
  if holds q && existsb holds [a; b; c; d]
  then Some (mkRow (str_opt q) (text a) (text b) (text c) (text d)
                   (Some (text corr)) None)
  else None.

Definition read_sheet_rows (df : list (list value)) (m : colmap) : list row :=
  omap (read_row m) df.

(** One turn of [for sname in all_sheets], up to [read_sheet_rows]: the
    frame loses its first row, the columns are mapped, the rows are read. *)
Definition load_sheet (df : frame) : exc (list row) :=
  let body := tail (f_rows df) in
  match detect_columns (f_columns df) with
  | inl e => inl e
  | inr m =>
      match fill_columns (f_columns df) m with
      | inl e => inl e
      | inr m' => inr (read_sheet_rows body m')
      end
  end.

Fixpoint load_sheets (book : list frame) : exc (list (list row)) :=
  match book with
  | [] => inr []
  | df :: rest =>
      match load_sheet df with
      | inl e => inl e
      | inr rows =>
          match load_sheets rest with
          | inl e => inl e
          | inr more => inr (rows :: more)
          end
      end
  end.

(** The whole script: an exception while reading stops it before the
    first pass. *)
Definition script (book : list frame) (g : rng) : outcome string :=
  match load_sheets book with
  | inl e => Failed [] e
  | inr raw_sheets => main raw_sheets g
  end.

(** [find_column(df, aliases)], for string labels. *)
Definition column_key (s : string) : string := PyStr.strip (PyStr.lower s).

Fixpoint find_column (columns aliases : list string) : option string :=
  match aliases with
  | [] => None
  | a :: rest =>
      match List.find (fun orig => String.eqb (column_key a) (column_key orig))
                      columns with
      | Some orig => Some orig
      | None => find_column columns rest
      end
  end.

End ScriptInput.

(** ** The two DOCX writers of TestVariant-W.py *)

Module Docx.

(** A paragraph with the formatting the writers set: the text, whether its
    run is bold, and the space after it in points when set. *)
Record paragraph : Type := mkPar {
  p_text : string;
  p_bold : bool;
  p_space_after : option nat
}.

(** The content of a document: the text of the header paragraph (a PAGE
    field follows it), the body paragraphs in order, and the table when
    there is one, as its rows of cell texts.  Page margins are not
    represented. *)
Record document : Type := mkDoc {
  d_header : option string;
  d_body : list paragraph;
  d_table : option (list (list string))
}.

Definition TAB : string := String "009"%char EmptyString.

(** [str(n)] for a natural number. *)
Definition str_nat (n : nat) : string := pretty n.

Fixpoint zeros (k : nat) : string :=
  match k with
  | 0 => EmptyString
  | S k' => String "0"%char (zeros k')
  end.

(** [f"{n:03d}"] for a natural number. *)
Definition fmt_03d (n : nat) : string :=
  let s := str_nat n in
  zeros (3 - String.length s) +:+ s.

Definition dashes : string := "---------------------------------".

(** [for opt_label in ['A','B','C','D']: text = q.get(opt_label, '');
     if text: add_paragraph(f"{opt_label}) {text}"), space_after 0]. *)
Definition option_paragraphs (q : question_out) : list paragraph :=
  flat_map (fun opt_label =>
              let text := default EmptyString (q_get q opt_label) in
              if PyStr.truthy text
              then [mkPar (opt_label +:+ ") " +:+ text) false (Some 0)]
              else [])
           LABELS.

(** The body of [for i, q in enumerate(questions, start=1)]. *)
Definition question_paragraphs (i : nat) (q : question_out) : list paragraph :=
  [mkPar dashes false (Some 4);
   mkPar (str_nat i +:+ "-savol. " +:+ q_question q) true (Some 4)]
  ++ option_paragraphs q.

Fixpoint questions_from (i : nat) (questions : list question_out) : list paragraph :=
  match questions with
  | [] => []
  | q :: rest => question_paragraphs i q ++ questions_from (S i) rest
  end.

Definition body_lines (program_name : string) (questions : list question_out)
  : list string :=
  ["Ta`lim yo`nalishi:" +:+ TAB +:+ program_name;
   "Maxsus shifr: _____________" +:+ TAB +:+ TAB +:+ TAB
     +:+ " Guruhi:_____________" +:+ TAB;
   "_______________________________________ " +:+ TAB +:+ TAB +:+ TAB
     +:+ " ______________";
   "   (familiyasi, ismi, otasining ismi)" +:+ TAB +:+ TAB +:+ TAB
     +:+ "   (imzo)";
   "";
   "Test topshiriqlarini yechishdan avval savollar kitobchasini tekshiring!";
   "";
   "Test savollari: " +:+ str_nat (length questions) +:+ " ta"].

Definition write_variant_docx (booklet_id program_name : string)
    (questions : list question_out) : document :=
  mkDoc (Some ("Savollar kitobchasi: " +:+ booklet_id +:+ "    Sahifa: "))
        ([mkPar ("Savollar kitobchasi: " +:+ booklet_id) true (Some 4)]
         ++ map (fun line => mkPar line false (Some 4))
                (body_lines program_name questions)
         ++ questions_from 1 questions)
        None.

(** [doc.add_table(rows=rows, cols=cols)]: every cell empty. *)
Definition add_table (rows cols : nat) : list (list string) :=
  replicate rows (replicate cols EmptyString).

(** [table.cell(row, col).text = text], [IndexError] outside the table. *)
Definition set_cell (table : list (list string)) (row col : nat) (text : string)
  : exc (list (list string)) :=
  match table !! row with
  | None => inl IndexError
  | Some cells =>
      if col <? length cells
      then inr (<[row := <[col := text]> cells]> table)
      else inl IndexError
  end.

(** [f"{index+1}) {answers[index]}"] *)
Definition cell_text (answers : list string) (index : nat) : exc string :=
  match answers !! index with
  | None => inl IndexError
  | Some a => inr (str_nat (index + 1) +:+ ") " +:+ a)
  end.

(** [for row in range(rows): if index < total: ...; index += 1], for the
    rows still to visit in column [col]. *)
Fixpoint fill_rows (answers : list string) (total col : nat)
    (rows_left : list nat) (table : list (list string)) (index : nat)
  : exc (list (list string) * nat) :=
  match rows_left with
  | [] => inr (table, index)
  | row :: rest =>
      if index <? total then
        match cell_text answers index with
        | inl e => inl e
        | inr text =>
            match set_cell table row col text with
            | inl e => inl e
            | inr table' => fill_rows answers total col rest table' (S index)
            end
        end
      else fill_rows answers total col rest table index
  end.

(** [for col in range(4): for row in range(rows): ...] *)
Fixpoint fill_cols (answers : list string) (total rows : nat)
    (cols_left : list nat) (table : list (list string)) (index : nat)
  : exc (list (list string) * nat) :=
  match cols_left with
  | [] => inr (table, index)
  | col :: rest =>
      match fill_rows answers total col (seq 0 rows) table index with
      | inl e => inl e
      | inr (table', index') => fill_cols answers total rows rest table' index'
      end
  end.

Definition key_title (variant_number : nat) (booklet_id : string) : paragraph :=
  mkPar ("Variant " +:+ fmt_03d variant_number
         +:+ " Javoblar, savollar kitobchasi: " +:+ booklet_id) false None.

Definition write_key_docx (variant_number : nat) (answers : list string)
    (booklet_id : string) : exc document :=
  let total := length answers in
  if total =? 0
  then inr (mkDoc None [key_title variant_number booklet_id;
                        mkPar "No answers" false None] None)
  else
    let rows := (total + 3) / 4 in
    match fill_cols answers total rows (seq 0 4) (add_table rows 4) 0 with
    | inl e => inl e
    | inr (table, _) =>
        inr (mkDoc None [key_title variant_number booklet_id] (Some table))
    end.

(** [table.cell(row, col).text] *)
Definition get_cell (table : list (list string)) (row col : nat) : option string :=
  match table !! row with
  | Some cells => cells !! col
  | None => None
  end.

End Docx.

(** ** The option lines of the booklet of TestV-App.py *)

Module ScriptDocx.
Import Docx.

(** [for opt_label in ['A','B','C','D']: text = q.get(opt_label) or '';
     if text.strip(): doc.add_paragraph(f"{opt_label}) {text}")] *)
Definition option_paragraphs (q : question_out) : list paragraph :=
  flat_map (fun opt_label =>
              let text := default EmptyString (q_get q opt_label) in
              if PyStr.truthy (PyStr.strip text)
              then [mkPar (opt_label +:+ ") " +:+ text) false None]
              else [])
           LABELS.

End ScriptDocx.

(** ** The matching rule as the specification words it *)

Module Spec.

(** Exact match first (case-insensitive, trimmed); otherwise containment in
    either direction (original in candidate, or candidate in original);
    otherwise unresolved.  [options] are the permuted option texts in label
    order; empty slots are not candidates. *)
Definition exact (orig cand : string) : bool :=
  PyStr.truthy cand && String.eqb (PyStr.norm cand) (PyStr.norm orig).

Definition either_way (orig cand : string) : bool :=
  PyStr.truthy cand
  && (PyStr.contains (PyStr.norm orig) (PyStr.norm cand)
      || PyStr.contains (PyStr.norm cand) (PyStr.norm orig)).

Fixpoint first_index (f : string -> bool) (l : list string) : option nat :=
  match l with
  | [] => None
  | x :: l' => if f x then Some 0 else S <$> first_index f l'
  end.

Definition find_label (options : list string) (orig : string) : option string :=
  match first_index (exact orig) options with
  | Some i => LABELS !! i
  | None =>
      match first_index (either_way orig) options with
      | Some i => LABELS !! i
      | None => None
      end
  end.

End Spec.

(** ** Predicates used in the statements *)

(** [spec m n P]: on every stream [m] returns normally with a result
    satisfying [P], and it reads exactly the next [n] entries: the result
    is a function of those entries alone and the remainder of the stream is
    handed on untouched. *)
Definition spec {A} (m : M A) (n : nat) (P : A -> Prop) : Prop :=
  (forall g, exists a g', m g = inr (a, g') /\ P a) /\
  (forall t, length t = n -> exists a, forall rest, m (t ++ rest) = inr (a, rest)).

Module Shape.

(** The shape every row loaded by the Tkinter programs has: four option
    slots, the first of which is the correct answer. *)
Definition well_formed (r : UI.row) : Prop :=
  let '(_, opts, corr) := r in length opts = 4 /\ opts !! 0 = Some corr.

(** The four option texts of a finished question, in label order. *)
Definition layout (q : question_out) : list string :=
  [q_A q; q_B q; q_C q; q_D q].

(** What [validate_question_bank] demands of a row and of a sheet. *)
Definition row_ok (r : UI.row) : Prop :=
  let '(q, opts, corr) := r in
  PyStr.strip q <> EmptyString /\
  PyStr.strip corr <> EmptyString /\
  4 <= length (List.filter (fun o => PyStr.truthy (PyStr.strip o)) opts).

Definition sheet_ok (from_first : Z) (rows : list UI.row) : Prop :=
  (from_first <= Z.of_nat (length rows))%Z /\ Forall row_ok rows.

(** Rows the quota loops draw, which is also the number of draws they
    make: in [TestApp-With-Validation.py] at most the sheet, in
    [TestVariant-W.py] the full quota from every sheet that has rows. *)
Definition V_quota (from_first : Z) (sheets : list (list UI.row)) : nat :=
  sum_list (map (fun rows => Z.to_nat (Z.min from_first (Z.of_nat (length rows))))
                sheets).

Definition W_quota (from_first : Z) (sheets : list (list UI.row)) : nat :=
  sum_list (map (fun rows => if UI.is_empty rows then 0 else Z.to_nat from_first)
                sheets).

Definition V_extra (extra : Z) (flat_pool : list UI.row) : nat :=
  Z.to_nat (Z.min extra (Z.of_nat (length flat_pool))).

Definition W_extra (extra : Z) (flat_pool : list UI.row) : nat :=
  if UI.is_empty flat_pool then 0 else Z.to_nat extra.

(** The loop body the two Tkinter programs share, with the two draws and
    the option shuffle left open. *)
Definition loop_body {R} (quota : M (list R)) (extra : list R -> M (list R))
    (opt : R -> M (question_out * string)) (QCOUNT : Z) : M variant :=
  selected <- quota ;;
  selected <- extra selected ;;
  selected <- Random.shuffle selected ;;
  qk <- mapM opt (slice_to selected QCOUNT) ;;
  booklet <- Random.choices digits 7 ;;
  ret (assemble qk booklet).

(** The option texts of a script row, in label order. *)
Definition row_layout (r : Script.row) : list string :=
  [Script.r_A r; Script.r_B r; Script.r_C r; Script.r_D r].

(** Label [l] of [new_row] holds a non-empty text equal to [t] up to case
    and surrounding whitespace. *)
Definition exact_hit (new_row : Script.row) (t l : string) : Prop :=
  exists v, Script.get new_row l = Some v /\ v <> EmptyString /\
            PyStr.norm v = PyStr.norm t.

(** Label [l] of [new_row] holds a non-empty text in which [t] occurs, up
    to case and surrounding whitespace. *)
Definition partial_hit (new_row : Script.row) (t l : string) : Prop :=
  exists v, Script.get new_row l = Some v /\ v <> EmptyString /\
            exists pre post,
              PyStr.norm v = String.append pre (String.append (PyStr.norm t) post).

(** Draws the script's shuffler makes for a row: one less than the number
    of its non-blank options, none for a row it skips. *)
Definition draws_for (r : Script.row) : nat :=
  length (Script.non_empty_options r) - 1.

(** [l] is the first of the labels [A..D] with property [P]. *)
Definition first_label (P : string -> Prop) (l : string) : Prop :=
  exists i, LABELS !! i = Some l /\ P l /\
            forall j l2, j < i -> LABELS !! j = Some l2 -> ~ P l2.

End Shape.

(** ** Predicates on the answer-key table *)

Module Layout.

(** What the cell in [row] and [col] holds once the first [filled] answers
    are written column by column into a table of [rows] rows. *)
Definition expected_cell (answers : list string) (rows filled row col : nat)
  : string :=
  let i := col * rows + row in
  if i <? filled
  then match answers !! i with
       | Some a => Docx.str_nat (i + 1) +:+ ") " +:+ a
       | None => EmptyString
       end
  else EmptyString.

Definition table_upto (answers : list string) (rows filled : nat)
    (table : list (list string)) : Prop :=
  length table = rows /\
  forall row col, row < rows -> col < 4 ->
    Docx.get_cell table row col = Some (expected_cell answers rows filled row col).

End Layout.

(** ** What a finished question owes to the row it was made from *)

Module Keyed.

(** The question shows the text of the row, its four slots are the four
    options of the row in some order, and the key letter names the slot
    holding the correct text. *)
Definition keyed (r : UI.row) (p : question_out * string) : Prop :=
  let '(qtext, opts, corr) := r in
  q_question p.1 = qtext /\
  Shape.layout p.1 ≡ₚ opts /\
  p.2 ∈ LABELS /\
  q_get p.1 p.2 = Some corr.

(** The same for [TestVariant-W.py], which accepts rows with blank options:
    the slots are the non-blank options padded with empty strings, and the
    letter is right whenever the correct text is not blank. *)
Definition keyed_W (r : UI.row) (p : question_out * string) : Prop :=
  let '(qtext, opts, corr) := r in
  q_question p.1 = qtext /\
  Shape.layout p.1 ≡ₚ
    pad4 (List.filter (fun o => PyStr.truthy o && PyStr.truthy (PyStr.strip o)) opts) /\
  (PyStr.strip corr <> EmptyString ->
   p.2 ∈ LABELS /\ q_get p.1 p.2 = Some corr).

End Keyed.

(** ** A small workbook for the examples *)

Module Example.

(** One sheet: the row [iloc[1:]] drops, then two complete questions. *)
Definition sheet1 : dataframe :=
  [ [Some "Savol"; Some "A"; Some "B"; Some "C"; Some "D"];
    [Some "2+2?"; Some "4"; Some "5"; Some "6"; Some "7"];
    [Some "3+3?"; Some "6"; Some "7"; Some "8"; Some "9"] ].

Definition book : workbook := [("S1", sheet1)].

Definition rows1 : list UI.row :=
  [ ("2+2?", ["4"; "5"; "6"; "7"], "4");
    ("3+3?", ["6"; "7"; "8"; "9"], "6") ].

(** A workbook for the script: eight quota sheets of one row each and a
    ninth sheet of two rows. *)
Definition srow (q a : string) : Script.row :=
  Script.mkRow q a "x" "y" "z" (Some "A") (Some a).

Definition quota_sheets : list (list Script.row) :=
  map (fun q => [srow q "a"]) ["q1"; "q2"; "q3"; "q4"; "q5"; "q6"; "q7"; "q8"].

Definition ninth_sheet : list Script.row := [srow "q9" "a"; srow "q10" "a"].

Definition script_sheets : list (list Script.row) := quota_sheets ++ [ninth_sheet].

(** A sheet as the script gets it from [pd.read_excel]: five columns, the
    row under the header (which the script drops) and two question rows. *)
Definition frame1 : ScriptInput.frame :=
  ScriptInput.mkFrame
    [ScriptInput.Text "Savol"; ScriptInput.Text "Javob"; ScriptInput.Text "B";
     ScriptInput.Text "C"; ScriptInput.Text "D"]
    [[ScriptInput.Text "Question"; ScriptInput.Text "A"; ScriptInput.Text "B";
      ScriptInput.Text "C"; ScriptInput.Text "D"];
     [ScriptInput.Text "2+2?"; ScriptInput.Other true "4"; ScriptInput.Other true "3";
      ScriptInput.Other true "5"; ScriptInput.NaN];
     [ScriptInput.Text "Which letter?"; ScriptInput.Text "b"; ScriptInput.Text "x";
      ScriptInput.Text "y"; ScriptInput.Text "z"]].

End Example.

(** * Properties *)

(** ** Strings *)

Module PyStrFacts.
Import PyStr.

Lemma truthy_true (s : string) : truthy s = true <-> s <> EmptyString.
Proof. destruct s; simpl; split; intros H; try congruence; try discriminate. Qed.

Lemma truthy_false (s : string) : truthy s = false <-> s = EmptyString.
Proof. destruct s; simpl; split; intros H; congruence. Qed.

Lemma rstrip_nonempty_arg (s : string) : rstrip s <> EmptyString -> s <> EmptyString.
Proof. destruct s; simpl; congruence. Qed.

Lemma lstrip_nonempty_arg (s : string) : lstrip s <> EmptyString -> s <> EmptyString.
Proof. destruct s; simpl; congruence. Qed.

(** A string that survives trimming was not empty. *)
Lemma strip_nonempty_arg (s : string) : strip s <> EmptyString -> s <> EmptyString.
Proof.
  unfold strip. intros H.
  apply lstrip_nonempty_arg. apply rstrip_nonempty_arg. exact H.
Qed.

Lemma strip_empty : strip EmptyString = EmptyString.
Proof. reflexivity. Qed.

Lemma append_cons (a : ascii) (s t : string) :
  String.append (String a s) t = String a (String.append s t).
Proof. reflexivity. Qed.

Lemma append_nil (t : string) : String.append EmptyString t = t.
Proof. reflexivity. Qed.

Lemma startswith_spec (p s : string) :
  startswith p s = true <-> exists post, s = String.append p post.
Proof.
  revert s. induction p as [|a p IH]; intros s; simpl.
  - split; [intros _; exists s; reflexivity | reflexivity].
  - destruct s as [|b s].
    + split; [discriminate | intros [post H]; discriminate].
    + destruct (Ascii.eqb_spec a b) as [->|Hne].
      * rewrite IH. split; intros [post H]; exists post;
          rewrite append_cons in *; congruence.
      * split; [discriminate |].
        intros [post H]. rewrite append_cons in H. congruence.
Qed.

(** [contains sub s] decides whether [sub] occurs in [s]. *)
Lemma contains_spec (sub s : string) :
  contains sub s = true <->
  exists pre post, s = String.append pre (String.append sub post).
Proof.
  induction s as [|c s IH]; simpl.
  - rewrite orb_false_r, startswith_spec. split.
    + intros [post H]. exists EmptyString, post. exact H.
    + intros [pre [post H]]. destruct pre.
      * rewrite append_nil in H. eauto.
      * rewrite append_cons in H. discriminate.
  - rewrite orb_true_iff, startswith_spec, IH. split.
    + intros [[post H] | [pre [post H]]].
      * exists EmptyString, post. exact H.
      * exists (String c pre), post. rewrite append_cons. congruence.
    + intros [pre [post H]]. destruct pre as [|c' pre].
      * rewrite append_nil in H. left. eauto.
      * rewrite append_cons in H. right. exists pre, post. congruence.
Qed.

Lemma append_empty_r (s : string) : String.append s EmptyString = s.
Proof.
  induction s as [|c s IH]; [reflexivity |].
  rewrite append_cons, IH. reflexivity.
Qed.

Lemma contains_refl (s : string) : contains s s = true.
Proof.
  apply contains_spec. exists EmptyString, EmptyString.
  rewrite append_nil, append_empty_r. reflexivity.
Qed.

End PyStrFacts.

(** ** A small program logic for the random stream *)

Module Logic.

Lemma spec_total {A} (m : M A) n P g :
  spec m n P -> exists a g', m g = inr (a, g') /\ P a.
Proof. intros [H _]. apply H. Qed.

Lemma spec_block {A} (m : M A) n P t :
  spec m n P -> length t = n ->
  exists a, P a /\ forall rest, m (t ++ rest) = inr (a, rest).
Proof.
  intros [Htot Hblk] Hlen.
  destruct (Hblk t Hlen) as [a Ha].
  destruct (Htot (t ++ [])) as (a' & g' & Hrun & HP).
  rewrite Ha in Hrun. injection Hrun as <- _.
  exists a. split; assumption.
Qed.

Lemma spec_weaken {A} (m : M A) n (P Q : A -> Prop) :
  spec m n P -> (forall a, P a -> Q a) -> spec m n Q.
Proof.
  intros [Htot Hblk] HPQ. split; [|exact Hblk].
  intros g. destruct (Htot g) as (a & g' & Hrun & HP). eauto.
Qed.

Lemma spec_ret {A} (a : A) : spec (ret a) 0 (fun x => x = a).
Proof.
  split.
  - intros g. exists a, g. split; reflexivity.
  - intros t Ht. apply nil_length_inv in Ht as ->. exists a. reflexivity.
Qed.

Lemma spec_bind {A B} (m : M A) (f : A -> M B) n k P Q :
  spec m n P -> (forall a, P a -> spec (f a) k Q) ->
  spec (bind m f) (n + k) Q.
Proof.
  intros Hm Hf. split.
  - intros g. destruct (spec_total m n P g Hm) as (a & g' & Hrun & HP).
    destruct (spec_total (f a) k Q g' (Hf a HP)) as (b & g'' & Hrun' & HQ).
    exists b, g''. unfold bind. rewrite Hrun. split; assumption.
  - intros t Ht.
    destruct (spec_block m n P (take n t) Hm) as (a & HP & Ha).
    { rewrite length_take. lia. }
    destruct (spec_block (f a) k Q (drop n t) (Hf a HP)) as (b & _ & Hb).
    { rewrite length_drop. lia. }
    exists b. intros rest. unfold bind.
    rewrite <- (take_drop n t) at 1. rewrite <- app_assoc, Ha. apply Hb.
Qed.

Lemma spec_bind_eq {A B} (m : M A) (f : A -> M B) n k N P Q :
  N = n + k ->
  spec m n P -> (forall a, P a -> spec (f a) k Q) ->
  spec (bind m f) N Q.
Proof. intros ->. apply spec_bind. Qed.

(** The same rule when the continuation needs no stream of its own. *)
Lemma spec_bind0 {A B} (m : M A) (f : A -> M B) n P Q :
  spec m n P -> (forall a, P a -> spec (f a) 0 Q) ->
  spec (bind m f) n Q.
Proof.
  intros Hm Hf. rewrite <- (Nat.add_0_r n). eapply spec_bind; eassumption.
Qed.

Lemma spec_mapM {A B} (f : A -> M B) (l : list A) k (Q : A -> B -> Prop) :
  (forall a, a ∈ l -> spec (f a) k (Q a)) ->
  spec (mapM f l) (length l * k) (fun bs => Forall2 Q l bs).
Proof.
  induction l as [|a l IH]; intros Hf; simpl.
  - eapply spec_weaken; [apply spec_ret|]. intros ? ->. constructor.
  - eapply spec_bind; [apply Hf; left|]. intros b Hb.
    eapply spec_bind0.
    + apply IH. intros a' Ha'. apply Hf. right. exact Ha'.
    + intros bs Hbs. eapply spec_weaken; [apply spec_ret|].
      intros ? ->. constructor; assumption.
Qed.

End Logic.

(** ** The [random] primitives *)

Module RandomFacts.
Import Random Logic.

Lemma spec_randbelow (n : nat) : n <> 0 -> spec (randbelow n) 1 (fun j => j < n).
Proof.
  intros Hn. split.
  - intros [|x g]; simpl.
    + exists 0, []. split; [reflexivity | lia].
    + exists (x mod n), g. split; [reflexivity|]. apply Nat.mod_upper_bound, Hn.
  - intros [|x [|y t]] Ht; simpl in Ht; try discriminate.
    exists (x mod n). reflexivity.
Qed.

Lemma spec_getitem {A} (l : list A) (i : nat) :
  i < length l -> spec (getitem l i) 0 (fun a => l !! i = Some a).
Proof.
  intros Hi. unfold getitem.
  destruct (lookup_lt_is_Some_2 l i Hi) as [a Ha]. rewrite Ha.
  eapply spec_weaken; [apply spec_ret|]. intros ? ->. reflexivity.
Qed.

Lemma spec_raise_never {A} (e : pyexc) n (P : A -> Prop) : ~ spec (raise e) n P.
Proof. intros [H _]. destruct (H []) as (a & g & Hrun & _). discriminate. Qed.

Lemma swap_perm {A} (x : list A) (i j : nat) : swap x i j ≡ₚ x.
Proof.
  unfold swap.
  destruct (x !! i) as [a|] eqn:Hi; [|reflexivity].
  destruct (x !! j) as [b|] eqn:Hj; [|reflexivity].
  apply Permutation_insert_swap; assumption.
Qed.

Lemma spec_shuffle_from {A} (i : nat) (x : list A) :
  spec (shuffle_from i x) i (fun y => y ≡ₚ x).
Proof.
  revert x. induction i as [|i IH]; intros x; simpl.
  - eapply spec_weaken; [apply spec_ret|]. intros ? ->. reflexivity.
  - eapply (spec_bind_eq _ _ 1 i); [reflexivity | apply spec_randbelow; lia |].
    intros j _. eapply spec_weaken; [apply IH|].
    intros y Hy. rewrite Hy. apply swap_perm.
Qed.

(** [random.shuffle] never raises, returns a permutation of its argument
    and draws [len - 1] times. *)
Lemma spec_shuffle {A} (x : list A) :
  spec (shuffle x) (length x - 1) (fun y => y ≡ₚ x).
Proof. apply spec_shuffle_from. Qed.

Lemma spec_sample_loop {A} (todo i n : nat) (pool : list A) :
  length pool = n -> todo + i <= n ->
  spec (sample_loop todo i n pool) todo
       (fun res => length res = todo /\ forall x, x ∈ res -> x ∈ pool).
Proof.
  revert i pool. induction todo as [|todo IH]; intros i pool Hlen Hle; simpl.
  - eapply spec_weaken; [apply spec_ret|]. intros ? ->.
    split; [reflexivity|]. intros x Hx. inversion Hx.
  - eapply (spec_bind_eq _ _ 1 todo);
      [reflexivity | apply (spec_randbelow (n - i)); lia |].
    intros j Hj. cbv beta in Hj |- *.
    eapply (spec_bind_eq _ _ 0 todo); [reflexivity | apply spec_getitem; lia |].
    intros a Ha. cbv beta.
    eapply (spec_bind_eq _ _ 0 todo); [reflexivity | apply spec_getitem; lia |].
    intros z Hz. cbv beta.
    eapply spec_bind0.
    + apply (IH (S i) (<[j:=z]> pool)); [rewrite length_insert|]; lia.
    + intros rest [Hl Hsub]. eapply spec_weaken; [apply spec_ret|].
      intros ? ->. split; [simpl; lia|].
      intros x Hx. apply elem_of_cons in Hx as [->|Hx].
      * eapply list_elem_of_lookup_2, Ha.
      * apply Hsub in Hx. apply list_elem_of_lookup in Hx as [p Hp].
        destruct (decide (j = p)) as [->|Hne].
        -- rewrite list_lookup_insert_eq in Hp by lia.
           injection Hp as <-. eapply list_elem_of_lookup_2, Hz.
        -- rewrite list_lookup_insert_ne in Hp by assumption.
           eapply list_elem_of_lookup_2, Hp.
Qed.

(** [random.sample] within its bounds: [k] rows of the population, [k]
    draws. *)
Lemma spec_sample {A} (population : list A) (k : Z) :
  (0 <= k <= Z.of_nat (length population))%Z ->
  spec (sample population k) (Z.to_nat k)
       (fun res => length res = Z.to_nat k /\ forall x, x ∈ res -> x ∈ population).
Proof.
  intros Hk. unfold sample.
  replace ((0 <=? k)%Z && (k <=? Z.of_nat (length population))%Z) with true
    by (symmetry; apply andb_true_iff; split; apply Z.leb_le; lia).
  apply spec_sample_loop; [reflexivity | lia].
Qed.

Lemma sample_out_of_bounds {A} (population : list A) (k : Z) g :
  (k < 0 \/ Z.of_nat (length population) < k)%Z ->
  sample population k g = inl ValueError.
Proof.
  intros Hk. unfold sample.
  replace ((0 <=? k)%Z && (k <=? Z.of_nat (length population))%Z) with false;
    [reflexivity|].
  symmetry. apply andb_false_iff.
  destruct Hk; [left; apply Z.leb_gt | right; apply Z.leb_gt]; lia.
Qed.

Lemma spec_choice {A} (seq : list A) :
  seq <> [] -> spec (choice seq) 1 (fun a => a ∈ seq).
Proof.
  intros Hne. unfold choice. destruct seq as [|a0 seq']; [congruence|].
  set (s := a0 :: seq').
  eapply spec_bind0; [apply (spec_randbelow (length s)); simpl; lia|].
  intros j Hj. eapply spec_weaken; [apply spec_getitem; exact Hj|].
  intros a Ha. eapply list_elem_of_lookup_2, Ha.
Qed.

Lemma spec_choice_n {A} (k : nat) (seq : list A) :
  seq <> [] ->
  spec (choice_n k seq) k
       (fun res => length res = k /\ forall x, x ∈ res -> x ∈ seq).
Proof.
  intros Hne. induction k as [|k IH]; simpl.
  - eapply spec_weaken; [apply spec_ret|]. intros ? ->.
    split; [reflexivity|]. intros x Hx. inversion Hx.
  - eapply (spec_bind_eq _ _ 1 k); [reflexivity | apply spec_choice, Hne |].
    intros a Ha. eapply spec_bind0; [apply IH|].
    intros rest [Hl Hsub]. eapply spec_weaken; [apply spec_ret|].
    intros ? ->. split; [simpl; lia|].
    intros x Hx. apply elem_of_cons in Hx as [->|Hx]; auto.
Qed.

Lemma spec_choices {A} (population : list A) (k : nat) :
  population <> [] ->
  spec (choices population k) k (fun res => length res = k).
Proof.
  intros Hne. induction k as [|k IH]; simpl.
  - eapply spec_weaken; [apply spec_ret|]. intros ? ->. reflexivity.
  - eapply (spec_bind_eq _ _ 1 k); [reflexivity | |].
    { apply (spec_randbelow (length population)).
      destruct population; [congruence | simpl; lia]. }
    intros j Hj. cbv beta.
    eapply (spec_bind_eq _ _ 0 k); [reflexivity | apply spec_getitem, Hj |].
    intros a _. eapply spec_bind0; [apply IH|].
    intros rest Hl. eapply spec_weaken; [apply spec_ret|].
    intros ? ->. cbv beta in Hl. simpl. lia.
Qed.

End RandomFacts.

(** ** Rows as the two Tkinter programs read them *)

Module UIFacts.
Import UI Random Logic RandomFacts Shape.

Lemma read_row_well_formed (r : series) (x : row) :
  read_row r = inr x -> well_formed x.
Proof.
  unfold read_row. destruct (r !! 0) as [c0|]; [|discriminate].
  intros H. injection H as <-. simpl. split; reflexivity.
Qed.

Lemma read_row_total (r : series) : r <> [] -> exists x, read_row r = inr x.
Proof.
  destruct r as [|c0 r]; [congruence|]. intros _. unfold read_row. simpl. eauto.
Qed.

Lemma read_rows_well_formed (df : dataframe) (rows : list row) :
  read_rows df = inr rows -> Forall well_formed rows.
Proof.
  revert rows. induction df as [|r df IH]; intros rows; simpl.
  - intros H. injection H as <-. constructor.
  - destruct (read_row r) as [e|x] eqn:Hr; [discriminate|].
    destruct (read_rows df) as [e|xs]; [discriminate|].
    intros H. injection H as <-. constructor.
    + eapply read_row_well_formed, Hr.
    + apply IH. reflexivity.
Qed.

Lemma load_sheets_well_formed (sheets : list (string * dataframe))
    (loaded : list (list row)) :
  load_sheets sheets = inr loaded ->
  length loaded = length sheets /\ Forall (Forall well_formed) loaded.
Proof.
  revert loaded. induction sheets as [|[sname df] sheets IH]; intros loaded; simpl.
  - intros H. injection H as <-. split; [reflexivity | constructor].
  - destruct (read_rows (tail df)) as [e|rows] eqn:Hr; [discriminate|].
    destruct (load_sheets sheets) as [e|more]; [discriminate|].
    intros H. injection H as <-.
    destruct (IH more eq_refl) as [Hl Hwf]. split; [simpl; lia|].
    constructor; [eapply read_rows_well_formed, Hr | exact Hwf].
Qed.

Lemma index_of_inr (x : string) (l : list string) (i : nat) :
  index_of x l = inr i -> l !! i = Some x.
Proof.
  revert i. induction l as [|y l IH]; intros i; simpl; [discriminate|].
  destruct (String.eqb_spec y x) as [->|Hne].
  - intros H. injection H as <-. reflexivity.
  - destruct (index_of x l) as [e|n]; [discriminate|].
    intros H. injection H as <-. simpl. apply IH. reflexivity.
Qed.

Lemma index_of_inl (x : string) (l : list string) (e : pyexc) :
  index_of x l = inl e -> e = ValueError /\ x ∉ l.
Proof.
  induction l as [|y l IH]; simpl.
  - intros H. injection H as <-. split; [reflexivity|]. apply not_elem_of_nil.
  - destruct (String.eqb_spec y x) as [->|Hne]; [discriminate|].
    destruct (index_of x l) as [e'|n]; [|discriminate].
    intros H. injection H as <-. destruct (IH eq_refl) as [-> Hnot].
    split; [reflexivity|]. intros Hin. apply elem_of_cons in Hin as [->|Hin]; auto.
Qed.

Lemma index_of_elem (x : string) (l : list string) :
  x ∈ l -> exists i, index_of x l = inr i.
Proof.
  intros Hin. destruct (index_of x l) as [e|i] eqn:H; [|eauto].
  apply index_of_inl in H as [_ Hnot]. contradiction.
Qed.

Lemma pad4_length (l : list string) : length l <= 4 -> length (pad4 l) = 4.
Proof. intros H. unfold pad4. rewrite length_app, length_replicate. lia. Qed.

Lemma pad4_elem (l : list string) (x : string) :
  x ∈ pad4 l <-> x ∈ l \/ (x = EmptyString /\ length l < 4).
Proof.
  unfold pad4. rewrite elem_of_app, elem_of_replicate. split.
  - intros [H|[-> H]]; [left; exact H | right; split; [reflexivity | lia]].
  - intros [H|[-> H]]; [left; exact H | right; split; [reflexivity | lia]].
Qed.

Lemma labels_lookup (i : nat) : i < 4 -> exists label, LABELS !! i = Some label.
Proof. intros H. apply lookup_lt_is_Some_2. simpl. exact H. Qed.

(** A label addresses the slot of its position. *)
Lemma q_get_label (q : question_out) (i : nat) (label : string) :
  LABELS !! i = Some label ->
  q_get q label = layout q !! i.
Proof.
  destruct i as [|[|[|[|i]]]]; simpl; intros H; try discriminate;
    injection H as <-; reflexivity.
Qed.

Lemma spec_make_question (qtext : string) (oc : list string) :
  length oc = 4 ->
  spec (make_question qtext oc) 0
       (fun q => q_question q = qtext /\ layout q = oc).
Proof.
  intros Hlen.
  destruct oc as [|a [|b [|c [|d [|? ?]]]]]; simpl in Hlen; try lia.
  unfold make_question, getitem. simpl.
  split.
  - intros g. eexists _, g. split; [reflexivity|]. simpl. split; reflexivity.
  - intros t Ht. apply nil_length_inv in Ht as ->. eexists. reflexivity.
Qed.

Lemma filter_length_le {A} (f : A -> bool) (l : list A) :
  length (List.filter f l) <= length l.
Proof. induction l as [|a l IH]; simpl; [lia|]. destruct (f a); simpl; lia. Qed.

End UIFacts.

(** ** Option shuffling in the two Tkinter programs *)

Module ShuffleFacts.
Import UI Random Logic RandomFacts Shape UIFacts.

Lemma find_partial_lt (corr : string) (oc : list string) (i : nat) :
  W.find_partial corr oc = Some i -> i < length oc.
Proof.
  revert i. induction oc as [|ot oc IH]; intros i; simpl; [discriminate|].
  destruct (W.partial_match corr ot).
  - intros H. injection H as <-. lia.
  - destruct (W.find_partial corr oc) as [n|]; simpl; [|discriminate].
    intros H. injection H as <-. specialize (IH n eq_refl). lia.
Qed.

(** What [TestVariant-W.py] records as the label, given the shuffled
    options: the position of the first slot equal to [corr]; failing that,
    the first slot passing the containment test; failing that, ['']. *)
Lemma W_spec_correct_label (corr : string) (oc : list string) :
  length oc = 4 ->
  spec (W.correct_label corr oc) 0
       (fun label =>
          match index_of corr oc with
          | inr i => LABELS !! i = Some label
          | inl _ =>
              match W.find_partial corr oc with
              | Some i => LABELS !! i = Some label
              | None => label = EmptyString
              end
          end).
Proof.
  intros Hlen. unfold W.correct_label.
  destruct (index_of corr oc) as [e|i] eqn:Hidx.
  - apply index_of_inl in Hidx as [-> _].
    destruct (W.find_partial corr oc) as [i|] eqn:Hf.
    + apply find_partial_lt in Hf. eapply spec_weaken.
      * apply spec_getitem. simpl. lia.
      * intros a Ha. exact Ha.
    + eapply spec_weaken; [apply spec_ret|]. intros ? ->. reflexivity.
  - apply index_of_inr, lookup_lt_Some in Hidx. eapply spec_weaken.
    + apply spec_getitem. simpl. lia.
    + intros a Ha. exact Ha.
Qed.

Lemma V_spec_correct_label (corr : string) (oc : list string) :
  length oc = 4 ->
  spec (V.correct_label corr oc) 0
       (fun label =>
          match index_of corr oc with
          | inr i => LABELS !! i = Some label
          | inl _ => label = EmptyString
          end).
Proof.
  intros Hlen. unfold V.correct_label.
  destruct (index_of corr oc) as [e|i] eqn:Hidx.
  - apply index_of_inl in Hidx as [-> _].
    eapply spec_weaken; [apply spec_ret|]. intros ? ->. reflexivity.
  - apply index_of_inr, lookup_lt_Some in Hidx. eapply spec_weaken.
    + apply spec_getitem. simpl. lia.
    + intros a Ha. exact Ha.
Qed.

(** One pass of the option loop of [TestVariant-W.py]: three draws, the
    four slots a permutation of the padded non-blank options. *)
Lemma W_spec_shuffle_options (qtext : string) (opts : list string) (corr : string) :
  length opts <= 4 ->
  spec (W.shuffle_options (qtext, opts, corr)) 3
       (fun out =>
          q_question out.1 = qtext /\
          layout out.1 ≡ₚ
            pad4 (List.filter
                    (fun o => PyStr.truthy o && PyStr.truthy (PyStr.strip o)) opts) /\
          match index_of corr (layout out.1) with
          | inr i => LABELS !! i = Some out.2
          | inl _ =>
              match W.find_partial corr (layout out.1) with
              | Some i => LABELS !! i = Some out.2
              | None => out.2 = EmptyString
              end
          end).
Proof.
  intros Hlen. unfold W.shuffle_options.
  set (oc0 := pad4 _).
  assert (Hoc0 : length oc0 = 4).
  { apply pad4_length. etransitivity; [apply filter_length_le | exact Hlen]. }
  eapply (spec_bind_eq _ _ 3 0); [reflexivity | |].
  { replace 3 with (length oc0 - 1) by lia. apply spec_shuffle. }
  intros oc Hperm. cbv beta in Hperm.
  assert (Hoc : length oc = 4) by (rewrite Hperm; exact Hoc0).
  eapply spec_bind0; [apply W_spec_correct_label, Hoc|].
  intros label Hlabel. cbv beta in Hlabel.
  eapply spec_bind0; [apply spec_make_question, Hoc|].
  intros q [Hq Hlay]. eapply spec_weaken; [apply spec_ret|].
  intros ? ->. cbn [fst snd]. rewrite Hlay. auto.
Qed.

Lemma V_spec_shuffle_options (qtext : string) (opts : list string) (corr : string) :
  length opts <= 4 ->
  spec (V.shuffle_options (qtext, opts, corr)) 3
       (fun out =>
          q_question out.1 = qtext /\
          layout out.1 ≡ₚ pad4 (List.filter PyStr.truthy opts) /\
          match index_of corr (layout out.1) with
          | inr i => LABELS !! i = Some out.2
          | inl _ => out.2 = EmptyString
          end).
Proof.
  intros Hlen. unfold V.shuffle_options.
  set (oc0 := pad4 _).
  assert (Hoc0 : length oc0 = 4).
  { apply pad4_length. etransitivity; [apply filter_length_le | exact Hlen]. }
  eapply (spec_bind_eq _ _ 3 0); [reflexivity | |].
  { replace 3 with (length oc0 - 1) by lia. apply spec_shuffle. }
  intros oc Hperm. cbv beta in Hperm.
  assert (Hoc : length oc = 4) by (rewrite Hperm; exact Hoc0).
  eapply spec_bind0; [apply V_spec_correct_label, Hoc|].
  intros label Hlabel. cbv beta in Hlabel.
  eapply spec_bind0; [apply spec_make_question, Hoc|].
  intros q [Hq Hlay]. eapply spec_weaken; [apply spec_ret|].
  intros ? ->. cbn [fst snd]. rewrite Hlay. auto.
Qed.

(** When the text looked up occurs among the shuffled options, the label
    is a letter and the slot it names holds exactly that text. *)
Lemma label_of_present (q : question_out) (corr label : string) :
  corr ∈ layout q ->
  match index_of corr (layout q) with
  | inr i => LABELS !! i = Some label
  | inl _ => False
  end ->
  label ∈ LABELS /\ q_get q label = Some corr.
Proof.
  intros Hin. destruct (index_of corr (layout q)) as [e|i] eqn:Hidx; [tauto|].
  intros Hl. split.
  - eapply list_elem_of_lookup_2, Hl.
  - rewrite (q_get_label q i label Hl). apply index_of_inr, Hidx.
Qed.

Lemma filter_drops_empty (f : string -> bool) (opts : list string) :
  f EmptyString = false -> length opts = 4 -> opts !! 0 = Some EmptyString ->
  length (List.filter f opts) < 4.
Proof.
  intros Hf Hlen H0. destruct opts as [|o opts]; simpl in *; [lia|].
  injection H0 as ->. rewrite Hf.
  pose proof (filter_length_le f opts). lia.
Qed.

Lemma label_of_shuffled (q : question_out) (corr label : string) :
  corr ∈ layout q ->
  match index_of corr (layout q) with
  | inr i => LABELS !! i = Some label
  | inl _ =>
      match W.find_partial corr (layout q) with
      | Some i => LABELS !! i = Some label
      | None => label = EmptyString
      end
  end ->
  label ∈ LABELS /\ q_get q label = Some corr.
Proof.
  intros Hin Hlabel. apply label_of_present; [exact Hin|].
  destruct (index_of corr (layout q)) as [e|i] eqn:Hidx; [|exact Hlabel].
  apply index_of_inl in Hidx as [_ Hnot]. contradiction.
Qed.

(** In [TestVariant-W.py] the label of a record whose correct text is one
    of its non-blank options names the slot holding exactly that text. *)
Lemma W_label_points_at_correct (qtext : string) (opts : list string)
    (corr : string) (g : rng) :
  length opts <= 4 -> corr ∈ opts -> PyStr.strip corr <> EmptyString ->
  exists q label g',
    W.shuffle_options (qtext, opts, corr) g = inr ((q, label), g') /\
    label ∈ LABELS /\ q_get q label = Some corr.
Proof.
  intros Hlen Hin Hblank.
  destruct (spec_total _ _ _ g (W_spec_shuffle_options qtext opts corr Hlen))
    as ([q label] & g' & Hrun & _ & Hperm & Hlabel).
  cbn [fst snd] in Hperm, Hlabel.
  exists q, label, g'. split; [exact Hrun|].
  apply label_of_shuffled; [|exact Hlabel].
  rewrite Hperm. apply pad4_elem. left.
  apply list_elem_of_In, filter_In. split; [apply list_elem_of_In, Hin|].
  apply andb_true_iff. split; apply PyStrFacts.truthy_true; [|exact Hblank].
  apply PyStrFacts.strip_nonempty_arg, Hblank.
Qed.

(** The same in [TestApp-With-Validation.py], for a non-empty text. *)
Lemma V_label_points_at_correct (qtext : string) (opts : list string)
    (corr : string) (g : rng) :
  length opts <= 4 -> corr ∈ opts -> corr <> EmptyString ->
  exists q label g',
    V.shuffle_options (qtext, opts, corr) g = inr ((q, label), g') /\
    label ∈ LABELS /\ q_get q label = Some corr.
Proof.
  intros Hlen Hin Hne.
  destruct (spec_total _ _ _ g (V_spec_shuffle_options qtext opts corr Hlen))
    as ([q label] & g' & Hrun & _ & Hperm & Hlabel).
  cbn [fst snd] in Hperm, Hlabel.
  exists q, label, g'. split; [exact Hrun|].
  apply label_of_present.
  - rewrite Hperm. apply pad4_elem. left.
    apply list_elem_of_In, filter_In. split; [apply list_elem_of_In, Hin|].
    apply PyStrFacts.truthy_true, Hne.
  - destruct (index_of corr (layout q)) as [e|i] eqn:Hidx; [|exact Hlabel].
    apply index_of_inl in Hidx as [_ Hnot]. apply Hnot.
    rewrite Hperm. apply pad4_elem. left.
    apply list_elem_of_In, filter_In. split; [apply list_elem_of_In, Hin|].
    apply PyStrFacts.truthy_true, Hne.
Qed.

End ShuffleFacts.

(** ** Validation *)

Module ValidationFacts.
Import UI Shape PyStrFacts.

Lemma check_row_nil (sname : string) (i : nat) (r : row) :
  V.check_row sname i r = [] <-> row_ok r.
Proof.
  destruct r as [[q opts] corr]. unfold V.check_row, row_ok.
  destruct (PyStr.truthy (PyStr.strip q)) eqn:Hq;
    destruct (PyStr.truthy (PyStr.strip corr)) eqn:Hc;
    destruct (Nat.ltb_spec
                (length (List.filter (fun o => PyStr.truthy (PyStr.strip o)) opts)) 4)
      as [Hlt|Hge];
    simpl; split; try discriminate;
    try apply truthy_true in Hq; try apply truthy_true in Hc;
    try apply truthy_false in Hq; try apply truthy_false in Hc;
    try (intros (? & ? & ?); first [congruence | lia]).
  intros _. auto.
Qed.

Lemma check_rows_nil (sname : string) (i : nat) (rows : list row) :
  V.check_rows sname i rows = [] <-> Forall row_ok rows.
Proof.
  revert i. induction rows as [|r rows IH]; intros i; simpl.
  - split; [constructor | reflexivity].
  - split.
    + intros H. apply app_eq_nil in H as [Hr Hrs]. constructor.
      * eapply check_row_nil, Hr.
      * eapply IH, Hrs.
    + intros H. inversion H as [|? ? Hr Hrs]; subst.
      apply (check_row_nil sname i) in Hr. apply (IH (S i)) in Hrs.
      rewrite Hr, Hrs. reflexivity.
Qed.

(** With a name for every sheet the validator returns a list of errors,
    empty exactly when every sheet is long enough and every row is
    complete. *)
Lemma validate_from_spec (idx : nat) (sheets : list (list row))
    (names : list string) (from_first : Z) :
  idx + length sheets <= length names ->
  exists errors,
    V.validate_from idx sheets names from_first = inr errors /\
    (errors = [] <-> Forall (sheet_ok from_first) sheets).
Proof.
  revert idx. induction sheets as [|rows sheets IH]; intros idx Hlen; simpl.
  - exists []. split; [reflexivity|]. split; [constructor | reflexivity].
  - simpl in Hlen.
    destruct (lookup_lt_is_Some_2 names idx ltac:(lia)) as [sname Hs].
    rewrite Hs.
    destruct (IH (S idx) ltac:(lia)) as (errors & -> & Hiff).
    eexists. split; [reflexivity|].
    destruct (Z.ltb_spec (Z.of_nat (length rows)) from_first) as [Hlt|Hge].
    + split; [discriminate|].
      intros H. inversion H as [|? ? [Hle _] _]; subst. lia.
    + rewrite app_nil_l. split.
      * intros H. apply app_eq_nil in H as [Hr He]. constructor.
        -- split; [exact Hge | eapply check_rows_nil, Hr].
        -- apply Hiff, He.
      * intros H. inversion H as [|? ? [_ Hr] Hrs]; subst.
        apply (check_rows_nil sname 2) in Hr. apply Hiff in Hrs.
        rewrite Hr, Hrs. reflexivity.
Qed.

Lemma validate_from_accepts (idx : nat) (sheets : list (list row))
    (names : list string) (from_first : Z) :
  V.validate_from idx sheets names from_first = inr [] ->
  Forall (sheet_ok from_first) sheets.
Proof.
  revert idx. induction sheets as [|rows sheets IH]; intros idx; simpl.
  - constructor.
  - destruct (names !! idx) as [sname|]; [|discriminate].
    destruct (V.validate_from (S idx) sheets names from_first)
      as [e|errors] eqn:Hrest; [discriminate|].
    intros H. injection H as H.
    apply app_eq_nil in H as [Hhere ->].
    apply app_eq_nil in Hhere as [Hcount Hr].
    constructor; [|eapply IH, Hrest]. split.
    + destruct (Z.ltb_spec (Z.of_nat (length rows)) from_first); [discriminate | lia].
    + eapply check_rows_nil, Hr.
Qed.

(** The second message is appended exactly for a blank [corr]. *)
Lemma no_correct_reported (sname : string) (i : nat) (q : string)
    (opts : list string) (corr : string) :
  V.NoCorrectAnswer sname i ∈ V.check_row sname i (q, opts, corr) <->
  PyStr.strip corr = EmptyString.
Proof.
  unfold V.check_row. rewrite !elem_of_app. split.
  - intros [H|[H|H]].
    + destruct (negb _); [|inversion H].
      apply list_elem_of_singleton in H. discriminate.
    + destruct (PyStr.truthy (PyStr.strip corr)) eqn:E; simpl in H.
      * inversion H.
      * apply truthy_false, E.
    + destruct (_ <? _); [|inversion H].
      apply list_elem_of_singleton in H. discriminate.
  - intros E. right. left. rewrite E. simpl.
    apply list_elem_of_singleton. reflexivity.
Qed.

Lemma EXTRA_nonneg (Q S F : Z) : (0 <= EXTRA Q S F)%Z.
Proof. unfold EXTRA. lia. Qed.

End ValidationFacts.

(** ** The generation loop *)

Module LoopFacts.
Import Random Logic RandomFacts Shape.

Lemma slice_to_nonneg {A} (l : list A) (k : Z) :
  (0 <= k)%Z -> slice_to l k = take (Z.to_nat k) l.
Proof.
  intros Hk. unfold slice_to.
  destruct (Z.leb_spec 0 k); [reflexivity | lia].
Qed.

Lemma join_chars_length (cs : list ascii) :
  String.length (join_chars cs) = length cs.
Proof. induction cs as [|c cs IH]; simpl; [reflexivity | rewrite IH; reflexivity]. Qed.

Lemma digits_nonempty : digits <> [].
Proof. discriminate. Qed.

Section Skeleton.
Context {R : Type}.
Variable quota : M (list R).
Variable extra : list R -> M (list R).
Variable opt : R -> M (question_out * string).
Variable QCOUNT : Z.
Variable good : R -> Prop.
Variables n1 n2 : nat.

Hypothesis Hquota :
  spec quota n1 (fun sel => length sel = n1 /\ Forall good sel).
Hypothesis Hextra : forall sel,
  length sel = n1 -> Forall good sel ->
  spec (extra sel) n2 (fun sel' => length sel' = n1 + n2 /\ Forall good sel').
Hypothesis Hopt : forall r, good r -> spec (opt r) 3 (fun _ => True).
Hypothesis HQ : (0 <= QCOUNT)%Z.

Lemma spec_options (sel : list R) :
  length sel = n1 + n2 -> Forall good sel ->
  spec (mapM opt (slice_to sel QCOUNT))
       ((Z.to_nat QCOUNT `min` (n1 + n2)) * 3)
       (fun qk => length qk = Z.to_nat QCOUNT `min` (n1 + n2)).
Proof.
  intros Hlen Hgood. rewrite slice_to_nonneg by exact HQ.
  assert (Hk : length (take (Z.to_nat QCOUNT) sel)
               = Z.to_nat QCOUNT `min` (n1 + n2)).
  { rewrite length_take, Hlen. reflexivity. }
  rewrite <- Hk at 1.
  eapply spec_weaken.
  - apply (spec_mapM opt _ 3 (fun _ _ => True)).
    intros r Hr. apply Hopt.
    apply (subseteq_take (Z.to_nat QCOUNT) sel) in Hr.
    rewrite Forall_forall in Hgood. apply Hgood, Hr.
  - intros qk Hqk. apply Forall2_length in Hqk. lia.
Qed.

(** One pass of the loop: it always completes, keeps
    [min(QCOUNT, rows selected)] questions and reads a block of the
    stream whose size the bank and the settings fix. *)
Lemma spec_loop_body :
  spec (loop_body quota extra opt QCOUNT)
       (n1 + (n2 + ((n1 + n2 - 1)
                    + ((Z.to_nat QCOUNT `min` (n1 + n2)) * 3 + 7))))
       (fun x => length (final_q x) = Z.to_nat QCOUNT `min` (n1 + n2) /\
                 length (key x) = Z.to_nat QCOUNT `min` (n1 + n2) /\
                 String.length (booklet_id x) = 7).
Proof.
  unfold loop_body.
  eapply spec_bind; [exact Hquota|]. intros sel1 [Hl1 Hg1].
  eapply spec_bind; [apply Hextra; assumption|]. intros sel2 [Hl2 Hg2].
  eapply spec_bind.
  { rewrite <- Hl2. apply spec_shuffle. }
  intros sel3 Hperm. cbv beta in Hperm.
  eapply spec_bind.
  { apply spec_options; rewrite Hperm; assumption. }
  intros qk Hqk. cbv beta in Hqk.
  eapply spec_bind0; [apply spec_choices, digits_nonempty|].
  intros b Hb. cbv beta in Hb.
  eapply spec_weaken; [apply spec_ret|]. intros ? ->.
  unfold assemble. simpl. rewrite !length_map, join_chars_length. auto.
Qed.

(** The order in which one pass reads the stream: the quota draws, then
    the overflow draws, then the shuffle of the question order, then the
    option shuffles, then the booklet id, each from its own segment. *)
Lemma loop_body_segments (t1 t2 t3 t4 t5 rest : rng) :
  length t1 = n1 -> length t2 = n2 -> length t3 = n1 + n2 - 1 ->
  length t4 = (Z.to_nat QCOUNT `min` (n1 + n2)) * 3 -> length t5 = 7 ->
  exists sel1 sel2 sel3 qk b,
    (forall r, quota (t1 ++ r) = inr (sel1, r)) /\
    (forall r, extra sel1 (t2 ++ r) = inr (sel2, r)) /\
    (forall r, shuffle sel2 (t3 ++ r) = inr (sel3, r)) /\
    (forall r, mapM opt (slice_to sel3 QCOUNT) (t4 ++ r) = inr (qk, r)) /\
    (forall r, choices digits 7 (t5 ++ r) = inr (b, r)) /\
    loop_body quota extra opt QCOUNT (t1 ++ t2 ++ t3 ++ t4 ++ t5 ++ rest)
      = inr (assemble qk b, rest).
Proof.
  intros H1 H2 H3 H4 H5.
  destruct (spec_block _ _ _ t1 Hquota H1) as (sel1 & [Hl1 Hg1] & E1).
  destruct (spec_block _ _ _ t2 (Hextra sel1 Hl1 Hg1) H2) as (sel2 & [Hl2 Hg2] & E2).
  destruct (spec_block _ _ _ t3 (spec_shuffle sel2) ltac:(lia)) as (sel3 & Hperm & E3).
  assert (Hl3 : length sel3 = n1 + n2) by (rewrite Hperm; exact Hl2).
  assert (Hg3 : Forall good sel3) by (rewrite Hperm; exact Hg2).
  destruct (spec_block _ _ _ t4 (spec_options sel3 Hl3 Hg3) H4) as (qk & _ & E4).
  destruct (spec_block _ _ _ t5 (spec_choices digits 7 digits_nonempty) H5)
    as (b & _ & E5).
  exists sel1, sel2, sel3, qk, b.
  repeat split; try assumption.
  unfold loop_body, bind. rewrite E1, E2, E3, E4, E5. reflexivity.
Qed.

End Skeleton.

(** The driver: when every pass completes, so does the run, with one
    numbered pair of files per variant. *)
Lemma gen_loop_total (body : M variant) (n : nat) (P : variant -> Prop)
    (todo v : nat) (g : rng) :
  spec body n P ->
  exists fs, gen_loop body todo v g = (fs, None) /\
             map fst fs = seq v todo /\ Forall (fun f => P f.2) fs.
Proof.
  intros Hbody. revert v g. induction todo as [|todo IH]; intros v g; simpl.
  - exists []. repeat split; constructor.
  - destruct (spec_total body n P g Hbody) as (x & g' & -> & HP).
    destruct (IH (S v) g') as (fs & -> & Hnum & Hall).
    exists ((v, x) :: fs). repeat split.
    + simpl. rewrite Hnum. reflexivity.
    + constructor; assumption.
Qed.


End LoopFacts.

(** ** The draws of the two Tkinter programs *)

Module DrawFacts.
Import UI Random Logic RandomFacts Shape UIFacts ShuffleFacts LoopFacts.

Lemma V_quota_cons (F : Z) (rows : list row) (sheets : list (list row)) :
  V_quota F (rows :: sheets)
  = Z.to_nat (Z.min F (Z.of_nat (length rows))) + V_quota F sheets.
Proof. reflexivity. Qed.

Lemma W_quota_cons (F : Z) (rows : list row) (sheets : list (list row)) :
  W_quota F (rows :: sheets)
  = (if is_empty rows then 0 else Z.to_nat F) + W_quota F sheets.
Proof. reflexivity. Qed.

(** Under validation every sheet yields its full quota. *)
Lemma V_quota_validated (F : Z) (sheets : list (list row)) :
  (0 <= F)%Z -> Forall (sheet_ok F) sheets ->
  V_quota F sheets = length sheets * Z.to_nat F.
Proof.
  intros HF. induction 1 as [|rows sheets [Hle _] _ IH].
  - reflexivity.
  - rewrite V_quota_cons, IH. simpl. rewrite Z.min_l by exact Hle. lia.
Qed.

Lemma is_empty_false {A} (l : list A) : is_empty l = false -> l <> [].
Proof. destruct l; [discriminate | discriminate]. Qed.

Lemma is_empty_true {A} (l : list A) : is_empty l = true -> l = [].
Proof. destruct l; [reflexivity | discriminate]. Qed.

Lemma V_spec_quota_loop (sheets : list (list row)) (F : Z) (selected : list row) :
  (0 <= F)%Z ->
  spec (V.quota_loop sheets F selected) (V_quota F sheets)
       (fun sel => exists picks,
            sel = selected ++ picks /\ length picks = V_quota F sheets /\
            forall x, x ∈ picks -> x ∈ concat sheets).
Proof.
  intros HF. revert selected.
  induction sheets as [|rows sheets IH]; intros selected; simpl.
  - eapply spec_weaken; [apply spec_ret|]. intros ? ->.
    exists []. rewrite app_nil_r. repeat split. intros x Hx. inversion Hx.
  - rewrite V_quota_cons. destruct (is_empty rows) eqn:He.
    + apply is_empty_true in He as ->. simpl.
      rewrite Z.min_r by exact HF. simpl. apply IH.
    + eapply spec_bind.
      { apply spec_sample. lia. }
      intros pick [Hl Hsub]. eapply spec_weaken; [apply IH|].
      intros sel (picks & -> & Hlp & Hin).
      exists (pick ++ picks). rewrite app_assoc, length_app. repeat split.
      * lia.
      * intros x Hx. apply elem_of_app.
        apply elem_of_app in Hx as [Hx|Hx]; auto.
Qed.

Lemma V_spec_extra_step (pool : list row) (E : Z) (selected : list row) :
  (0 <= E)%Z ->
  spec (V.extra_step pool E selected) (V_extra E pool)
       (fun sel => exists picks,
            sel = selected ++ picks /\ length picks = V_extra E pool /\
            forall x, x ∈ picks -> x ∈ pool).
Proof.
  intros HE. unfold V.extra_step, V_extra.
  destruct (Z.ltb_spec 0 E) as [Hpos|Hzero]; simpl.
  - destruct (is_empty pool) eqn:He; simpl.
    + apply is_empty_true in He as ->. simpl. rewrite Z.min_r by exact HE.
      eapply spec_weaken; [apply spec_ret|]. intros ? ->.
      exists []. rewrite app_nil_r. repeat split. intros x Hx. inversion Hx.
    + eapply spec_bind0.
      { apply spec_sample. lia. }
      intros pick [Hl Hsub]. eapply spec_weaken; [apply spec_ret|].
      intros ? ->. exists pick. auto.
  - replace (Z.min E (Z.of_nat (length pool))) with 0%Z by lia.
    eapply spec_weaken; [apply spec_ret|]. intros ? ->.
    exists []. rewrite app_nil_r. repeat split. intros x Hx. inversion Hx.
Qed.

Lemma W_spec_pick_rows (rows : list row) (F : Z) :
  rows <> [] -> (0 <= F)%Z ->
  spec (W.pick_rows rows F) (Z.to_nat F)
       (fun res => length res = Z.to_nat F /\ forall x, x ∈ res -> x ∈ rows).
Proof.
  intros Hne HF. unfold W.pick_rows.
  destruct (Z.leb_spec F (Z.of_nat (length rows))).
  - apply spec_sample. lia.
  - apply spec_choice_n, Hne.
Qed.

Lemma W_spec_quota_loop (sheets : list (list row)) (F : Z) (selected : list row) :
  (0 <= F)%Z ->
  spec (W.quota_loop sheets F selected) (W_quota F sheets)
       (fun sel => exists picks,
            sel = selected ++ picks /\ length picks = W_quota F sheets /\
            forall x, x ∈ picks -> x ∈ concat sheets).
Proof.
  intros HF. revert selected.
  induction sheets as [|rows sheets IH]; intros selected; simpl.
  - eapply spec_weaken; [apply spec_ret|]. intros ? ->.
    exists []. rewrite app_nil_r. repeat split. intros x Hx. inversion Hx.
  - rewrite W_quota_cons. destruct (is_empty rows) eqn:He.
    + apply is_empty_true in He as ->. simpl. apply IH.
    + eapply spec_bind.
      { apply W_spec_pick_rows; [apply is_empty_false, He | exact HF]. }
      intros pick [Hl Hsub]. eapply spec_weaken; [apply IH|].
      intros sel (picks & -> & Hlp & Hin).
      exists (pick ++ picks). rewrite app_assoc, length_app. repeat split.
      * lia.
      * intros x Hx. apply elem_of_app.
        apply elem_of_app in Hx as [Hx|Hx]; auto.
Qed.


Lemma W_spec_extra_step (pool : list row) (E : Z) (selected : list row) :
  (0 <= E)%Z ->
  spec (W.extra_step pool E selected) (W_extra E pool)
       (fun sel => exists picks,
            sel = selected ++ picks /\ length picks = W_extra E pool /\
            forall x, x ∈ picks -> x ∈ pool).
Proof.
  intros HE. unfold W.extra_step, W_extra.
  destruct (Z.ltb_spec 0 E) as [Hpos|Hzero]; simpl.
  - destruct (is_empty pool) eqn:He; simpl.
    + eapply spec_weaken; [apply spec_ret|]. intros ? ->.
      exists []. rewrite app_nil_r. repeat split. intros x Hx. inversion Hx.
    + eapply spec_bind0.
      { apply W_spec_pick_rows; [apply is_empty_false, He | exact HE]. }
      intros pick [Hl Hsub]. eapply spec_weaken; [apply spec_ret|].
      intros ? ->. exists pick. auto.
  - replace E with 0%Z by lia.
    replace (if is_empty pool then 0 else Z.to_nat 0) with 0
      by (destruct (is_empty pool); reflexivity).
    eapply spec_weaken; [apply spec_ret|]. intros ? ->.
    exists []. rewrite app_nil_r. repeat split. intros x Hx. inversion Hx.
Qed.

Lemma well_formed_opts (r : row) :
  well_formed r -> length r.1.2 <= 4.
Proof. destruct r as [[q opts] corr]. simpl. intros [H _]. lia. Qed.

Lemma V_spec_option_pass (r : row) :
  well_formed r -> spec (V.shuffle_options r) 3 (fun _ => True).
Proof.
  intros Hwf. pose proof (well_formed_opts r Hwf) as Hlen.
  destruct r as [[q opts] corr].
  eapply spec_weaken; [apply V_spec_shuffle_options, Hlen|]. auto.
Qed.

Lemma W_spec_option_pass (r : row) :
  well_formed r -> spec (W.shuffle_options r) 3 (fun _ => True).
Proof.
  intros Hwf. pose proof (well_formed_opts r Hwf) as Hlen.
  destruct r as [[q opts] corr].
  eapply spec_weaken; [apply W_spec_shuffle_options, Hlen|]. auto.
Qed.

Lemma concat_well_formed (sheets : list (list row)) :
  Forall (Forall well_formed) sheets -> Forall well_formed (concat sheets).
Proof. induction 1; simpl; [constructor | apply Forall_app; auto]. Qed.

Lemma picked_well_formed (pool picks : list row) :
  Forall well_formed pool -> (forall x, x ∈ picks -> x ∈ pool) ->
  Forall well_formed picks.
Proof.
  intros Hpool Hsub. apply Forall_forall. intros x Hx.
  rewrite Forall_forall in Hpool. auto.
Qed.

End DrawFacts.

(** ** One pass of each Tkinter program *)

Module BodyFacts.
Import UI Random Logic RandomFacts Shape UIFacts ShuffleFacts LoopFacts DrawFacts.

Lemma slice_to_Forall {A} (P : A -> Prop) (l : list A) (k : Z) :
  Forall P l -> Forall P (slice_to l k).
Proof. intros H. unfold slice_to. destruct (0 <=? k)%Z; apply Forall_take, H. Qed.

Lemma slice_to_subseteq {A} (l : list A) (k : Z) : slice_to l k ⊆ l.
Proof. unfold slice_to. destruct (0 <=? k)%Z; apply subseteq_take. Qed.

Lemma V_quota_ok (sheets : list (list row)) (F : Z) :
  (0 <= F)%Z -> Forall (Forall well_formed) sheets ->
  spec (V.quota_loop sheets F []) (V_quota F sheets)
       (fun sel => length sel = V_quota F sheets /\ Forall well_formed sel).
Proof.
  intros HF Hwf. eapply spec_weaken; [apply V_spec_quota_loop, HF|].
  intros sel (picks & -> & Hl & Hin). simpl. split; [exact Hl|].
  eapply picked_well_formed; [apply concat_well_formed, Hwf | exact Hin].
Qed.

Lemma V_extra_ok (pool : list row) (E : Z) (n1 : nat) (sel : list row) :
  (0 <= E)%Z -> Forall well_formed pool ->
  length sel = n1 -> Forall well_formed sel ->
  spec (V.extra_step pool E sel) (V_extra E pool)
       (fun sel' => length sel' = n1 + V_extra E pool /\ Forall well_formed sel').
Proof.
  intros HE Hpool Hl Hsel. eapply spec_weaken; [apply V_spec_extra_step, HE|].
  intros sel' (picks & -> & Hlp & Hin). rewrite length_app. split; [lia|].
  apply Forall_app. split; [exact Hsel|].
  apply (picked_well_formed pool); assumption.
Qed.

Lemma W_quota_ok (sheets : list (list row)) (F : Z) :
  (0 <= F)%Z -> Forall (Forall well_formed) sheets ->
  spec (W.quota_loop sheets F []) (W_quota F sheets)
       (fun sel => length sel = W_quota F sheets /\ Forall well_formed sel).
Proof.
  intros HF Hwf. eapply spec_weaken; [apply W_spec_quota_loop, HF|].
  intros sel (picks & -> & Hl & Hin). simpl. split; [exact Hl|].
  eapply picked_well_formed; [apply concat_well_formed, Hwf | exact Hin].
Qed.

Lemma W_extra_ok (pool : list row) (E : Z) (n1 : nat) (sel : list row) :
  (0 <= E)%Z -> Forall well_formed pool ->
  length sel = n1 -> Forall well_formed sel ->
  spec (W.extra_step pool E sel) (W_extra E pool)
       (fun sel' => length sel' = n1 + W_extra E pool /\ Forall well_formed sel').
Proof.
  intros HE Hpool Hl Hsel. eapply spec_weaken; [apply W_spec_extra_step, HE|].
  intros sel' (picks & -> & Hlp & Hin). rewrite length_app. split; [lia|].
  apply Forall_app. split; [exact Hsel|].
  apply (picked_well_formed pool); assumption.
Qed.

(** One pass of [TestApp-With-Validation.py]. *)
Lemma V_spec_variant_body (sheets : list (list row)) (Q S F : Z) :
  (0 <= Q)%Z -> (0 <= F)%Z -> Forall (Forall well_formed) sheets ->
  let n1 := V_quota F sheets in
  let n2 := V_extra (EXTRA Q S F) (concat sheets) in
  let kept := Z.to_nat Q `min` (n1 + n2) in
  spec (V.variant_body sheets (concat sheets) Q S F)
       (n1 + (n2 + ((n1 + n2 - 1) + (kept * 3 + 7))))
       (fun x => length (final_q x) = kept /\ length (key x) = kept /\
                 String.length (booklet_id x) = 7).
Proof.
  intros HQ HF Hwf n1 n2 kept.
  change (V.variant_body sheets (concat sheets) Q S F)
    with (loop_body (V.quota_loop sheets F [])
            (V.extra_step (concat sheets) (EXTRA Q S F)) V.shuffle_options Q).
  apply (spec_loop_body _ _ _ Q well_formed n1 n2).
  - apply V_quota_ok; assumption.
  - intros sel Hl Hsel. apply V_extra_ok; auto.
    + unfold EXTRA. lia.
    + apply concat_well_formed, Hwf.
  - apply V_spec_option_pass.
  - exact HQ.
Qed.

(** One pass of [TestVariant-W.py]. *)
Lemma W_spec_variant_body (sheets : list (list row)) (Q S F : Z) :
  (0 <= Q)%Z -> (0 <= F)%Z -> Forall (Forall well_formed) sheets ->
  let n1 := W_quota F (slice_to sheets S) in
  let n2 := W_extra (EXTRA Q S F) (concat sheets) in
  let kept := Z.to_nat Q `min` (n1 + n2) in
  spec (W.variant_body sheets (concat sheets) Q S F)
       (n1 + (n2 + ((n1 + n2 - 1) + (kept * 3 + 7))))
       (fun x => length (final_q x) = kept /\ length (key x) = kept /\
                 String.length (booklet_id x) = 7).
Proof.
  intros HQ HF Hwf n1 n2 kept.
  change (W.variant_body sheets (concat sheets) Q S F)
    with (loop_body (W.quota_loop (slice_to sheets S) F [])
            (W.extra_step (concat sheets) (EXTRA Q S F)) W.shuffle_options Q).
  apply (spec_loop_body _ _ _ Q well_formed n1 n2).
  - apply W_quota_ok; [exact HF | apply slice_to_Forall, Hwf].
  - intros sel Hl Hsel. apply W_extra_ok; auto.
    + unfold EXTRA. lia.
    + apply concat_well_formed, Hwf.
  - apply W_spec_option_pass.
  - exact HQ.
Qed.

(** The order in which one pass of [TestApp-With-Validation.py] reads
    the stream. *)
Lemma V_variant_body_segments (sheets : list (list row)) (Q S F : Z)
    (t1 t2 t3 t4 t5 rest : rng) :
  (0 <= Q)%Z -> (0 <= F)%Z -> Forall (Forall well_formed) sheets ->
  let pool := concat sheets in
  let n1 := V_quota F sheets in
  let n2 := V_extra (EXTRA Q S F) pool in
  length t1 = n1 -> length t2 = n2 -> length t3 = n1 + n2 - 1 ->
  length t4 = (Z.to_nat Q `min` (n1 + n2)) * 3 -> length t5 = 7 ->
  exists sel1 sel2 sel3 qk b,
    (forall r, V.quota_loop sheets F [] (t1 ++ r) = inr (sel1, r)) /\
    (forall r, V.extra_step pool (EXTRA Q S F) sel1 (t2 ++ r) = inr (sel2, r)) /\
    (forall r, shuffle sel2 (t3 ++ r) = inr (sel3, r)) /\
    (forall r, mapM V.shuffle_options (slice_to sel3 Q) (t4 ++ r) = inr (qk, r)) /\
    (forall r, choices digits 7 (t5 ++ r) = inr (b, r)) /\
    V.variant_body sheets pool Q S F (t1 ++ t2 ++ t3 ++ t4 ++ t5 ++ rest)
    = inr (assemble qk b, rest).
Proof.
  intros HQ HF Hwf pool n1 n2 H1 H2 H3 H4 H5.
  change (V.variant_body sheets pool Q S F)
    with (loop_body (V.quota_loop sheets F [])
            (V.extra_step pool (EXTRA Q S F)) V.shuffle_options Q).
  apply (loop_body_segments _ _ _ Q well_formed n1 n2); try assumption.
  - apply V_quota_ok; assumption.
  - intros sel Hl Hsel. apply V_extra_ok; auto.
    + unfold EXTRA. lia.
    + apply concat_well_formed, Hwf.
  - apply V_spec_option_pass.
Qed.

End BodyFacts.

(** ** The shuffler of the script *)

Module ScriptFacts.
Import Script Random Logic RandomFacts Shape PyStrFacts.

Lemma find_first {A} (f : A -> bool) (l : list A) (x : A) :
  List.find f l = Some x ->
  exists i, l !! i = Some x /\ f x = true /\
            forall j y, j < i -> l !! j = Some y -> f y = false.
Proof.
  induction l as [|a l IH]; simpl; [discriminate|].
  destruct (f a) eqn:Hfa.
  - intros H. injection H as <-. exists 0. repeat split; [exact Hfa|]. lia.
  - intros H. destruct (IH H) as (i & Hi & Hfx & Hbefore).
    exists (S i). repeat split; [exact Hi | exact Hfx |].
    intros [|j] y Hj Hy; simpl in Hy.
    + injection Hy as <-. exact Hfa.
    + apply (Hbefore j); [lia | exact Hy].
Qed.

Lemma find_none_lookup {A} (f : A -> bool) (l : list A) :
  List.find f l = None -> forall i y, l !! i = Some y -> f y = false.
Proof.
  intros H i y Hy. apply (List.find_none f l H).
  apply list_elem_of_In. eapply list_elem_of_lookup_2, Hy.
Qed.

Lemma is_label_lookup (l : string) :
  is_label l = true <-> exists i, LABELS !! i = Some l.
Proof.
  unfold is_label. rewrite existsb_exists. split.
  - intros (x & Hin & Heq). apply String.eqb_eq in Heq as ->.
    apply list_elem_of_In, list_elem_of_lookup in Hin. exact Hin.
  - intros [i Hi]. exists l. split; [|apply String.eqb_refl].
    apply list_elem_of_In. eapply list_elem_of_lookup_2, Hi.
Qed.

Lemma label_truthy (l : string) : is_label l = true -> PyStr.truthy l = true.
Proof.
  intros H. apply is_label_lookup in H as [i Hi].
  destruct i as [|[|[|[|i]]]]; simpl in Hi; try discriminate;
    injection Hi as <-; reflexivity.
Qed.

(** A label reads the option stored under it. *)
Lemma get_label (r : row) (i : nat) (l : string) :
  LABELS !! i = Some l -> get r l = row_layout r !! i.
Proof.
  destruct i as [|[|[|[|i]]]]; simpl; intros H; try discriminate;
    injection H as <-; reflexivity.
Qed.

Lemma relabel_layout (question : string) (texts : list string) :
  length texts <= 4 ->
  row_layout (relabel question texts)
  = texts ++ replicate (4 - length texts) EmptyString.
Proof.
  intros Hlen.
  destruct texts as [|a [|b [|c [|d [|e texts]]]]]; simpl in Hlen; try lia;
    reflexivity.
Qed.

Lemma relabel_slot (question : string) (texts : list string) (i : nat) (v : string) :
  length texts <= 4 ->
  row_layout (relabel question texts) !! i = Some v -> v <> EmptyString ->
  texts !! i = Some v.
Proof.
  intros Hlen. rewrite relabel_layout by exact Hlen. intros Hv Hne.
  apply lookup_app_Some in Hv as [Hv|[_ Hv]]; [exact Hv|].
  apply lookup_replicate in Hv as [-> _]. congruence.
Qed.

Lemma relabel_text (question : string) (texts : list string) (i : nat) (t : string) :
  length texts <= 4 -> texts !! i = Some t ->
  row_layout (relabel question texts) !! i = Some t.
Proof.
  intros Hlen Ht. rewrite relabel_layout by exact Hlen.
  apply lookup_app_l_Some, Ht.
Qed.

Lemma non_empty_options_length (r : row) : length (non_empty_options r) <= 4.
Proof.
  unfold non_empty_options.
  etransitivity; [apply UIFacts.filter_length_le | simpl; lia].
Qed.

(** The pairs kept for shuffling are the options whose text is not blank. *)
Lemma non_empty_options_elem (r : row) (l t : string) :
  (l, t) ∈ non_empty_options r <->
  (exists i, LABELS !! i = Some l /\ row_layout r !! i = Some t)
  /\ PyStr.strip t <> EmptyString.
Proof.
  unfold non_empty_options. rewrite list_elem_of_In, filter_In.
  simpl. rewrite negb_true_iff, String.eqb_neq.
  split; intros [Hin Hne]; (split; [|exact Hne]).
  - destruct Hin as [H|[H|[H|[H|[]]]]]; injection H as <- <-;
      [exists 0 | exists 1 | exists 2 | exists 3]; split; reflexivity.
  - destruct Hin as (i & Hl & Ht).
    destruct i as [|[|[|[|i]]]]; simpl in Hl, Ht; try discriminate;
      injection Hl as <-; injection Ht as <-; tauto.
Qed.

(** With two or more options to shuffle: [len - 1] draws, a new row whose
    slots are the shuffled texts followed by empty strings, and the label
    found for it. *)
Lemma spec_shuffle_question (r : row) :
  2 <= length (non_empty_options r) ->
  spec (shuffle_question r) (length (non_empty_options r) - 1)
       (fun out => exists sh,
            sh ≡ₚ non_empty_options r /\
            out.1 = relabel (r_question r) (map snd sh) /\
            out.2 = find_new_correct out.1 (orig_text r)).
Proof.
  intros Hlen. unfold shuffle_question.
  destruct (Nat.ltb_spec (length (non_empty_options r)) 2) as [Hlt|_]; [lia|].
  eapply spec_bind0; [apply spec_shuffle|].
  intros sh Hperm. eapply spec_weaken; [apply spec_ret|].
  intros ? ->. exists sh. auto.
Qed.

(** With fewer than two: no draw, the row itself and no label. *)
Lemma spec_shuffle_question_skip (r : row) :
  length (non_empty_options r) < 2 ->
  spec (shuffle_question r) 0 (fun out => out = (r, None)).
Proof.
  intros Hlen. unfold shuffle_question.
  destruct (Nat.ltb_spec (length (non_empty_options r)) 2) as [_|Hge]; [|lia].
  apply spec_ret.
Qed.

Lemma exact_match_hit (new_row : row) (t l : string) :
  exact_match new_row t l = true <-> exact_hit new_row t l.
Proof.
  unfold exact_match, exact_hit. destruct (get new_row l) as [v|].
  - rewrite andb_true_iff, truthy_true, String.eqb_eq. split.
    + intros [Hv Hn]. exists v. auto.
    + intros (v' & Hv' & Hne & Hn). injection Hv' as <-. auto.
  - split; [discriminate | intros (v & Hv & _); discriminate].
Qed.

Lemma partial_match_hit (new_row : row) (t l : string) :
  partial_match new_row t l = true <-> partial_hit new_row t l.
Proof.
  unfold partial_match, partial_hit. destruct (get new_row l) as [v|].
  - rewrite andb_true_iff, truthy_true, contains_spec. split.
    + intros [Hv Hn]. exists v. auto.
    + intros (v' & Hv' & Hne & Hn). injection Hv' as <-. auto.
  - split; [discriminate | intros (v & Hv & _); discriminate].
Qed.

Lemma find_first_label (f : string -> bool) (P : string -> Prop) (l : string) :
  (forall x, f x = true <-> P x) ->
  List.find f LABELS = Some l -> first_label P l.
Proof.
  intros Hf H. apply find_first in H as (i & Hi & Hfl & Hbefore).
  exists i. repeat split; [exact Hi | apply Hf, Hfl |].
  intros j l2 Hj Hl2 HP. apply Hf in HP.
  rewrite (Hbefore j l2 Hj Hl2) in HP. discriminate.
Qed.

Lemma find_no_label (f : string -> bool) (P : string -> Prop) :
  (forall x, f x = true <-> P x) ->
  List.find f LABELS = None -> forall l, l ∈ LABELS -> ~ P l.
Proof.
  intros Hf H l Hl HP. apply Hf in HP.
  apply list_elem_of_In in Hl. rewrite (List.find_none f LABELS H l Hl) in HP.
  discriminate.
Qed.

End ScriptFacts.

(** ** The overflow draw *)

Module OverflowFacts.
Import UI Random Logic RandomFacts Shape DrawFacts.




(** The overflow draw of the script: from the sheets after the eighth when
    they suffice, from all sheets otherwise. *)
Lemma Script_spec_extras_step (sheet_rows : list (list Script.row)) (extra : Z) :
  (0 <= extra <= Z.of_nat (length (concat sheet_rows)))%Z ->
  spec (Script.extras_step sheet_rows extra) (Z.to_nat extra)
       (fun picks =>
          length picks = Z.to_nat extra /\
          forall x, x ∈ picks ->
            x ∈ (if (extra <=? Z.of_nat (length (Script.other_pool sheet_rows)))%Z
                 then Script.other_pool sheet_rows
                 else concat sheet_rows)).
Proof.
  intros Hextra. unfold Script.extras_step.
  destruct (Z.leb_spec extra (Z.of_nat (length (Script.other_pool sheet_rows)))).
  - apply spec_sample. lia.
  - apply spec_sample. lia.
Qed.

End OverflowFacts.

(** ** The generation loop of the script *)

Module ScriptLoopFacts.
Import Script Random Logic RandomFacts Shape ScriptFacts LoopFacts OverflowFacts.

(** [mapM] when each element has its own number of draws. *)
Lemma spec_mapM_each {A B} (f : A -> M B) (l : list A) (k : A -> nat)
    (Q : A -> B -> Prop) :
  (forall a, a ∈ l -> spec (f a) (k a) (Q a)) ->
  spec (mapM f l) (sum_list (map k l)) (fun bs => Forall2 Q l bs).
Proof.
  induction l as [|a l IH]; intros Hf; simpl.
  - eapply spec_weaken; [apply spec_ret|]. intros ? ->. constructor.
  - eapply spec_bind; [apply Hf; left|]. intros b Hb.
    eapply spec_bind0.
    + apply IH. intros a' Ha'. apply Hf. right. exact Ha'.
    + intros bs Hbs. eapply spec_weaken; [apply spec_ret|].
      intros ? ->. constructor; assumption.
Qed.

Lemma spec_pick_rows (rows : list row) (k : Z) :
  rows <> [] -> (0 <= k)%Z ->
  spec (pick_rows rows k) (Z.to_nat k)
       (fun res => length res = Z.to_nat k /\ forall x, x ∈ res -> x ∈ rows).
Proof.
  intros Hne Hk. unfold pick_rows.
  destruct (Z.leb_spec k (Z.of_nat (length rows))).
  - apply spec_sample. lia.
  - apply spec_choice_n, Hne.
Qed.

Lemma spec_quota_loop (idxs : list nat) (sheet_rows : list (list row))
    (from_first : Z) (selected : list row) :
  (0 <= from_first)%Z ->
  (forall idx, idx ∈ idxs ->
     exists rows, sheet_rows !! idx = Some rows /\ rows <> []) ->
  spec (quota_loop idxs sheet_rows from_first selected)
       (length idxs * Z.to_nat from_first)
       (fun sel => length sel
                   = length selected + length idxs * Z.to_nat from_first).
Proof.
  intros HF. revert selected.
  induction idxs as [|idx idxs IH]; intros selected Hidx; simpl.
  - eapply spec_weaken; [apply spec_ret|]. intros ? ->. lia.
  - destruct (Hidx idx ltac:(left)) as (rows & Hrows & Hne).
    eapply (spec_bind_eq _ _ 0); [reflexivity | |].
    { apply spec_getitem. eapply lookup_lt_Some, Hrows. }
    intros rows' Hrows'. cbv beta in Hrows'.
    assert (rows' = rows) as -> by congruence.
    eapply spec_bind; [apply spec_pick_rows; assumption|].
    intros picked [Hl _]. eapply spec_weaken.
    + apply IH. intros i Hi. apply Hidx. right. exact Hi.
    + intros sel Hsel. cbv beta in Hsel. rewrite Hsel, length_app. lia.
Qed.

(** One question of the script: always an entry, after [draws_for] draws. *)
Lemma spec_shuffle_entry (q : row) :
  spec (shuffle_entry q) (draws_for q) (fun _ => True).
Proof.
  unfold shuffle_entry, draws_for.
  destruct (Nat.lt_ge_cases (length (non_empty_options q)) 2) as [Hlt|Hge].
  - replace (length (non_empty_options q) - 1) with 0 by lia.
    eapply spec_bind0; [apply spec_shuffle_question_skip, Hlt|].
    intros x ->. eapply spec_weaken; [apply spec_ret|]. auto.
  - eapply spec_bind0; [apply spec_shuffle_question, Hge|].
    intros [shuffled_row new_correct] _.
    eapply spec_weaken; [apply spec_ret|]. auto.
Qed.

(** The order in which one pass of the script reads the stream: the quota
    draws of the first eight sheets, the overflow draws, the shuffle of the
    question order, the option shuffles, the booklet id. *)
Lemma variant_body_segments (sheet_rows : list (list row))
    (from_first extra : Z) (id_length : nat) (t1 t2 t3 : rng) :
  (forall idx, idx < 8 ->
     exists rows, sheet_rows !! idx = Some rows /\ rows <> []) ->
  (0 <= from_first)%Z ->
  (0 <= extra <= Z.of_nat (length (concat sheet_rows)))%Z ->
  length t1 = 8 * Z.to_nat from_first ->
  length t2 = Z.to_nat extra ->
  length t3 = 8 * Z.to_nat from_first + Z.to_nat extra - 1 ->
  exists sel1 extras sel3,
    (forall r, quota_loop (seq 0 8) sheet_rows from_first [] (t1 ++ r)
               = inr (sel1, r)) /\
    (forall r, extras_step sheet_rows extra (t2 ++ r) = inr (extras, r)) /\
    (forall r, shuffle (sel1 ++ extras) (t3 ++ r) = inr (sel3, r)) /\
    forall t4 t5 rest,
      length t4 = sum_list (map draws_for sel3) -> length t5 = id_length ->
      exists qk b,
        (forall r, mapM shuffle_entry sel3 (t4 ++ r) = inr (qk, r)) /\
        (forall r, choices digits id_length (t5 ++ r) = inr (b, r)) /\
        variant_body sheet_rows from_first extra id_length
          (t1 ++ t2 ++ t3 ++ t4 ++ t5 ++ rest)
        = inr (assemble qk b, rest).
Proof.
  intros Hsheets HF Hextra H1 H2 H3.
  destruct (spec_block _ _ _ t1
              (spec_quota_loop (seq 0 8) sheet_rows from_first [] HF
                 ltac:(intros idx Hidx; apply Hsheets;
                       apply elem_of_seq in Hidx; lia)) H1)
    as (sel1 & Hl1 & E1).
  destruct (spec_block _ _ _ t2 (Script_spec_extras_step sheet_rows extra Hextra) H2)
    as (extras & [Hl2 _] & E2).
  simpl in Hl1.
  destruct (spec_block _ _ _ t3 (spec_shuffle (sel1 ++ extras))
              ltac:(rewrite length_app; lia))
    as (sel3 & _ & E3).
  exists sel1, extras, sel3. repeat split; try assumption.
  intros t4 t5 rest H4 H5.
  destruct (spec_block _ _ _ t4
              (spec_mapM_each shuffle_entry sel3 draws_for (fun _ _ => True)
                 (fun a _ => spec_shuffle_entry a)) H4)
    as (qk & _ & E4).
  destruct (spec_block _ _ _ t5 (spec_choices digits id_length digits_nonempty) H5)
    as (b & _ & E5).
  exists qk, b. repeat split; try assumption.
  unfold variant_body, bind. rewrite E1, E2, E3, E4, E5. reflexivity.
Qed.

End ScriptLoopFacts.

(** * Main theorems *)

Import Shape.

(** ** Reading rows and validating them *)

(** C9. In the two Tkinter programs a row read from a sheet has four option
    slots and its correct answer is the text of the first one ([corr] is
    [opts[0]]), so before shuffling the correct option sits in slot A; and
    the validator reports a missing correct answer for a row exactly when
    its option A is blank, that is, is not counted among [valid_opts]. *)
Theorem correct_answer_is_first_option
    (r : series) (q : string) (opts : list string) (corr : string)
    (sname : string) (i : nat) :
  UI.read_row r = inr (q, opts, corr) ->
  length opts = 4 /\
  opts !! 0 = Some corr /\
  (V.NoCorrectAnswer sname i ∈ V.check_row sname i (q, opts, corr) <->
   exists a, opts !! 0 = Some a /\ PyStr.strip a = EmptyString).
Proof.
  intros Hread.
  destruct (UIFacts.read_row_well_formed r _ Hread) as [Hlen H0].
  split; [exact Hlen|]. split; [exact H0|].
  rewrite ValidationFacts.no_correct_reported. split.
  - intros H. exists corr. auto.
  - intros (a & Ha & Hblank). congruence.
Qed.

Lemma correct_answer_is_first_option_witness :
  length ["4"; "5"; "6"; "7"] = 4 /\
  ["4"; "5"; "6"; "7"] !! 0 = Some "4" /\
  (V.NoCorrectAnswer "S1" 2 ∈ V.check_row "S1" 2 ("2+2?", ["4"; "5"; "6"; "7"], "4")
   <-> exists a, ["4"; "5"; "6"; "7"] !! 0 = Some a /\ PyStr.strip a = EmptyString).
Proof.
  apply (correct_answer_is_first_option
           [Some "2+2?"; Some "4"; Some "5"; Some "6"; Some "7"]).
  reflexivity.
Defined.

(** ** Option shuffling in the Tkinter programs *)

(** C10. For a row whose correct text is the empty string (its first
    option column is empty), both Tkinter programs find [''] among the
    padded slots after the shuffle: the answer-key entry is one of the
    letters A..D, and the slot that letter names is empty. *)
Theorem empty_correct_text_gets_a_letter
    (qtext : string) (opts : list string) (g : rng) :
  length opts = 4 -> opts !! 0 = Some EmptyString ->
  (exists q label g',
      W.shuffle_options (qtext, opts, EmptyString) g = inr ((q, label), g') /\
      label ∈ LABELS /\ q_get q label = Some EmptyString) /\
  (exists q label g',
      V.shuffle_options (qtext, opts, EmptyString) g = inr ((q, label), g') /\
      label ∈ LABELS /\ q_get q label = Some EmptyString).
Proof.
  intros Hlen H0. split.
  - destruct (Logic.spec_total _ _ _ g
                (ShuffleFacts.W_spec_shuffle_options qtext opts EmptyString ltac:(lia)))
      as ([q label] & g' & Hrun & _ & Hperm & Hlabel).
    exists q, label, g'. split; [exact Hrun|]. cbn [fst snd] in Hperm, Hlabel.
    assert (Hin : EmptyString ∈ layout q).
    { rewrite Hperm. apply UIFacts.pad4_elem. right. split; [reflexivity|].
      apply ShuffleFacts.filter_drops_empty; auto. }
    apply ShuffleFacts.label_of_present; [exact Hin|].
    destruct (index_of "" (layout q)) as [e|i] eqn:Hidx; [|exact Hlabel].
    apply UIFacts.index_of_inl in Hidx as [_ Hnot]. contradiction.
  - destruct (Logic.spec_total _ _ _ g
                (ShuffleFacts.V_spec_shuffle_options qtext opts EmptyString ltac:(lia)))
      as ([q label] & g' & Hrun & _ & Hperm & Hlabel).
    exists q, label, g'. split; [exact Hrun|]. cbn [fst snd] in Hperm, Hlabel.
    assert (Hin : EmptyString ∈ layout q).
    { rewrite Hperm. apply UIFacts.pad4_elem. right. split; [reflexivity|].
      apply ShuffleFacts.filter_drops_empty; auto. }
    apply ShuffleFacts.label_of_present; [exact Hin|].
    destruct (index_of "" (layout q)) as [e|i] eqn:Hidx; [|exact Hlabel].
    apply UIFacts.index_of_inl in Hidx as [_ Hnot]. contradiction.
Qed.

Lemma empty_correct_text_gets_a_letter_witness :
  (exists q label g',
      W.shuffle_options ("2+2?", [""; "5"; "6"; "7"], "") [1; 2; 0]
        = inr ((q, label), g') /\
      label ∈ LABELS /\ q_get q label = Some "") /\
  (exists q label g',
      V.shuffle_options ("2+2?", [""; "5"; "6"; "7"], "") [1; 2; 0]
        = inr ((q, label), g') /\
      label ∈ LABELS /\ q_get q label = Some "").
Proof.
  apply (empty_correct_text_gets_a_letter "2+2?" [""; "5"; "6"; "7"] [1; 2; 0]);
    reflexivity.
Defined.

(** C5. The layout claimed for a record with two or three options (texts
    first, empty slots last) is what the script's shuffler produces, but
    not what the Tkinter programs do: they pad to four slots before the
    shuffle, so an empty slot can land ahead of an option.  Here the record
    has the options Paris, Rome and Berlin and the stream starts 0, 0, 0:
    slot C comes out empty and slot D holds Paris. *)
Theorem padded_slot_precedes_option :
  W.shuffle_options ("Capital of France?", ["Paris"; "Rome"; "Berlin"; ""], "Paris")
                    [0; 0; 0]
  = inr ((mkQ "Capital of France?" "Rome" "Berlin" "" "Paris", "D"), []).
Proof. reflexivity. Qed.

(** The script's shuffler, by contrast, lays the shuffled texts out first
    and fills the remaining labels with empty strings. *)
Lemma script_layout_pads_at_end (r : Script.row) (g : rng) :
  2 <= length (Script.non_empty_options r) ->
  exists new_row label g' texts,
    Script.shuffle_question r g = inr ((new_row, label), g') /\
    texts ≡ₚ map snd (Script.non_empty_options r) /\
    Forall (fun t => PyStr.strip t <> EmptyString) texts /\
    row_layout new_row
    = texts ++ replicate (4 - length (Script.non_empty_options r)) EmptyString.
Proof.
  intros Hlen.
  destruct (Logic.spec_total _ _ _ g (ScriptFacts.spec_shuffle_question r Hlen))
    as ([new_row label] & g' & Hrun & sh & Hperm & Hrow & _).
  simpl in Hrow. exists new_row, label, g', (map snd sh).
  split; [exact Hrun|]. split; [rewrite Hperm; reflexivity|]. split.
  - apply Forall_forall. intros t Ht.
    apply list_elem_of_fmap in Ht as ([l t'] & -> & Hin). simpl.
    rewrite Hperm in Hin. apply ScriptFacts.non_empty_options_elem in Hin. tauto.
  - pose proof (ScriptFacts.non_empty_options_length r) as Hle.
    assert (Hl : length (map snd sh) = length (Script.non_empty_options r))
      by (rewrite length_map, Hperm; reflexivity).
    rewrite Hrow, ScriptFacts.relabel_layout by lia. rewrite Hl. reflexivity.
Qed.

(** ** The shuffler of the script *)

(** C7, as the code has it.  For a record with fewer than two non-blank
    options the script's shuffler draws nothing and returns the row
    unchanged together with [None], and the answer key records the empty
    string for it: the original label is not retained. *)
Theorem degenerate_record_is_skipped (r : Script.row) (g : rng) :
  length (Script.non_empty_options r) < 2 ->
  Script.shuffle_question r g = inr ((r, None), g) /\
  Script.shuffle_entry r g
  = inr ((mkQ (Script.r_question r) (Script.r_A r) (Script.r_B r)
              (Script.r_C r) (Script.r_D r), EmptyString), g).
Proof.
  intros Hlen. unfold Script.shuffle_entry, bind, Script.shuffle_question.
  destruct (Nat.ltb_spec (length (Script.non_empty_options r)) 2) as [_|Hge]; [|lia].
  split; reflexivity.
Qed.

Lemma degenerate_record_is_skipped_witness :
  let r := Script.mkRow "2+2?" "4" "" "" "" (Some "A") (Some "4") in
  Script.shuffle_question r [5; 1] = inr ((r, None), [5; 1]) /\
  Script.shuffle_entry r [5; 1] = inr ((mkQ "2+2?" "4" "" "" "", ""), [5; 1]).
Proof.
  apply (degenerate_record_is_skipped
           (Script.mkRow "2+2?" "4" "" "" "" (Some "A") (Some "4")) [5; 1]).
  vm_compute. lia.
Defined.

(** C7 as stated fails: this record has the single option "4" under the
    original label A, and its answer-key entry is the empty string. *)
Lemma degenerate_record_loses_label :
  let r := Script.mkRow "2+2?" "4" "" "" "" (Some "A") (Some "4") in
  length (Script.non_empty_options r) = 1 /\
  Script.r_correct r = Some "A" /\
  Script.shuffle_question r [] = inr ((r, None), []) /\
  (exists q, Script.shuffle_entry r [] = inr ((q, ""), [])) /\
  "" <> "A".
Proof.
  simpl. repeat split; try reflexivity.
  - eexists. reflexivity.
  - discriminate.
Qed.

(** ** Validation and the length of a variant *)

(** C3, as the code has it.  The validator collects only three kinds of
    defect: a sheet shorter than the quota, a blank question or correct
    answer, fewer than four options.  It accepts exactly the banks free of
    them, whatever the total asked for.  The overflow count is not checked
    but derived, [max(0, QCOUNT - SHEET_LIMIT * FROM_FIRST)]: the arithmetic
    identity holds by construction when the quotas fit in the total, and
    when they exceed it the overflow is clamped to zero and the identity
    fails without any error. *)
Theorem validation_has_no_arithmetic_check
    (sheets : list (list UI.row)) (names : list string) (Q S F : Z) :
  length names = length sheets ->
  (exists errors,
      V.validate_question_bank sheets names F = inr errors /\
      (errors = [] <-> Forall (sheet_ok F) sheets)) /\
  ((S * F <= Q)%Z -> (S * F + UI.EXTRA Q S F = Q)%Z) /\
  ((Q < S * F)%Z -> UI.EXTRA Q S F = 0%Z /\ (S * F + UI.EXTRA Q S F <> Q)%Z).
Proof.
  intros Hlen. split; [|unfold UI.EXTRA; split; intros; lia].
  apply ValidationFacts.validate_from_spec. simpl. lia.
Qed.

Lemma validation_has_no_arithmetic_check_witness :
  (exists errors,
      V.validate_question_bank [Example.rows1] ["S1"] 2 = inr errors /\
      (errors = [] <-> Forall (sheet_ok 2) [Example.rows1])) /\
  ((1 * 2 <= 1)%Z -> (1 * 2 + UI.EXTRA 1 1 2 = 1)%Z) /\
  ((1 < 1 * 2)%Z -> UI.EXTRA 1 1 2 = 0%Z /\ (1 * 2 + UI.EXTRA 1 1 2 <> 1)%Z).
Proof.
  apply (validation_has_no_arithmetic_check [Example.rows1] ["S1"] 1 1 2).
  reflexivity.
Defined.

(** C3 as stated fails: with one sheet of two rows, a quota of 2 and a
    total of 1, the quotas exceed the total (2 * 1 + 0 is not 1), yet the
    validator reports nothing and the run writes its variant. *)
Lemma mismatch_passes_validation :
  (1 * 2 + UI.EXTRA 1 1 2 <> 1)%Z /\
  UI.load_sheets (slice_to Example.book 1) = inr [Example.rows1] /\
  V.validate_question_bank [Example.rows1] ["S1"] 2 = inr [] /\
  exists x, V.start_generation Example.book 1 1 1 2 [] = Finished [(1, x)].
Proof.
  split; [vm_compute; discriminate|].
  split; [reflexivity|]. split; [reflexivity|].
  eexists. vm_compute. reflexivity.
Qed.

(** C1, as the code has it.  When the bank passes validation, every pass
    of the validated program completes and keeps
    [min(QCOUNT, rows drawn)] questions, where the rows drawn are the full
    quota of every loaded sheet plus [min(EXTRA, size of the flat pool)]
    overflow rows; the answer key has the same length.  That is exactly
    [QCOUNT] when the workbook supplies all [SHEET_LIMIT] sheets and the
    flat pool holds at least [EXTRA] rows. *)
Theorem validated_variant_length
    (xls : workbook) (VC Q S F : Z) (g : rng) (sheets : list (list UI.row)) :
  (0 <= Q)%Z -> (0 <= F)%Z ->
  UI.load_sheets (slice_to xls S) = inr sheets ->
  V.validate_question_bank sheets (map fst (slice_to xls S)) F = inr [] ->
  let drawn :=
    length sheets * Z.to_nat F + V_extra (UI.EXTRA Q S F) (concat sheets) in
  exists files,
    V.start_generation xls VC Q S F g = Finished files /\
    map fst files = seq 1 (Z.to_nat VC) /\
    Forall (fun f => length (final_q f.2) = Z.to_nat Q `min` drawn /\
                     length (key f.2) = Z.to_nat Q `min` drawn) files /\
    (Z.of_nat (length sheets) = S ->
     (UI.EXTRA Q S F <= Z.of_nat (length (concat sheets)))%Z ->
     Z.to_nat Q `min` drawn = Z.to_nat Q).
Proof.
  intros HQ HF Hload Hval drawn.
  destruct (UIFacts.load_sheets_well_formed _ _ Hload) as [_ Hwf].
  pose proof (ValidationFacts.validate_from_accepts _ _ _ _ Hval) as Hok.
  pose proof (BodyFacts.V_spec_variant_body sheets Q S F HQ HF Hwf) as Hbody.
  cbv zeta in Hbody.
  rewrite (DrawFacts.V_quota_validated F sheets HF Hok) in Hbody.
  fold drawn in Hbody.
  destruct (LoopFacts.gen_loop_total _ _ _ (Z.to_nat VC) 1 g Hbody)
    as (files & Hrun & Hnum & Hall).
  exists files. split; [|split; [exact Hnum|split]].
  - unfold V.start_generation. rewrite Hload, Hval.
    unfold run_loop. rewrite Hrun. reflexivity.
  - eapply Forall_impl; [exact Hall|]. intros f (H1 & H2 & _). auto.
  - intros HS HE. subst drawn. unfold V_extra.
    rewrite Z.min_l by exact HE. unfold UI.EXTRA in *.
    rewrite <- HS in *.
    assert (Hprod : Z.of_nat (length sheets * Z.to_nat F)
                    = (Z.of_nat (length sheets) * F)%Z)
      by (rewrite Nat2Z.inj_mul, Z2Nat.id by exact HF; reflexivity).
    lia.
Qed.

Lemma validated_variant_length_witness :
  exists files,
    V.start_generation Example.book 2 10 1 2 [3; 1; 4] = Finished files /\
    map fst files = seq 1 (Z.to_nat 2) /\
    Forall (fun f =>
              length (final_q f.2)
              = Z.to_nat 10 `min` (1 * Z.to_nat 2 + V_extra (UI.EXTRA 10 1 2) Example.rows1)
              /\ length (key f.2)
              = Z.to_nat 10 `min` (1 * Z.to_nat 2 + V_extra (UI.EXTRA 10 1 2) Example.rows1))
           files /\
    (Z.of_nat 1 = 1%Z ->
     (UI.EXTRA 10 1 2 <= Z.of_nat (length Example.rows1))%Z ->
     Z.to_nat 10 `min` (1 * Z.to_nat 2 + V_extra (UI.EXTRA 10 1 2) Example.rows1)
     = Z.to_nat 10).
Proof.
  apply (validated_variant_length Example.book 2 10 1 2 [3; 1; 4] [Example.rows1]);
    first [lia | reflexivity].
Defined.

(** [TestVariant-W.py] has no validation; its passes complete on every
    loaded bank and keep [min(QCOUNT, rows drawn)] questions, which is
    [QCOUNT] when the workbook supplies all [SHEET_LIMIT] sheets and none
    of them is empty. *)
Lemma W_variant_length
    (xls : workbook) (VC Q S F : Z) (g : rng) (sheets : list (list UI.row)) :
  (0 < VC)%Z -> (0 <= Q)%Z -> (0 <= F)%Z ->
  UI.load_sheets (slice_to xls S) = inr sheets ->
  let drawn :=
    W_quota F (slice_to sheets S) + W_extra (UI.EXTRA Q S F) (concat sheets) in
  exists files,
    W.start_generation xls VC Q S F g = Finished files /\
    map fst files = seq 1 (Z.to_nat VC) /\
    Forall (fun f => length (final_q f.2) = Z.to_nat Q `min` drawn /\
                     length (key f.2) = Z.to_nat Q `min` drawn) files /\
    (Z.of_nat (length sheets) = S -> sheets <> [] ->
     Forall (fun rows => rows <> []) sheets ->
     Z.to_nat Q `min` drawn = Z.to_nat Q).
Proof.
  intros HVC HQ HF Hload drawn.
  destruct (UIFacts.load_sheets_well_formed _ _ Hload) as [_ Hwf].
  pose proof (BodyFacts.W_spec_variant_body sheets Q S F HQ HF Hwf) as Hbody.
  cbv zeta in Hbody. fold drawn in Hbody.
  destruct (LoopFacts.gen_loop_total _ _ _ (Z.to_nat VC) 1 g Hbody)
    as (files & Hrun & Hnum & Hall).
  exists files. split; [|split; [exact Hnum|split]].
  - unfold W.start_generation. rewrite Hload.
    destruct (Z.leb_spec VC 0); [lia|].
    unfold run_loop. rewrite Hrun. reflexivity.
  - eapply Forall_impl; [exact Hall|]. intros f (H1 & H2 & _). auto.
  - intros HS Hne Hfull. subst drawn.
    assert (Hslice : slice_to sheets S = sheets).
    { rewrite LoopFacts.slice_to_nonneg by lia.
      rewrite <- HS, Nat2Z.id. apply firstn_all. }
    rewrite Hslice.
    assert (Hquota : W_quota F sheets = length sheets * Z.to_nat F).
    { clear -Hfull. induction Hfull as [|rows sheets Hrows _ IH]; [reflexivity|].
      rewrite DrawFacts.W_quota_cons, IH.
      destruct rows; [congruence | simpl; lia]. }
    assert (Hpool : UI.is_empty (concat sheets) = false).
    { destruct Hfull as [|rows sheets' Hrows _]; [congruence|].
      destruct rows; [congruence | reflexivity]. }
    unfold W_extra. rewrite Hquota, Hpool. unfold UI.EXTRA. rewrite <- HS.
    assert (Hprod : Z.of_nat (length sheets * Z.to_nat F)
                    = (Z.of_nat (length sheets) * F)%Z)
      by (rewrite Nat2Z.inj_mul, Z2Nat.id by exact HF; reflexivity).
    lia.
Qed.

(** C1 as stated fails: one sheet of two valid rows, quota 2, total 10.
    Validation passes, the overflow is 8 but the flat pool has 2 rows, so
    the variant holds 4 questions, fewer than the 10 asked for. *)
Lemma validated_variant_is_short :
  V.validate_question_bank [Example.rows1] ["S1"] 2 = inr [] /\
  (1 * 2 + UI.EXTRA 10 1 2 = 10)%Z /\
  exists x,
    V.start_generation Example.book 1 10 1 2 [] = Finished [(1, x)] /\
    length (final_q x) = 4 /\ length (key x) = 4.
Proof.
  split; [reflexivity|]. split; [reflexivity|].
  eexists. split; [vm_compute; reflexivity|]. split; reflexivity.
Qed.

(** ** The label after the shuffle *)

(** C2, as the code has it.  For a record with at least two non-blank
    options whose original correct label names a non-blank option, the
    script's shuffler returns a label, and the text under that label in the
    shuffled row equals the text of the originally correct option up to
    case and surrounding whitespace, which is how the shuffler compares
    them.  The two texts are identical whenever no other option of the
    record has the same trimmed, lower-cased text. *)
Theorem shuffled_label_recovers_answer
    (r : Script.row) (l t : string) (g : rng) :
  Script.r_correct r = Some l -> Script.is_label l = true ->
  Script.get r l = Some t -> PyStr.strip t <> EmptyString ->
  2 <= length (Script.non_empty_options r) ->
  exists new_row l' t' g',
    Script.shuffle_question r g = inr ((new_row, Some l'), g') /\
    l' ∈ LABELS /\
    Script.get new_row l' = Some t' /\
    PyStr.norm t' = PyStr.norm t /\
    ((forall l2 t2, (l2, t2) ∈ Script.non_empty_options r ->
                    PyStr.norm t2 = PyStr.norm t -> t2 = t) ->
     t' = t).
Proof.
  intros Hcorrect Hlabel Hget Hblank Hlen.
  destruct (Logic.spec_total _ _ _ g (ScriptFacts.spec_shuffle_question r Hlen))
    as ([new_row lab] & g' & Hrun & sh & Hperm & Hrow & Hlab).
  cbn [fst snd] in Hrow, Hlab.
  pose proof (ScriptFacts.non_empty_options_length r) as Hle.
  assert (Hlt : length (map snd sh) <= 4).
  { rewrite length_map, Hperm. exact Hle. }
  assert (Horig : Script.orig_text r = Some t).
  { unfold Script.orig_text.
    rewrite Hcorrect, (ScriptFacts.label_truthy l Hlabel), Hlabel. exact Hget. }
  assert (Htruthy : PyStr.truthy t = true).
  { apply PyStrFacts.truthy_true, PyStrFacts.strip_nonempty_arg, Hblank. }
  (* the correct text sits in some slot of the new row *)
  assert (Hslot : exists i li, LABELS !! i = Some li /\
                               Script.exact_match new_row t li = true).
  { assert (Hin : (l, t) ∈ Script.non_empty_options r).
    { apply ScriptFacts.non_empty_options_elem. split; [|exact Hblank].
      apply ScriptFacts.is_label_lookup in Hlabel as [i0 Hi0].
      exists i0. split; [exact Hi0|].
      rewrite <- (ScriptFacts.get_label r i0 l Hi0). exact Hget. }
    rewrite <- Hperm in Hin.
    assert (Ht : t ∈ map snd sh).
    { apply list_elem_of_fmap. exists (l, t). split; [reflexivity | exact Hin]. }
    apply list_elem_of_lookup in Ht as [i Hi].
    destruct (UIFacts.labels_lookup i) as [li Hli].
    { apply lookup_lt_Some in Hi. lia. }
    exists i, li. split; [exact Hli|].
    apply ScriptFacts.exact_match_hit. exists t.
    rewrite (ScriptFacts.get_label new_row i li Hli), Hrow.
    split; [apply ScriptFacts.relabel_text; assumption|].
    split; [apply PyStrFacts.truthy_true, Htruthy | reflexivity]. }
  rewrite Horig in Hlab. unfold Script.find_new_correct in Hlab.
  rewrite Htruthy in Hlab.
  destruct (List.find (Script.exact_match new_row t) LABELS) as [l'|] eqn:Hfind.
  2:{ destruct Hslot as (i & li & Hli & Hmatch).
      rewrite (ScriptFacts.find_none_lookup _ _ Hfind i li Hli) in Hmatch.
      discriminate. }
  apply ScriptFacts.find_first in Hfind as (j & Hj & Hmatch & _).
  apply ScriptFacts.exact_match_hit in Hmatch as (v & Hv & Hne & Hnorm).
  exists new_row, l', v, g'. subst lab.
  split; [exact Hrun|]. split; [eapply list_elem_of_lookup_2, Hj|].
  split; [exact Hv|]. split; [exact Hnorm|].
  intros Hunique.
  rewrite (ScriptFacts.get_label new_row j l' Hj), Hrow in Hv.
  apply ScriptFacts.relabel_slot in Hv; [|exact Hlt|exact Hne].
  apply list_elem_of_lookup_2, list_elem_of_fmap in Hv as ([l2 v'] & Heq & Hin).
  simpl in Heq. subst v'. rewrite Hperm in Hin.
  apply (Hunique l2 v Hin Hnorm).
Qed.

Lemma shuffled_label_recovers_answer_witness :
  let r := Script.mkRow "Capital of France?" "Paris" "Rome" "" "Berlin"
                        (Some "A") (Some "Paris") in
  exists new_row l' t' g',
    Script.shuffle_question r [0; 0] = inr ((new_row, Some l'), g') /\
    l' ∈ LABELS /\
    Script.get new_row l' = Some t' /\
    PyStr.norm t' = PyStr.norm "Paris" /\
    ((forall l2 t2, (l2, t2) ∈ Script.non_empty_options r ->
                    PyStr.norm t2 = PyStr.norm "Paris" -> t2 = "Paris") ->
     t' = "Paris").
Proof.
  apply (shuffled_label_recovers_answer
           (Script.mkRow "Capital of France?" "Paris" "Rome" "" "Berlin"
                         (Some "A") (Some "Paris")) "A" "Paris" [0; 0]);
    first [reflexivity | discriminate | (vm_compute; lia)].
Defined.

(** C2 as stated fails: the options "Paris" (correct, label A) and "paris"
    differ only in case.  After the shuffle swaps them the label found is
    A again, which now names "paris", not the original text "Paris". *)
Lemma shuffled_label_text_differs :
  let r := Script.mkRow "Capital of France?" "Paris" "paris" "" ""
                        (Some "A") (Some "Paris") in
  length (Script.non_empty_options r) = 2 /\
  Script.get r "A" = Some "Paris" /\
  exists new_row,
    Script.shuffle_question r [0] = inr ((new_row, Some "A"), []) /\
    Script.get new_row "A" = Some "paris" /\
    "paris" <> "Paris".
Proof.
  simpl. split; [reflexivity|]. split; [reflexivity|].
  eexists. split; [vm_compute; reflexivity|]. split; [reflexivity | discriminate].
Qed.

(** C4, as the code has it.  For every shuffled question the script's
    shuffler looks for the original correct text [t] among the non-empty
    slots of the new row: the label is the first one whose text equals [t]
    up to case and surrounding whitespace; if there is none, the first one
    whose text contains [t] (that direction only); and no label is
    returned exactly when [t] is missing or empty or no slot contains it. *)
Theorem label_is_exact_then_contained (r : Script.row) (g : rng) :
  2 <= length (Script.non_empty_options r) ->
  exists new_row lab g',
    Script.shuffle_question r g = inr ((new_row, lab), g') /\
    match lab with
    | Some l =>
        exists t, Script.orig_text r = Some t /\ t <> EmptyString /\
          (first_label (exact_hit new_row t) l \/
           ((forall l2, l2 ∈ LABELS -> ~ exact_hit new_row t l2) /\
            first_label (partial_hit new_row t) l))
    | None =>
        forall t, Script.orig_text r = Some t -> t <> EmptyString ->
          forall l2, l2 ∈ LABELS ->
            ~ exact_hit new_row t l2 /\ ~ partial_hit new_row t l2
    end.
Proof.
  intros Hlen.
  destruct (Logic.spec_total _ _ _ g (ScriptFacts.spec_shuffle_question r Hlen))
    as ([new_row lab] & g' & Hrun & sh & _ & _ & Hlab).
  cbn [fst snd] in Hlab.
  exists new_row, lab, g'. split; [exact Hrun|]. subst lab.
  unfold Script.find_new_correct.
  destruct (Script.orig_text r) as [t|]; [|intros t Ht; discriminate].
  destruct (PyStr.truthy t) eqn:Htruthy.
  2:{ apply PyStrFacts.truthy_false in Htruthy as ->.
      intros t Ht Hne. injection Ht as <-. congruence. }
  apply PyStrFacts.truthy_true in Htruthy.
  destruct (List.find (Script.exact_match new_row t) LABELS) as [l|] eqn:Hexact.
  - exists t. split; [reflexivity|]. split; [exact Htruthy|]. left.
    eapply ScriptFacts.find_first_label; [|exact Hexact].
    intros x. apply ScriptFacts.exact_match_hit.
  - pose proof (ScriptFacts.find_no_label _ _
                  (fun x => ScriptFacts.exact_match_hit new_row t x) Hexact) as Hno.
    destruct (List.find (Script.partial_match new_row t) LABELS) as [l|] eqn:Hpart.
    + exists t. split; [reflexivity|]. split; [exact Htruthy|]. right.
      split; [exact Hno|].
      eapply ScriptFacts.find_first_label; [|exact Hpart].
      intros x. apply ScriptFacts.partial_match_hit.
    + intros t' Ht' _. injection Ht' as <-. intros l2 Hl2. split.
      * apply Hno, Hl2.
      * eapply ScriptFacts.find_no_label; [|exact Hpart|exact Hl2].
        intros x. apply ScriptFacts.partial_match_hit.
Qed.

Lemma label_is_exact_then_contained_witness :
  let r := Script.mkRow "Capital of France?" "Paris" "Rome" "" "Berlin"
                        None (Some "paris ") in
  exists new_row lab g',
    Script.shuffle_question r [0; 0] = inr ((new_row, lab), g') /\
    match lab with
    | Some l =>
        exists t, Script.orig_text r = Some t /\ t <> EmptyString /\
          (first_label (exact_hit new_row t) l \/
           ((forall l2, l2 ∈ LABELS -> ~ exact_hit new_row t l2) /\
            first_label (partial_hit new_row t) l))
    | None =>
        forall t, Script.orig_text r = Some t -> t <> EmptyString ->
          forall l2, l2 ∈ LABELS ->
            ~ exact_hit new_row t l2 /\ ~ partial_hit new_row t l2
    end.
Proof.
  apply (label_is_exact_then_contained
           (Script.mkRow "Capital of France?" "Paris" "Rome" "" "Berlin"
                         None (Some "paris ")) [0; 0]).
  vm_compute. lia.
Defined.

(** C4 as stated fails on the second direction of the containment test.
    The correct text "Paris, France" is not an option of the row; the
    option "Paris" is contained in it, so the rule as the specification
    words it resolves the label to that option, but the shuffler tests
    only whether the correct text occurs in an option and returns none. *)
Lemma containment_is_one_way :
  let r := Script.mkRow "Capital of France?" "Paris" "Rome" "" ""
                        None (Some "Paris, France") in
  exists new_row,
    Script.shuffle_question r [] = inr ((new_row, None), []) /\
    row_layout new_row = ["Rome"; "Paris"; ""; ""] /\
    Spec.find_label (row_layout new_row) "Paris, France" = Some "B".
Proof.
  simpl. eexists. split; [vm_compute; reflexivity|]. split; reflexivity.
Qed.

(** ** The overflow pool *)




(** ** Reproducibility *)



(** * Further properties *)

(** ** The answer-key table *)

Module KeyTableFacts.
Import Docx Layout.

Lemma add_table_upto (answers : list string) (rows : nat) :
  table_upto answers rows 0 (add_table rows 4).
Proof.
  split; [apply length_replicate|].
  intros row col Hrow Hcol. unfold get_cell, add_table, expected_cell.
  rewrite lookup_replicate_2 by exact Hrow.
  rewrite lookup_replicate_2 by exact Hcol. reflexivity.
Qed.

Lemma position_unique (rows row col row' col' : nat) :
  row < rows -> row' < rows ->
  col * rows + row = col' * rows + row' -> col = col' /\ row = row'.
Proof.
  intros H1 H2 H.
  destruct (Nat.lt_trichotomy col col') as [Hlt|[->|Hgt]].
  - pose proof (Nat.mul_le_mono_r (S col) col' rows ltac:(lia)). simpl in *. lia.
  - lia.
  - pose proof (Nat.mul_le_mono_r (S col') col rows ltac:(lia)). simpl in *. lia.
Qed.

(** Writing the next answer into its cell extends the filled part of the
    table by one. *)
Lemma set_cell_upto (answers : list string) (rows row col : nat)
    (table : list (list string)) (a : string) :
  row < rows -> col < 4 ->
  answers !! (col * rows + row) = Some a ->
  table_upto answers rows (col * rows + row) table ->
  exists table',
    set_cell table row col (str_nat (col * rows + row + 1) +:+ ") " +:+ a)
    = inr table' /\
    table_upto answers rows (S (col * rows + row)) table'.
Proof.
  intros Hrow Hcol Ha [Hlen Hcells].
  destruct (lookup_lt_is_Some_2 table row ltac:(lia)) as [cells Hcells_row].
  assert (Hwidth : col < length cells).
  { pose proof (Hcells row col Hrow Hcol) as H. unfold get_cell in H.
    rewrite Hcells_row in H. eapply lookup_lt_Some, H. }
  unfold set_cell. rewrite Hcells_row.
  destruct (Nat.ltb_spec col (length cells)) as [_|]; [|lia].
  eexists. split; [reflexivity|]. split; [rewrite length_insert; exact Hlen|].
  intros row' col' Hrow' Hcol'. unfold get_cell.
  destruct (decide (row' = row)) as [->|Hne].
  - rewrite list_lookup_insert_eq by lia.
    destruct (decide (col' = col)) as [->|Hnec].
    + rewrite list_lookup_insert_eq by exact Hwidth.
      unfold expected_cell.
      destruct (Nat.ltb_spec (col * rows + row) (S (col * rows + row))); [|lia].
      rewrite Ha. reflexivity.
    + rewrite list_lookup_insert_ne by congruence.
      specialize (Hcells row col' Hrow Hcol'). unfold get_cell in Hcells.
      rewrite Hcells_row in Hcells. rewrite Hcells. f_equal.
      unfold expected_cell.
      assert (Hpos : col' * rows + row <> col * rows + row) by nia.
      destruct (Nat.ltb_spec (col' * rows + row) (col * rows + row));
        destruct (Nat.ltb_spec (col' * rows + row) (S (col * rows + row)));
        try reflexivity; lia.
  - rewrite list_lookup_insert_ne by congruence.
    specialize (Hcells row' col' Hrow' Hcol'). unfold get_cell in Hcells.
    rewrite Hcells. f_equal. unfold expected_cell.
    assert (Hpos : col' * rows + row' <> col * rows + row).
    { intros Heq. apply position_unique in Heq as [_ ?]; [congruence | lia | lia]. }
    destruct (Nat.ltb_spec (col' * rows + row') (col * rows + row));
      destruct (Nat.ltb_spec (col' * rows + row') (S (col * rows + row)));
      try reflexivity; lia.
Qed.

Lemma table_upto_cap (answers : list string) (rows filled filled' : nat)
    (table : list (list string)) :
  length answers <= filled -> length answers <= filled' ->
  table_upto answers rows filled table -> table_upto answers rows filled' table.
Proof.
  intros H1 H2 [Hlen Hcells]. split; [exact Hlen|].
  intros row col Hrow Hcol. rewrite (Hcells row col Hrow Hcol). f_equal.
  unfold expected_cell.
  destruct (Nat.ltb_spec (col * rows + row) filled);
    destruct (Nat.ltb_spec (col * rows + row) filled'); try reflexivity;
    (destruct (answers !! (col * rows + row)) as [a|] eqn:Ha; [|reflexivity]);
    apply lookup_lt_Some in Ha; lia.
Qed.

(** One column: the loop visits its rows in order and stops writing once
    the answers run out. *)
Lemma fill_rows_upto (answers : list string) (rows col n row0 : nat)
    (table : list (list string)) :
  row0 + n = rows -> col < 4 ->
  table_upto answers rows ((col * rows + row0) `min` length answers) table ->
  exists table',
    fill_rows answers (length answers) col (seq row0 n) table
              ((col * rows + row0) `min` length answers)
    = inr (table', (col * rows + rows) `min` length answers) /\
    table_upto answers rows ((col * rows + rows) `min` length answers) table'.
Proof.
  revert row0 table. induction n as [|n IH]; intros row0 table Hn Hcol Hupto.
  - simpl. replace row0 with rows in * by lia. eauto.
  - simpl.
    destruct (Nat.ltb_spec ((col * rows + row0) `min` length answers)
                           (length answers)) as [Hlt|Hge].
    + assert (Hp : (col * rows + row0) `min` length answers = col * rows + row0)
        by lia.
      rewrite Hp in *.
      destruct (lookup_lt_is_Some_2 answers (col * rows + row0) Hlt) as [a Ha].
      unfold cell_text. rewrite Ha.
      destruct (set_cell_upto answers rows row0 col table a ltac:(lia) Hcol Ha Hupto)
        as (table' & -> & Hupto').
      replace (S (col * rows + row0))
        with ((col * rows + S row0) `min` length answers) in * by lia.
      apply IH; [lia | exact Hcol | exact Hupto'].
    + replace ((col * rows + row0) `min` length answers)
        with ((col * rows + S row0) `min` length answers) in * by lia.
      apply IH; [lia | exact Hcol | exact Hupto].
Qed.

Lemma fill_cols_upto (answers : list string) (rows m col0 : nat)
    (table : list (list string)) :
  col0 + m = 4 ->
  table_upto answers rows ((col0 * rows) `min` length answers) table ->
  exists table',
    fill_cols answers (length answers) rows (seq col0 m) table
              ((col0 * rows) `min` length answers)
    = inr (table', (4 * rows) `min` length answers) /\
    table_upto answers rows ((4 * rows) `min` length answers) table'.
Proof.
  revert col0 table. induction m as [|m IH]; intros col0 table Hm Hupto.
  - simpl. replace col0 with 4 in * by lia. eauto.
  - simpl.
    destruct (fill_rows_upto answers rows col0 rows 0 table
                ltac:(lia) ltac:(lia)) as (table' & Hrun & Hupto').
    { rewrite Nat.add_0_r. exact Hupto. }
    rewrite Nat.add_0_r in Hrun. rewrite Hrun.
    replace (col0 * rows + rows) with (S col0 * rows) in * by lia.
    apply IH; [lia | exact Hupto'].
Qed.

End KeyTableFacts.

(** X1.  The answer key is laid out column by column in a table of four
    columns and [ceil(n / 4)] rows: answer number [i + 1] is written, with
    its number, into row [i mod rows] of column [i div rows], which exists;
    every other cell stays empty.  The writer never addresses a cell
    outside the table. *)
Theorem key_table_is_column_major
    (variant_number : nat) (answers : list string) (booklet_id : string) :
  answers <> [] ->
  let rows := (length answers + 3) / 4 in
  exists table,
    Docx.write_key_docx variant_number answers booklet_id
    = inr (Docx.mkDoc None [Docx.key_title variant_number booklet_id] (Some table)) /\
    length table = rows /\
    (forall i a, answers !! i = Some a ->
       i / rows < 4 /\
       Docx.get_cell table (i mod rows) (i / rows)
       = Some (Docx.str_nat (i + 1) +:+ ") " +:+ a)) /\
    (forall row col, row < rows -> col < 4 ->
       length answers <= col * rows + row ->
       Docx.get_cell table row col = Some EmptyString).
Proof.
  intros Hne rows.
  assert (Htotal : 0 < length answers) by (destruct answers; [congruence | simpl; lia]).
  assert (Hrows : length answers <= 4 * rows /\ 0 < rows).
  { subst rows. pose proof (Nat.div_mod_eq (length answers + 3) 4) as H.
    pose proof (Nat.mod_upper_bound (length answers + 3) 4 ltac:(lia)). lia. }
  destruct Hrows as [Hfit Hpos].
  destruct (KeyTableFacts.fill_cols_upto answers rows 4 0 (Docx.add_table rows 4)
              eq_refl) as (table & Hrun & [Hlen Hcells]).
  { simpl. apply KeyTableFacts.add_table_upto. }
  exists table. unfold Docx.write_key_docx.
  destruct (Nat.eqb_spec (length answers) 0) as [|_]; [lia|].
  fold rows. change ((0 * rows) `min` length answers) with 0 in Hrun.
  rewrite Hrun.
  split; [reflexivity|]. split; [exact Hlen|]. split.
  - intros i a Ha. pose proof (lookup_lt_Some _ _ _ Ha) as Hi.
    pose proof (Nat.div_mod_eq i rows) as Hdiv.
    pose proof (Nat.mod_upper_bound i rows ltac:(lia)) as Hmod.
    assert (Hcol : i / rows < 4) by nia.
    split; [exact Hcol|].
    rewrite (Hcells (i mod rows) (i / rows) Hmod Hcol).
    unfold Layout.expected_cell.
    replace (i / rows * rows + i mod rows) with i by lia.
    destruct (Nat.ltb_spec i ((4 * rows) `min` length answers)); [|lia].
    rewrite Ha. reflexivity.
  - intros row col Hrow Hcol Hbeyond.
    rewrite (Hcells row col Hrow Hcol). unfold Layout.expected_cell.
    destruct (Nat.ltb_spec (col * rows + row) ((4 * rows) `min` length answers));
      [lia | reflexivity].
Qed.

Lemma key_table_is_column_major_witness :
  let answers := ["A"; "B"; "C"; "D"; "A"; ""; "B"] in
  let rows := (length answers + 3) / 4 in
  exists table,
    Docx.write_key_docx 7 answers "1234567"
    = inr (Docx.mkDoc None [Docx.key_title 7 "1234567"] (Some table)) /\
    length table = rows /\
    (forall i a, answers !! i = Some a ->
       i / rows < 4 /\
       Docx.get_cell table (i mod rows) (i / rows)
       = Some (Docx.str_nat (i + 1) +:+ ") " +:+ a)) /\
    (forall row col, row < rows -> col < 4 ->
       length answers <= col * rows + row ->
       Docx.get_cell table row col = Some EmptyString).
Proof.
  apply (key_table_is_column_major 7 ["A"; "B"; "C"; "D"; "A"; ""; "B"] "1234567").
  discriminate.
Defined.

(** ** The booklet and the key *)

Module BookletFacts.
Import Docx PyStrFacts.

Lemma label_cases (l : string) :
  l ∈ LABELS -> l = "A" \/ l = "B" \/ l = "C" \/ l = "D".
Proof.
  intros H. repeat (apply elem_of_cons in H as [H|H]; [auto|]). inversion H.
Qed.

(** A printed option line determines its letter and its text. *)
Lemma option_line_inj (l l' t t' : string) :
  l ∈ LABELS -> l' ∈ LABELS ->
  l +:+ ") " +:+ t = l' +:+ ") " +:+ t' -> l = l' /\ t = t'.
Proof.
  intros Hl Hl' H.
  apply label_cases in Hl as [-> | [-> | [-> | ->]]];
    apply label_cases in Hl' as [-> | [-> | [-> | ->]]];
    rewrite !append_cons, !append_nil in H;
    first [discriminate | (injection H; intros; subst; split; reflexivity)].
Qed.

(** The option lines of a question are those of its non-empty slots. *)
Lemma option_printed (q : question_out) (l t : string) :
  l ∈ LABELS ->
  (mkPar (l +:+ ") " +:+ t) false (Some 0) ∈ option_paragraphs q <->
   q_get q l = Some t /\ t <> EmptyString).
Proof.
  intros Hl. unfold option_paragraphs.
  rewrite list_elem_of_In, in_flat_map. split.
  - intros (l' & Hl' & Hin). apply list_elem_of_In in Hl'.
    assert (Hget : exists t', q_get q l' = Some t').
    { apply label_cases in Hl' as [-> | [-> | [-> | ->]]]; simpl; eauto. }
    destruct Hget as [t' Ht']. rewrite Ht' in Hin. simpl in Hin.
    destruct (PyStr.truthy t') eqn:Htruthy; [|destruct Hin].
    destruct Hin as [Heq|[]]. injection Heq as Heq.
    apply option_line_inj in Heq as [-> ->]; [|assumption..].
    split; [exact Ht' | apply truthy_true, Htruthy].
  - intros [Hget Hne]. exists l. split; [apply list_elem_of_In, Hl|].
    rewrite Hget. simpl. apply truthy_true in Hne. rewrite Hne. left. reflexivity.
Qed.

End BookletFacts.

(** X2.  In [TestVariant-W.py], for a record whose correct text is one of
    its non-blank options, the booklet prints that text as an option line
    under exactly the letter the answer key records for the question. *)
Theorem key_letter_is_printed_with_answer
    (qtext : string) (opts : list string) (corr : string) (g : rng) :
  length opts <= 4 -> corr ∈ opts -> PyStr.strip corr <> EmptyString ->
  exists q label g',
    W.shuffle_options (qtext, opts, corr) g = inr ((q, label), g') /\
    Docx.mkPar (label +:+ ") " +:+ corr) false (Some 0)
      ∈ Docx.option_paragraphs q.
Proof.
  intros Hlen Hin Hblank.
  destruct (ShuffleFacts.W_label_points_at_correct qtext opts corr g Hlen Hin Hblank)
    as (q & label & g' & Hrun & Hlabel & Hget).
  exists q, label, g'. split; [exact Hrun|].
  apply BookletFacts.option_printed; [exact Hlabel|].
  split; [exact Hget|]. apply PyStrFacts.strip_nonempty_arg, Hblank.
Qed.

Lemma key_letter_is_printed_with_answer_witness :
  exists q label g',
    W.shuffle_options ("2+2?", ["4"; "5"; "6"; ""], "4") [2; 1; 1]
    = inr ((q, label), g') /\
    Docx.mkPar (label +:+ ") " +:+ "4") false (Some 0)
      ∈ Docx.option_paragraphs q.
Proof.
  apply (key_letter_is_printed_with_answer "2+2?" ["4"; "5"; "6"; ""] "4" [2; 1; 1]).
  - simpl. lia.
  - apply elem_of_cons. left. reflexivity.
  - discriminate.
Defined.

(** X3.  For a row whose first option column is empty
    [TestVariant-W.py] records a letter in the key, but the booklet has no
    option line under that letter: the writer skips the empty slot the
    letter names. *)
Theorem key_letter_of_empty_answer_is_not_printed
    (qtext : string) (opts : list string) (g : rng) :
  length opts = 4 -> opts !! 0 = Some EmptyString ->
  exists q label g',
    W.shuffle_options (qtext, opts, EmptyString) g = inr ((q, label), g') /\
    label ∈ LABELS /\
    forall t, Docx.mkPar (label +:+ ") " +:+ t) false (Some 0)
              ∉ Docx.option_paragraphs q.
Proof.
  intros Hlen H0.
  destruct (Logic.spec_total _ _ _ g
              (ShuffleFacts.W_spec_shuffle_options qtext opts EmptyString ltac:(lia)))
    as ([q label] & g' & Hrun & _ & Hperm & Hlabel).
  cbn [fst snd] in Hperm, Hlabel.
  assert (Hin : EmptyString ∈ Shape.layout q).
  { rewrite Hperm. apply UIFacts.pad4_elem. right. split; [reflexivity|].
    apply ShuffleFacts.filter_drops_empty; auto. }
  destruct (ShuffleFacts.label_of_shuffled q EmptyString label Hin Hlabel)
    as [Hl Hget].
  exists q, label, g'. split; [exact Hrun|]. split; [exact Hl|].
  intros t Hprinted.
  apply BookletFacts.option_printed in Hprinted as [Hget' Hne]; [|exact Hl].
  congruence.
Qed.

Lemma key_letter_of_empty_answer_is_not_printed_witness :
  exists q label g',
    W.shuffle_options ("2+2?", [""; "5"; "6"; "7"], "") [1; 2; 0]
    = inr ((q, label), g') /\
    label ∈ LABELS /\
    forall t, Docx.mkPar (label +:+ ") " +:+ t) false (Some 0)
              ∉ Docx.option_paragraphs q.
Proof.
  apply (key_letter_of_empty_answer_is_not_printed "2+2?" [""; "5"; "6"; "7"] [1; 2; 0]);
    reflexivity.
Defined.

(** ** Every key entry names the right slot *)

Module KeyFacts.
Import UI Random Logic RandomFacts Shape LoopFacts Keyed.

Section Pass.
Context {R : Type}.
Variable quota : M (list R).
Variable extra : list R -> M (list R).
Variable opt : R -> M (question_out * string).
Variable QCOUNT : Z.
Variable good : R -> Prop.
Variable made : R -> question_out * string -> Prop.
Variables n1 n2 : nat.

Hypothesis Hquota :
  spec quota n1 (fun sel => length sel = n1 /\ Forall good sel).
Hypothesis Hextra : forall sel,
  length sel = n1 -> Forall good sel ->
  spec (extra sel) n2 (fun sel' => length sel' = n1 + n2 /\ Forall good sel').
Hypothesis Hopt : forall r, good r -> spec (opt r) 3 (made r).
Hypothesis HQ : (0 <= QCOUNT)%Z.

(** One pass pairs every question it keeps, position by position, with a
    selected row it was made from. *)
Lemma spec_loop_body_made :
  spec (loop_body quota extra opt QCOUNT)
       (n1 + (n2 + ((n1 + n2 - 1)
                    + ((Z.to_nat QCOUNT `min` (n1 + n2)) * 3 + 7))))
       (fun x => exists rows,
            Forall good rows /\
            Forall2 made rows (zip (final_q x) (key x))).
Proof.
  unfold loop_body.
  eapply spec_bind; [exact Hquota|]. intros sel1 [Hl1 Hg1].
  eapply spec_bind; [apply Hextra; assumption|]. intros sel2 [Hl2 Hg2].
  eapply spec_bind.
  { rewrite <- Hl2. apply spec_shuffle. }
  intros sel3 Hperm. cbv beta in Hperm.
  assert (Hg3 : Forall good sel3) by (rewrite Hperm; exact Hg2).
  assert (Hl3 : length sel3 = n1 + n2) by (rewrite Hperm; exact Hl2).
  eapply spec_bind.
  { rewrite slice_to_nonneg by exact HQ.
    replace ((Z.to_nat QCOUNT `min` (n1 + n2)) * 3)
      with (length (take (Z.to_nat QCOUNT) sel3) * 3)
      by (rewrite length_take, Hl3; reflexivity).
    apply (spec_mapM opt _ 3 made).
    intros r Hr. apply Hopt.
    apply (subseteq_take (Z.to_nat QCOUNT) sel3) in Hr.
    rewrite Forall_forall in Hg3. apply Hg3, Hr. }
  intros qk Hqk. cbv beta in Hqk.
  eapply spec_bind0; [apply spec_choices, digits_nonempty|].
  intros b _.
  eapply spec_weaken; [apply spec_ret|]. intros ? ->.
  exists (take (Z.to_nat QCOUNT) sel3). split; [apply Forall_take, Hg3|].
  unfold assemble. simpl. rewrite zip_fst_snd. exact Hqk.
Qed.

End Pass.

Lemma filter_all {A} (f : A -> bool) (l : list A) :
  length l <= length (List.filter f l) ->
  List.filter f l = l /\ Forall (fun a => f a = true) l.
Proof.
  induction l as [|a l IH]; simpl; [split; [reflexivity | constructor]|].
  destruct (f a) eqn:Hfa; simpl; intros Hlen.
  - destruct (IH ltac:(lia)) as [Heq Hall]. rewrite Heq.
    split; [reflexivity | constructor; assumption].
  - pose proof (UIFacts.filter_length_le f l). lia.
Qed.

Lemma filter_id {A} (f : A -> bool) (l : list A) :
  Forall (fun a => f a = true) l -> List.filter f l = l.
Proof.
  induction 1 as [|a l Ha _ IH]; simpl; [reflexivity|]. rewrite Ha, IH. reflexivity.
Qed.

(** A row that passed validation: shuffling shows its four options and the
    letter names the correct one. *)
Lemma V_spec_keyed (r : row) :
  well_formed r -> row_ok r -> spec (V.shuffle_options r) 3 (keyed r).
Proof.
  destruct r as [[qtext opts] corr]. intros [Hlen H0] (_ & Hcorr & Hfour).
  destruct (filter_all (fun o => PyStr.truthy (PyStr.strip o)) opts ltac:(lia))
    as [_ Hall].
  assert (Hkeep : List.filter PyStr.truthy opts = opts).
  { apply filter_id. eapply Forall_impl; [exact Hall|].
    intros o Ho. apply PyStrFacts.truthy_true, PyStrFacts.strip_nonempty_arg.
    apply PyStrFacts.truthy_true, Ho. }
  eapply spec_weaken; [apply ShuffleFacts.V_spec_shuffle_options; lia|].
  intros [q label] (Hq & Hperm & Hlabel). cbn [fst snd] in *.
  rewrite Hkeep in Hperm. unfold pad4 in Hperm.
  rewrite Hlen in Hperm. simpl in Hperm. rewrite app_nil_r in Hperm.
  unfold keyed. cbn [fst snd]. split; [exact Hq|]. split; [exact Hperm|].
  apply ShuffleFacts.label_of_present.
  - rewrite Hperm. eapply list_elem_of_lookup_2, H0.
  - destruct (index_of corr (layout q)) as [e|i] eqn:Hidx; [|exact Hlabel].
    apply UIFacts.index_of_inl in Hidx as [_ Hnot]. apply Hnot.
    rewrite Hperm. eapply list_elem_of_lookup_2, H0.
Qed.

Lemma W_spec_keyed (r : row) :
  well_formed r -> spec (W.shuffle_options r) 3 (keyed_W r).
Proof.
  destruct r as [[qtext opts] corr]. intros [Hlen H0].
  eapply spec_weaken; [apply ShuffleFacts.W_spec_shuffle_options; lia|].
  intros [q label] (Hq & Hperm & Hlabel). cbn [fst snd] in *.
  unfold keyed_W. cbn [fst snd]. split; [exact Hq|]. split; [exact Hperm|].
  intros Hblank. apply ShuffleFacts.label_of_shuffled; [|exact Hlabel].
  rewrite Hperm. apply UIFacts.pad4_elem. left.
  apply list_elem_of_In, filter_In. split.
  - apply list_elem_of_In. eapply list_elem_of_lookup_2, H0.
  - apply andb_true_iff. split; apply PyStrFacts.truthy_true; [|exact Hblank].
    apply PyStrFacts.strip_nonempty_arg, Hblank.
Qed.

End KeyFacts.

Module RunFacts.
Import UI Random Logic RandomFacts Shape LoopFacts DrawFacts Keyed KeyFacts.

Lemma concat_row_ok (F : Z) (sheets : list (list row)) :
  Forall (sheet_ok F) sheets -> Forall row_ok (concat sheets).
Proof.
  induction 1 as [|rows sheets [_ Hrows] _ IH]; simpl;
    [constructor | apply Forall_app; auto].
Qed.

Lemma pool_quota (sheets : list (list row)) (F : Z) :
  (0 <= F)%Z ->
  spec (V.quota_loop sheets F []) (V_quota F sheets)
       (fun sel => length sel = V_quota F sheets /\
                   Forall (fun r => r ∈ concat sheets) sel).
Proof.
  intros HF. eapply spec_weaken; [apply V_spec_quota_loop, HF|].
  intros sel (picks & -> & Hl & Hin). simpl. split; [exact Hl|].
  apply Forall_forall, Hin.
Qed.

Lemma pool_extra (pool : list row) (E : Z) (n1 : nat) (sel : list row) :
  (0 <= E)%Z -> length sel = n1 -> Forall (fun r => r ∈ pool) sel ->
  spec (V.extra_step pool E sel) (V_extra E pool)
       (fun sel' => length sel' = n1 + V_extra E pool /\
                    Forall (fun r => r ∈ pool) sel').
Proof.
  intros HE Hl Hsel. eapply spec_weaken; [apply V_spec_extra_step, HE|].
  intros sel' (picks & -> & Hlp & Hin). rewrite length_app. split; [lia|].
  apply Forall_app. split; [exact Hsel | apply Forall_forall, Hin].
Qed.

Lemma W_pool_quota (sheets pool_sheets : list (list row)) (F : Z) :
  (0 <= F)%Z -> sheets ⊆ pool_sheets ->
  spec (W.quota_loop sheets F []) (W_quota F sheets)
       (fun sel => length sel = W_quota F sheets /\
                   Forall (fun r => r ∈ concat pool_sheets) sel).
Proof.
  intros HF Hsub. eapply spec_weaken; [apply W_spec_quota_loop, HF|].
  intros sel (picks & -> & Hl & Hin). simpl. split; [exact Hl|].
  apply Forall_forall. intros x Hx. apply Hin in Hx.
  apply list_elem_of_In, in_concat in Hx as (rows & Hrows & Hx).
  apply list_elem_of_In, in_concat. exists rows. split; [|exact Hx].
  apply list_elem_of_In, Hsub, list_elem_of_In, Hrows.
Qed.

Lemma W_pool_extra (pool : list row) (E : Z) (n1 : nat) (sel : list row) :
  (0 <= E)%Z -> length sel = n1 -> Forall (fun r => r ∈ pool) sel ->
  spec (W.extra_step pool E sel) (W_extra E pool)
       (fun sel' => length sel' = n1 + W_extra E pool /\
                    Forall (fun r => r ∈ pool) sel').
Proof.
  intros HE Hl Hsel. eapply spec_weaken; [apply W_spec_extra_step, HE|].
  intros sel' (picks & -> & Hlp & Hin). rewrite length_app. split; [lia|].
  apply Forall_app. split; [exact Hsel | apply Forall_forall, Hin].
Qed.

End RunFacts.

(** X4.  When the bank passes validation, every question of every variant
    [TestApp-With-Validation.py] writes is made from a row of the bank:
    it carries that row's text, its slots A..D are the row's four options
    in some order, and the answer-key entry at the same position is the
    letter of the slot holding the row's correct answer. *)
Theorem validated_key_names_correct_option
    (xls : workbook) (VC Q S F : Z) (g : rng) (sheets : list (list UI.row)) :
  (0 <= Q)%Z -> (0 <= F)%Z ->
  UI.load_sheets (slice_to xls S) = inr sheets ->
  V.validate_question_bank sheets (map fst (slice_to xls S)) F = inr [] ->
  exists files,
    V.start_generation xls VC Q S F g = Finished files /\
    Forall (fun f => exists rows,
                Forall (fun r => r ∈ concat sheets) rows /\
                Forall2 Keyed.keyed rows (zip (final_q f.2) (key f.2)))
           files.
Proof.
  intros HQ HF Hload Hval.
  destruct (UIFacts.load_sheets_well_formed _ _ Hload) as [_ Hwf].
  pose proof (ValidationFacts.validate_from_accepts _ _ _ _ Hval) as Hok.
  pose proof (DrawFacts.concat_well_formed _ Hwf) as Hwf_pool.
  pose proof (RunFacts.concat_row_ok _ _ Hok) as Hok_pool.
  rewrite Forall_forall in Hwf_pool, Hok_pool.
  assert (Hbody :
    spec (V.variant_body sheets (concat sheets) Q S F)
         (V_quota F sheets
          + (V_extra (UI.EXTRA Q S F) (concat sheets)
             + ((V_quota F sheets + V_extra (UI.EXTRA Q S F) (concat sheets) - 1)
                + ((Z.to_nat Q
                    `min` (V_quota F sheets
                           + V_extra (UI.EXTRA Q S F) (concat sheets))) * 3 + 7))))
         (fun x => exists rows,
              Forall (fun r => r ∈ concat sheets) rows /\
              Forall2 Keyed.keyed rows (zip (final_q x) (key x)))).
  { change (V.variant_body sheets (concat sheets) Q S F)
      with (loop_body (V.quota_loop sheets F [])
              (V.extra_step (concat sheets) (UI.EXTRA Q S F))
              V.shuffle_options Q).
    apply KeyFacts.spec_loop_body_made.
    - apply RunFacts.pool_quota, HF.
    - intros sel Hl Hsel. apply RunFacts.pool_extra; auto.
      unfold UI.EXTRA. lia.
    - intros r Hr. apply KeyFacts.V_spec_keyed; auto.
    - exact HQ. }
  destruct (LoopFacts.gen_loop_total _ _ _ (Z.to_nat VC) 1 g Hbody)
    as (files & Hrun & _ & Hall).
  exists files. split; [|exact Hall].
  unfold V.start_generation. rewrite Hload, Hval.
  unfold run_loop. rewrite Hrun. reflexivity.
Qed.

Lemma validated_key_names_correct_option_witness :
  exists files,
    V.start_generation Example.book 2 3 1 2 [3; 1; 4; 1; 5] = Finished files /\
    Forall (fun f => exists rows,
                Forall (fun r => r ∈ concat [Example.rows1]) rows /\
                Forall2 Keyed.keyed rows (zip (final_q f.2) (key f.2)))
           files.
Proof.
  apply (validated_key_names_correct_option Example.book 2 3 1 2 [3; 1; 4; 1; 5]
           [Example.rows1]);
    first [lia | reflexivity].
Defined.

(** X5.  [TestVariant-W.py] validates nothing, yet every run with a
    positive variant count completes, and every question it writes is made
    from a loaded row: it carries the row's text, its slots are the row's
    non-blank options padded with empty strings, in some order, and
    whenever the row's correct answer is not blank the key entry at the
    same position is the letter of the slot holding it. *)
Theorem unvalidated_key_names_correct_option
    (xls : workbook) (VC Q S F : Z) (g : rng) (sheets : list (list UI.row)) :
  (0 < VC)%Z -> (0 <= Q)%Z -> (0 <= F)%Z ->
  UI.load_sheets (slice_to xls S) = inr sheets ->
  exists files,
    W.start_generation xls VC Q S F g = Finished files /\
    Forall (fun f => exists rows,
                Forall (fun r => r ∈ concat sheets) rows /\
                Forall2 Keyed.keyed_W rows (zip (final_q f.2) (key f.2)))
           files.
Proof.
  intros HVC HQ HF Hload.
  destruct (UIFacts.load_sheets_well_formed _ _ Hload) as [_ Hwf].
  pose proof (DrawFacts.concat_well_formed _ Hwf) as Hwf_pool.
  rewrite Forall_forall in Hwf_pool.
  assert (Hbody :
    spec (W.variant_body sheets (concat sheets) Q S F)
         (W_quota F (slice_to sheets S)
          + (W_extra (UI.EXTRA Q S F) (concat sheets)
             + ((W_quota F (slice_to sheets S)
                 + W_extra (UI.EXTRA Q S F) (concat sheets) - 1)
                + ((Z.to_nat Q
                    `min` (W_quota F (slice_to sheets S)
                           + W_extra (UI.EXTRA Q S F) (concat sheets))) * 3 + 7))))
         (fun x => exists rows,
              Forall (fun r => r ∈ concat sheets) rows /\
              Forall2 Keyed.keyed_W rows (zip (final_q x) (key x)))).
  { change (W.variant_body sheets (concat sheets) Q S F)
      with (loop_body (W.quota_loop (slice_to sheets S) F [])
              (W.extra_step (concat sheets) (UI.EXTRA Q S F))
              W.shuffle_options Q).
    apply KeyFacts.spec_loop_body_made.
    - apply RunFacts.W_pool_quota; [exact HF | apply BodyFacts.slice_to_subseteq].
    - intros sel Hl Hsel. apply RunFacts.W_pool_extra; auto.
      unfold UI.EXTRA. lia.
    - intros r Hr. apply KeyFacts.W_spec_keyed; auto.
    - exact HQ. }
  destruct (LoopFacts.gen_loop_total _ _ _ (Z.to_nat VC) 1 g Hbody)
    as (files & Hrun & _ & Hall).
  exists files. split; [|exact Hall].
  unfold W.start_generation. rewrite Hload.
  destruct (Z.leb_spec VC 0); [lia|].
  unfold run_loop. rewrite Hrun. reflexivity.
Qed.

Lemma unvalidated_key_names_correct_option_witness :
  exists files,
    W.start_generation Example.book 2 3 1 2 [3; 1; 4; 1; 5] = Finished files /\
    Forall (fun f => exists rows,
                Forall (fun r => r ∈ concat [Example.rows1]) rows /\
                Forall2 Keyed.keyed_W rows (zip (final_q f.2) (key f.2)))
           files.
Proof.
  apply (unvalidated_key_names_correct_option Example.book 2 3 1 2 [3; 1; 4; 1; 5]
           [Example.rows1]);
    first [lia | reflexivity].
Defined.

(** ** Drawing without replacement *)

Module SampleFacts.
Import UI Random Logic RandomFacts Shape DrawFacts.

Lemma insert_Permutation {A} (l : list A) (j : nat) (z : A) :
  j < length l -> <[j:=z]> l ≡ₚ z :: delete j l.
Proof.
  intros Hj. rewrite insert_take_drop by exact Hj.
  rewrite delete_take_drop. symmetry. apply Permutation_middle.
Qed.

(** One round of the selection loop: the row taken leaves the part of the
    pool still to draw from. *)
Lemma pool_round {A} (pool : list A) (m j : nat) (a z : A) :
  j <= m -> pool !! j = Some a -> pool !! m = Some z ->
  take (S m) pool ≡ₚ a :: take m (<[j:=z]> pool).
Proof.
  intros Hj Ha Hz. rewrite (take_S_r pool m z Hz).
  destruct (decide (j = m)) as [->|Hne].
  - assert (a = z) as -> by congruence.
    rewrite list_insert_id by exact Hz.
    rewrite <- Permutation_cons_append. reflexivity.
  - rewrite take_insert_lt by lia.
    assert (Hja : take m pool !! j = Some a).
    { rewrite lookup_take_lt by lia. exact Ha. }
    rewrite insert_Permutation by (eapply lookup_lt_Some, Hja).
    rewrite <- Permutation_cons_append.
    rewrite (delete_Permutation (take m pool) j a Hja) at 1.
    apply Permutation_swap.
Qed.

Lemma sample_loop_distinct {A} (todo i n : nat) (pool : list A) :
  length pool = n -> todo + i <= n ->
  spec (sample_loop todo i n pool) todo
       (fun res => exists rest, res ++ rest ≡ₚ take (n - i) pool).
Proof.
  revert i pool. induction todo as [|todo IH]; intros i pool Hlen Hle; simpl.
  - eapply spec_weaken; [apply spec_ret|]. intros ? ->.
    exists (take (n - i) pool). reflexivity.
  - eapply (spec_bind_eq _ _ 1 todo);
      [reflexivity | apply (spec_randbelow (n - i)); lia |].
    intros j Hj. cbv beta in Hj |- *.
    eapply (spec_bind_eq _ _ 0 todo); [reflexivity | apply spec_getitem; lia |].
    intros a Ha. cbv beta in Ha |- *.
    eapply (spec_bind_eq _ _ 0 todo); [reflexivity | apply spec_getitem; lia |].
    intros z Hz. cbv beta in Hz |- *.
    eapply spec_bind0.
    + apply (IH (S i) (<[j:=z]> pool)); [rewrite length_insert|]; lia.
    + intros res [rest Hperm]. eapply spec_weaken; [apply spec_ret|].
      intros ? ->. exists rest. simpl.
      replace (n - i) with (S (n - i - 1)) by lia.
      rewrite (pool_round pool (n - i - 1) j a z ltac:(lia) Ha Hz).
      replace (n - S i) with (n - i - 1) in Hperm by lia.
      rewrite Hperm. reflexivity.
Qed.

(** [random.sample] returns rows at distinct positions: together with the
    rows it leaves they make up the population. *)
Lemma sample_distinct {A} (population : list A) (k : Z) :
  (0 <= k <= Z.of_nat (length population))%Z ->
  spec (sample population k) (Z.to_nat k)
       (fun res => length res = Z.to_nat k /\
                   exists rest, res ++ rest ≡ₚ population).
Proof.
  intros Hk.
  assert (H1 := spec_sample population k Hk).
  assert (H2 : spec (sample population k) (Z.to_nat k)
                 (fun res => exists rest, res ++ rest ≡ₚ population)).
  { unfold sample.
    replace ((0 <=? k)%Z && (k <=? Z.of_nat (length population))%Z) with true
      by (symmetry; apply andb_true_iff; split; apply Z.leb_le; lia).
    eapply spec_weaken.
    - apply sample_loop_distinct; [reflexivity | lia].
    - intros res [rest Hperm]. exists rest.
      rewrite Nat.sub_0_r, firstn_all in Hperm. exact Hperm. }
  split; [|apply H1].
  intros g. destruct (spec_total _ _ _ g H1) as (a & g' & Hrun & Hl & _).
  destruct (spec_total _ _ _ g H2) as (a' & g'' & Hrun' & Hrest).
  rewrite Hrun in Hrun'. injection Hrun' as <- <-.
  exists a, g'. auto.
Qed.

Lemma V_quota_distinct (sheets : list (list row)) (F : Z) (selected : list row) :
  (0 <= F)%Z ->
  spec (V.quota_loop sheets F selected) (V_quota F sheets)
       (fun sel => exists groups,
            sel = selected ++ concat groups /\
            Forall2 (fun rows picks =>
                       length picks
                       = Z.to_nat (Z.min F (Z.of_nat (length rows))) /\
                       exists rest, picks ++ rest ≡ₚ rows)
                    sheets groups).
Proof.
  intros HF. revert selected.
  induction sheets as [|rows sheets IH]; intros selected; simpl.
  - eapply spec_weaken; [apply spec_ret|]. intros ? ->.
    exists []. rewrite app_nil_r. split; [reflexivity | constructor].
  - rewrite V_quota_cons. destruct (is_empty rows) eqn:He.
    + apply is_empty_true in He as ->. simpl.
      rewrite Z.min_r by exact HF. simpl.
      eapply spec_weaken; [apply IH|].
      intros sel (groups & -> & Hall). exists ([] :: groups). split.
      * reflexivity.
      * constructor; [|exact Hall]. rewrite Z.min_r by exact HF.
        split; [reflexivity|]. exists []. reflexivity.
    + eapply spec_bind.
      { apply sample_distinct. lia. }
      intros pick [Hl Hrest]. eapply spec_weaken; [apply IH|].
      intros sel (groups & -> & Hall). exists (pick :: groups). split.
      * simpl. rewrite app_assoc. reflexivity.
      * constructor; [|exact Hall]. split; assumption.
Qed.

End SampleFacts.

(** X6.  [TestApp-With-Validation.py] never draws a row of a sheet twice
    for the quota: from every sheet it takes [min(FROM_FIRST, rows)] rows
    at distinct positions, sheet after sheet, so that the picks of a sheet
    together with the rows left over make up the sheet. *)
Theorem quota_is_drawn_without_replacement
    (sheets : list (list UI.row)) (F : Z) (g : rng) :
  (0 <= F)%Z ->
  exists groups g',
    V.quota_loop sheets F [] g = inr (concat groups, g') /\
    Forall2 (fun rows picks =>
               length picks = Z.to_nat (Z.min F (Z.of_nat (length rows))) /\
               exists rest, picks ++ rest ≡ₚ rows)
            sheets groups.
Proof.
  intros HF.
  destruct (Logic.spec_total _ _ _ g (SampleFacts.V_quota_distinct sheets F [] HF))
    as (sel & g' & Hrun & groups & -> & Hall).
  exists groups, g'. split; [exact Hrun | exact Hall].
Qed.

Lemma quota_is_drawn_without_replacement_witness :
  exists groups g',
    V.quota_loop [Example.rows1; []] 1 [] [5; 3] = inr (concat groups, g') /\
    Forall2 (fun rows picks =>
               length picks = Z.to_nat (Z.min 1 (Z.of_nat (length rows))) /\
               exists rest, picks ++ rest ≡ₚ rows)
            [Example.rows1; []] groups.
Proof.
  apply (quota_is_drawn_without_replacement [Example.rows1; []] 1 [5; 3]). lia.
Defined.

(** X7.  [TestVariant-W.py] fills the quota of a sheet that is too short by
    drawing with replacement, and then a repeat is certain: the picks from
    a non-empty sheet with fewer rows than the quota are [FROM_FIRST] rows
    of that sheet, and some row occurs among them twice. *)
Theorem short_sheet_repeats_a_row (rows : list UI.row) (F : Z) (g : rng) :
  rows <> [] -> (Z.of_nat (length rows) < F)%Z ->
  exists picks g',
    W.pick_rows rows F g = inr (picks, g') /\
    length picks = Z.to_nat F /\
    (forall x, x ∈ picks -> x ∈ rows) /\
    ~ NoDup picks.
Proof.
  intros Hne Hshort.
  destruct (Logic.spec_total _ _ _ g
              (DrawFacts.W_spec_pick_rows rows F Hne ltac:(lia)))
    as (picks & g' & Hrun & Hl & Hin).
  exists picks, g'. repeat split; try assumption.
  intros Hnodup.
  pose proof (submseteq_length _ _ (NoDup_submseteq picks rows Hnodup Hin)). lia.
Qed.

Lemma short_sheet_repeats_a_row_witness :
  exists picks g',
    W.pick_rows Example.rows1 3 [0; 1; 1] = inr (picks, g') /\
    length picks = Z.to_nat 3 /\
    (forall x, x ∈ picks -> x ∈ Example.rows1) /\
    ~ NoDup picks.
Proof.
  apply (short_sheet_repeats_a_row Example.rows1 3 [0; 1; 1]).
  - discriminate.
  - simpl. lia.
Defined.

(** ** Runs that write nothing *)

Module AbortFacts.
Import UI Random Logic RandomFacts Shape DrawFacts.

Lemma W_quota_negative (sheets : list (list row)) (F : Z)
    (selected : list row) (g : rng) :
  (F < 0)%Z -> Exists (fun rows => rows <> []) sheets ->
  W.quota_loop sheets F selected g = inl ValueError.
Proof.
  intros HF Hex. revert selected g.
  induction sheets as [|rows sheets IH]; intros selected g; [inversion Hex|].
  simpl. destruct (is_empty rows) eqn:He.
  - apply is_empty_true in He as ->. apply IH.
    inversion Hex as [? ? Hne|]; [congruence | assumption].
  - unfold bind, W.pick_rows.
    destruct (Z.leb_spec F (Z.of_nat (length rows))); [|lia].
    rewrite sample_out_of_bounds by lia. reflexivity.
Qed.

Lemma V_quota_negative (sheets : list (list row)) (F : Z)
    (selected : list row) (g : rng) :
  (F < 0)%Z -> Exists (fun rows => rows <> []) sheets ->
  V.quota_loop sheets F selected g = inl ValueError.
Proof.
  intros HF Hex. revert selected g.
  induction sheets as [|rows sheets IH]; intros selected g; [inversion Hex|].
  simpl. destruct (is_empty rows) eqn:He.
  - apply is_empty_true in He as ->. apply IH.
    inversion Hex as [? ? Hne|]; [congruence | assumption].
  - unfold bind. rewrite sample_out_of_bounds by lia. reflexivity.
Qed.

Lemma gen_loop_first_fails (body : M variant) (e : pyexc) (todo v : nat) (g : rng) :
  0 < todo -> body g = inl e -> gen_loop body todo v g = ([], Some e).
Proof.
  intros Htodo Hbody. destruct todo as [|todo]; [lia|].
  simpl. rewrite Hbody. reflexivity.
Qed.

End AbortFacts.

(** X8.  Validation is the gate of [TestApp-With-Validation.py]: when some
    loaded sheet has fewer rows than the quota or holds an incomplete row,
    the run stops with an error dialog showing the first ten messages of
    the validator (at least one), and no variant is generated. *)
Theorem invalid_bank_is_rejected
    (xls : workbook) (VC Q S F : Z) (g : rng) (sheets : list (list UI.row)) :
  UI.load_sheets (slice_to xls S) = inr sheets ->
  ~ Forall (sheet_ok F) sheets ->
  exists errors,
    V.validate_question_bank sheets (map fst (slice_to xls S)) F = inr errors /\
    errors <> [] /\
    V.start_generation xls VC Q S F g = Rejected (take 10 errors) /\
    0 < length (take 10 errors) <= 10.
Proof.
  intros Hload Hbad.
  destruct (UIFacts.load_sheets_well_formed _ _ Hload) as [Hlen _].
  destruct (ValidationFacts.validate_from_spec 0 sheets
              (map fst (slice_to xls S)) F) as (errors & Hval & Hiff).
  { rewrite length_map. simpl. lia. }
  exists errors. split; [exact Hval|].
  assert (Hne : errors <> []) by (intros ->; apply Hbad, Hiff; reflexivity).
  split; [exact Hne|]. split.
  - unfold V.start_generation. rewrite Hload.
    unfold V.validate_question_bank in *. rewrite Hval.
    destruct errors as [|e errors]; [congruence | reflexivity].
  - rewrite length_take. destruct errors; [congruence|]. cbn [length]. lia.
Qed.

Lemma invalid_bank_is_rejected_witness :
  exists errors,
    V.validate_question_bank [Example.rows1] (map fst (slice_to Example.book 1)) 3
    = inr errors /\
    errors <> [] /\
    V.start_generation Example.book 5 10 1 3 [1; 2] = Rejected (take 10 errors) /\
    0 < length (take 10 errors) <= 10.
Proof.
  apply (invalid_bank_is_rejected Example.book 5 10 1 3 [1; 2] [Example.rows1]).
  - reflexivity.
  - intros H. inversion H as [|? ? [Hle _] _]; subst. simpl in Hle. lia.
Defined.

(** X9.  [TestVariant-W.py] does not refuse a negative per-sheet quota: as
    soon as one of the sheets it draws from has a row, the first quota
    draw raises [ValueError], the run ends in the error dialog and not a
    single variant is written. *)
Theorem negative_quota_aborts_the_run
    (xls : workbook) (VC Q S F : Z) (g : rng) (sheets : list (list UI.row)) :
  (0 < VC)%Z -> (F < 0)%Z ->
  UI.load_sheets (slice_to xls S) = inr sheets ->
  Exists (fun rows => rows <> []) (slice_to sheets S) ->
  W.start_generation xls VC Q S F g = Failed [] ValueError.
Proof.
  intros HVC HF Hload Hex. unfold W.start_generation. rewrite Hload.
  destruct (Z.leb_spec VC 0); [lia|].
  unfold run_loop. rewrite (AbortFacts.gen_loop_first_fails _ ValueError);
    [reflexivity | lia |].
  unfold W.variant_body, bind.
  rewrite AbortFacts.W_quota_negative by assumption. reflexivity.
Qed.

Lemma negative_quota_aborts_the_run_witness :
  W.start_generation Example.book 3 10 1 (-2) [4; 4] = Failed [] ValueError.
Proof.
  apply (negative_quota_aborts_the_run Example.book 3 10 1 (-2) [4; 4]
           [Example.rows1]);
    first [lia | reflexivity | (left; discriminate)].
Defined.

(** X10.  In [TestApp-With-Validation.py] a negative quota passes
    validation whenever the rows are complete, since no sheet is shorter
    than it; the run then fails at the first quota draw with [ValueError]
    and writes no variant. *)
Theorem negative_quota_passes_validation_then_aborts
    (xls : workbook) (VC Q S F : Z) (g : rng) (sheets : list (list UI.row)) :
  (0 < VC)%Z -> (F < 0)%Z ->
  UI.load_sheets (slice_to xls S) = inr sheets ->
  Exists (fun rows => rows <> []) sheets ->
  Forall (Forall row_ok) sheets ->
  V.validate_question_bank sheets (map fst (slice_to xls S)) F = inr [] /\
  V.start_generation xls VC Q S F g = Failed [] ValueError.
Proof.
  intros HVC HF Hload Hex Hrows.
  destruct (UIFacts.load_sheets_well_formed _ _ Hload) as [Hlen _].
  destruct (ValidationFacts.validate_from_spec 0 sheets
              (map fst (slice_to xls S)) F) as (errors & Hval & Hiff).
  { rewrite length_map. simpl. lia. }
  assert (errors = []) as ->.
  { apply Hiff. eapply Forall_impl; [exact Hrows|].
    intros rows Hok. split; [lia | exact Hok]. }
  split; [exact Hval|].
  unfold V.start_generation. rewrite Hload.
  unfold V.validate_question_bank in Hval. unfold V.validate_question_bank.
  rewrite Hval.
  unfold run_loop. rewrite (AbortFacts.gen_loop_first_fails _ ValueError);
    [reflexivity | lia |].
  unfold V.variant_body, bind.
  rewrite AbortFacts.V_quota_negative by assumption. reflexivity.
Qed.

Lemma negative_quota_passes_validation_then_aborts_witness :
  V.validate_question_bank [Example.rows1] (map fst (slice_to Example.book 1)) (-2)
  = inr [] /\
  V.start_generation Example.book 3 10 1 (-2) [4; 4] = Failed [] ValueError.
Proof.
  apply (negative_quota_passes_validation_then_aborts
           Example.book 3 10 1 (-2) [4; 4] [Example.rows1]);
    first [lia | reflexivity | (left; discriminate) | idtac].
  repeat constructor; discriminate.
Defined.

(** ** The booklet id *)

Module BookletIdFacts.
Import UI Random Logic RandomFacts Shape LoopFacts.

Lemma spec_choices_from {A} (population : list A) (k : nat) :
  population <> [] ->
  spec (choices population k) k
       (fun res => length res = k /\ Forall (fun a => a ∈ population) res).
Proof.
  intros Hne. induction k as [|k IH]; simpl.
  - eapply spec_weaken; [apply spec_ret|]. intros ? ->. split; constructor.
  - eapply (spec_bind_eq _ _ 1 k); [reflexivity | |].
    { apply (spec_randbelow (length population)).
      destruct population; [congruence | simpl; lia]. }
    intros j Hj. cbv beta in Hj |- *.
    eapply (spec_bind_eq _ _ 0 k); [reflexivity | apply spec_getitem, Hj |].
    intros a Ha. cbv beta in Ha. eapply spec_bind0; [apply IH|].
    intros rest [Hl Hall]. eapply spec_weaken; [apply spec_ret|].
    intros ? ->. split; [simpl; lia|].
    constructor; [eapply list_elem_of_lookup_2, Ha | exact Hall].
Qed.

Lemma join_chars_list (cs : list ascii) :
  list_ascii_of_string (join_chars cs) = cs.
Proof. induction cs as [|c cs IH]; simpl; [reflexivity | rewrite IH; reflexivity]. Qed.

Section Pass.
Context {R : Type}.
Variable quota : M (list R).
Variable extra : list R -> M (list R).
Variable opt : R -> M (question_out * string).
Variable QCOUNT : Z.
Variable good : R -> Prop.
Variables n1 n2 : nat.

Hypothesis Hquota :
  spec quota n1 (fun sel => length sel = n1 /\ Forall good sel).
Hypothesis Hextra : forall sel,
  length sel = n1 -> Forall good sel ->
  spec (extra sel) n2 (fun sel' => length sel' = n1 + n2 /\ Forall good sel').
Hypothesis Hopt : forall r, good r -> spec (opt r) 3 (fun _ => True).
Hypothesis HQ : (0 <= QCOUNT)%Z.

Lemma spec_loop_body_booklet :
  spec (loop_body quota extra opt QCOUNT)
       (n1 + (n2 + ((n1 + n2 - 1)
                    + ((Z.to_nat QCOUNT `min` (n1 + n2)) * 3 + 7))))
       (fun x => String.length (booklet_id x) = 7 /\
                 Forall (fun c => c ∈ digits)
                        (list_ascii_of_string (booklet_id x))).
Proof.
  unfold loop_body.
  eapply spec_bind; [exact Hquota|]. intros sel1 [Hl1 Hg1].
  eapply spec_bind; [apply Hextra; assumption|]. intros sel2 [Hl2 Hg2].
  eapply spec_bind.
  { rewrite <- Hl2. apply spec_shuffle. }
  intros sel3 Hperm. cbv beta in Hperm.
  eapply spec_bind.
  { apply (spec_options opt QCOUNT good n1 n2 Hopt HQ);
      rewrite Hperm; assumption. }
  intros qk _.
  eapply spec_bind0; [apply spec_choices_from, digits_nonempty|].
  intros b [Hb Hdigits].
  eapply spec_weaken; [apply spec_ret|]. intros ? ->.
  unfold assemble. simpl. rewrite join_chars_length, join_chars_list. auto.
Qed.

End Pass.

End BookletIdFacts.

(** X11.  Every booklet id a run of [TestVariant-W.py] writes is a string
    of exactly seven decimal digits, one id per variant, and the variants
    are numbered 1, 2, ... in the order written. *)
Theorem booklet_id_is_seven_digits
    (xls : workbook) (VC Q S F : Z) (g : rng) (sheets : list (list UI.row)) :
  (0 < VC)%Z -> (0 <= Q)%Z -> (0 <= F)%Z ->
  UI.load_sheets (slice_to xls S) = inr sheets ->
  exists files,
    W.start_generation xls VC Q S F g = Finished files /\
    map fst files = seq 1 (Z.to_nat VC) /\
    Forall (fun f => String.length (booklet_id f.2) = 7 /\
                     Forall (fun c => c ∈ digits)
                            (list_ascii_of_string (booklet_id f.2)))
           files.
Proof.
  intros HVC HQ HF Hload.
  destruct (UIFacts.load_sheets_well_formed _ _ Hload) as [_ Hwf].
  assert (Hbody :
    spec (W.variant_body sheets (concat sheets) Q S F)
         (W_quota F (slice_to sheets S)
          + (W_extra (UI.EXTRA Q S F) (concat sheets)
             + ((W_quota F (slice_to sheets S)
                 + W_extra (UI.EXTRA Q S F) (concat sheets) - 1)
                + ((Z.to_nat Q
                    `min` (W_quota F (slice_to sheets S)
                           + W_extra (UI.EXTRA Q S F) (concat sheets))) * 3 + 7))))
         (fun x => String.length (booklet_id x) = 7 /\
                   Forall (fun c => c ∈ digits)
                          (list_ascii_of_string (booklet_id x)))).
  { change (W.variant_body sheets (concat sheets) Q S F)
      with (loop_body (W.quota_loop (slice_to sheets S) F [])
              (W.extra_step (concat sheets) (UI.EXTRA Q S F))
              W.shuffle_options Q).
    apply (BookletIdFacts.spec_loop_body_booklet _ _ _ Q well_formed).
    - apply BodyFacts.W_quota_ok; [exact HF | apply BodyFacts.slice_to_Forall, Hwf].
    - intros sel Hl Hsel. apply BodyFacts.W_extra_ok; auto.
      + unfold UI.EXTRA. lia.
      + apply DrawFacts.concat_well_formed, Hwf.
    - apply DrawFacts.W_spec_option_pass.
    - exact HQ. }
  destruct (LoopFacts.gen_loop_total _ _ _ (Z.to_nat VC) 1 g Hbody)
    as (files & Hrun & Hnum & Hall).
  exists files. split; [|split; [exact Hnum | exact Hall]].
  unfold W.start_generation. rewrite Hload.
  destruct (Z.leb_spec VC 0); [lia|].
  unfold run_loop. rewrite Hrun. reflexivity.
Qed.

Lemma booklet_id_is_seven_digits_witness :
  exists files,
    W.start_generation Example.book 2 3 1 2 [12; 7; 33] = Finished files /\
    map fst files = seq 1 (Z.to_nat 2) /\
    Forall (fun f => String.length (booklet_id f.2) = 7 /\
                     Forall (fun c => c ∈ digits)
                            (list_ascii_of_string (booklet_id f.2)))
           files.
Proof.
  apply (booklet_id_is_seven_digits Example.book 2 3 1 2 [12; 7; 33]
           [Example.rows1]);
    first [lia | reflexivity].
Defined.

(** ** The run of the script *)

Module ScriptRunFacts.
Import Script Random Logic RandomFacts Shape ScriptFacts LoopFacts OverflowFacts
       ScriptLoopFacts.

(** Sequencing two steps that always return. *)
Lemma bind_returns {A B} (m : M A) (f : A -> M B)
    (P : A -> Prop) (Q : B -> Prop) :
  (forall g, exists a g', m g = inr (a, g') /\ P a) ->
  (forall a, P a -> forall g, exists b g', f a g = inr (b, g') /\ Q b) ->
  forall g, exists b g', bind m f g = inr (b, g') /\ Q b.
Proof.
  intros Hm Hf g. destruct (Hm g) as (a & g1 & Hrun & HP).
  destruct (Hf a HP g1) as (b & g2 & Hrun' & HQ).
  exists b, g2. unfold bind. rewrite Hrun. auto.
Qed.

Lemma mapM_returns {A B} (f : A -> M B) (l : list A) :
  (forall a g, exists b g', f a g = inr (b, g')) ->
  forall g, exists bs g', mapM f l g = inr (bs, g') /\ length bs = length l.
Proof.
  intros Hf. induction l as [|a l IH]; intros g; simpl.
  - exists [], g. split; reflexivity.
  - destruct (Hf a g) as (b & g1 & Hb). destruct (IH g1) as (bs & g2 & Hbs & Hl).
    exists (b :: bs), g2. unfold bind, ret. rewrite Hb, Hbs.
    split; [reflexivity | simpl; lia].
Qed.

Lemma gen_loop_returns (body : M variant) (P : variant -> Prop)
    (todo v : nat) (g : rng) :
  (forall g, exists x g', body g = inr (x, g') /\ P x) ->
  exists fs, gen_loop body todo v g = (fs, None) /\
             map fst fs = seq v todo /\ Forall (fun f => P f.2) fs.
Proof.
  intros Hbody. revert v g. induction todo as [|todo IH]; intros v g; simpl.
  - exists []. repeat split; constructor.
  - destruct (Hbody g) as (x & g' & -> & HP).
    destruct (IH (S v) g') as (fs & -> & Hnum & Hall).
    exists ((v, x) :: fs). repeat split.
    + simpl. rewrite Hnum. reflexivity.
    + constructor; assumption.
Qed.

(** One pass of the script over eight sheets that all have rows. *)
Lemma variant_body_returns (sheet_rows : list (list row))
    (from_first extra : Z) (id_length : nat) (g : rng) :
  (forall idx, idx < 8 ->
     exists rows, sheet_rows !! idx = Some rows /\ rows <> []) ->
  (0 <= from_first)%Z ->
  (0 <= extra <= Z.of_nat (length (concat sheet_rows)))%Z ->
  exists x g',
    variant_body sheet_rows from_first extra id_length g = inr (x, g') /\
    length (final_q x) = 8 * Z.to_nat from_first + Z.to_nat extra /\
    length (key x) = 8 * Z.to_nat from_first + Z.to_nat extra /\
    String.length (booklet_id x) = id_length.
Proof.
  intros Hsheets HF Hextra. revert g. unfold variant_body.
  eapply bind_returns.
  { intros g. eapply spec_total.
    apply (spec_quota_loop (seq 0 8) sheet_rows from_first [] HF).
    intros idx Hidx. apply Hsheets. apply elem_of_seq in Hidx. lia. }
  intros sel1 Hl1. simpl in Hl1.
  eapply bind_returns.
  { intros g. eapply spec_total.
    apply (Script_spec_extras_step sheet_rows extra Hextra). }
  intros extras [Hl2 _].
  eapply bind_returns.
  { intros g. eapply spec_total. apply spec_shuffle. }
  intros sel3 Hperm. cbv beta in Hperm.
  eapply bind_returns.
  { intros g.
    destruct (mapM_returns shuffle_entry sel3
                ltac:(intros a g0;
                      destruct (spec_total _ _ _ g0 (spec_shuffle_entry a))
                        as (b & g1 & Hb & _); eauto) g)
      as (qk & g' & Hrun & Hl).
    exists qk, g'. split; [exact Hrun | exact Hl]. }
  intros qk Hqk. cbv beta in Hqk.
  eapply bind_returns.
  { intros g. eapply spec_total.
    apply spec_choices, digits_nonempty. }
  intros b Hb g. cbv beta in Hb. eexists _, g. split; [reflexivity|].
  unfold assemble. simpl. rewrite !length_map, join_chars_length.
  rewrite Hqk, Hperm, length_app. lia.
Qed.

(** A sheet without usable rows among the first eight stops the quota
    loop with [IndexError]. *)
Lemma quota_loop_empty_sheet (idxs : list nat) (sheet_rows : list (list row))
    (from_first : Z) (selected : list row) (g : rng) :
  (0 < from_first)%Z ->
  (forall idx, idx ∈ idxs -> idx < length sheet_rows) ->
  (exists idx, idx ∈ idxs /\ sheet_rows !! idx = Some []) ->
  quota_loop idxs sheet_rows from_first selected g = inl IndexError.
Proof.
  intros HF. revert selected g.
  induction idxs as [|idx idxs IH]; intros selected g Hvalid Hempty.
  - destruct Hempty as (i & Hi & _). inversion Hi.
  - simpl. unfold bind at 1.
    destruct (lookup_lt_is_Some_2 sheet_rows idx (Hvalid idx ltac:(left)))
      as [rows Hrows].
    unfold getitem at 1. rewrite Hrows. unfold ret at 1.
    destruct rows as [|r rows].
    + unfold bind, pick_rows. cbn [length].
      destruct (Z.leb_spec from_first (Z.of_nat 0)); [lia|].
      destruct (Z.to_nat from_first) eqn:Hn; [lia|]. reflexivity.
    + destruct (spec_total _ _ _ g
                  (spec_pick_rows (r :: rows) from_first ltac:(discriminate)
                     ltac:(lia))) as (picked & g' & Hrun & _).
      unfold bind. rewrite Hrun. apply IH.
      * intros i Hi. apply Hvalid. right. exact Hi.
      * destruct Hempty as (i & Hi & Hsheet).
        apply elem_of_cons in Hi as [->|Hi]; [congruence|]. eauto.
Qed.

End ScriptRunFacts.

(** X12.  When each of the first eight sheets has a usable row, the script
    completes all 140 variants, numbered 1 to 140, and every one has
    exactly 50 questions, 50 key entries and a booklet id of 7 characters:
    the count the script warns about never differs from
    [QUESTIONS_PER_VARIANT]. *)
Theorem script_variants_have_fifty_questions
    (raw_sheets : list (list Script.row)) (g : rng) :
  (forall idx, idx < 8 ->
     exists rows, raw_sheets !! idx = Some rows /\ rows <> []) ->
  exists files,
    Script.main raw_sheets g = Finished files /\
    map fst files = seq 1 140 /\
    Forall (fun f =>
              Z.of_nat (length (final_q f.2)) = Script.QUESTIONS_PER_VARIANT /\
              Z.of_nat (length (key f.2)) = Script.QUESTIONS_PER_VARIANT /\
              String.length (booklet_id f.2) = Script.BOOKLET_ID_LENGTH)
           files.
Proof.
  intros Hsheets.
  set (sheet_rows := map (map Script.normalize_row) raw_sheets).
  assert (Hnorm : forall idx, idx < 8 ->
            exists rows, sheet_rows !! idx = Some rows /\ rows <> []).
  { intros idx Hidx. destruct (Hsheets idx Hidx) as (rows & Hrows & Hne).
    exists (map Script.normalize_row rows). subst sheet_rows.
    rewrite list_lookup_fmap, Hrows. split; [reflexivity|].
    destruct rows; [congruence | discriminate]. }
  assert (Hlen : 8 <= length sheet_rows).
  { destruct (Hnorm 7 ltac:(lia)) as (rows & Hrows & _).
    apply lookup_lt_Some in Hrows. lia. }
  assert (Hpool : 2 <= length (concat sheet_rows)).
  { destruct (Hnorm 0 ltac:(lia)) as (r0 & H0 & Hne0).
    destruct (Hnorm 1 ltac:(lia)) as (r1 & H1 & Hne1).
    destruct sheet_rows as [|s0 [|s1 rest]]; simpl in *; try discriminate.
    injection H0 as ->. injection H1 as ->.
    rewrite !length_app. destruct r0; [congruence|]. destruct r1; [congruence|].
    simpl. lia. }
  destruct (ScriptRunFacts.gen_loop_returns
              (Script.variant_body sheet_rows Script.FROM_FIRST_8_PER_SHEET
                 Script.EXTRA_FROM_OTHER_SHEETS Script.BOOKLET_ID_LENGTH)
              (fun x => length (final_q x) = 50 /\ length (key x) = 50 /\
                        String.length (booklet_id x) = 7)
              140 1 g) as (files & Hrun & Hnum & Hall).
  { intros g0.
    destruct (ScriptRunFacts.variant_body_returns sheet_rows 6 2 7 g0 Hnorm
                ltac:(lia) ltac:(lia)) as (x & g' & Hx & H1 & H2 & H3).
    exists x, g'. split; [exact Hx|]. auto. }
  exists files. split; [|split; [exact Hnum|]].
  - unfold Script.main. fold sheet_rows.
    destruct (Nat.ltb_spec (length sheet_rows) 8); [lia|].
    unfold run_loop. change (Z.to_nat Script.VARIANT_COUNT) with 140.
    rewrite Hrun. reflexivity.
  - eapply Forall_impl; [exact Hall|]. intros f (H1 & H2 & H3).
    unfold Script.QUESTIONS_PER_VARIANT, Script.BOOKLET_ID_LENGTH.
    rewrite H1, H2, H3. auto.
Qed.

Lemma script_variants_have_fifty_questions_witness :
  exists files,
    Script.main Example.script_sheets [] = Finished files /\
    map fst files = seq 1 140 /\
    Forall (fun f =>
              Z.of_nat (length (final_q f.2)) = Script.QUESTIONS_PER_VARIANT /\
              Z.of_nat (length (key f.2)) = Script.QUESTIONS_PER_VARIANT /\
              String.length (booklet_id f.2) = Script.BOOKLET_ID_LENGTH)
           files.
Proof.
  apply (script_variants_have_fifty_questions Example.script_sheets []).
  intros idx Hidx.
  destruct idx as [|[|[|[|[|[|[|[|idx]]]]]]]]; try lia;
    (eexists; split; [reflexivity | discriminate]).
Defined.

(** X13.  If one of the first eight sheets has no usable row, the script
    stops in its first pass with [IndexError] (a draw from an empty list)
    and writes no file at all, however many rows the other sheets hold. *)
Theorem script_empty_sheet_crashes
    (raw_sheets : list (list Script.row)) (g : rng) (idx : nat) :
  8 <= length raw_sheets -> idx < 8 -> raw_sheets !! idx = Some [] ->
  Script.main raw_sheets g = Failed [] IndexError.
Proof.
  intros Hlen Hidx Hempty. unfold Script.main.
  set (sheet_rows := map (map Script.normalize_row) raw_sheets).
  assert (Hlen' : length sheet_rows = length raw_sheets)
    by (subst sheet_rows; apply length_map).
  destruct (Nat.ltb_spec (length sheet_rows) 8); [lia|].
  unfold run_loop. change (Z.to_nat Script.VARIANT_COUNT) with 140.
  rewrite (AbortFacts.gen_loop_first_fails _ IndexError); [reflexivity | lia |].
  unfold Script.variant_body, bind.
  rewrite ScriptRunFacts.quota_loop_empty_sheet; [reflexivity | | |].
  - unfold Script.FROM_FIRST_8_PER_SHEET. lia.
  - intros i Hi. apply elem_of_seq in Hi. lia.
  - exists idx. split; [apply elem_of_seq; lia|].
    subst sheet_rows. rewrite list_lookup_fmap, Hempty. reflexivity.
Qed.

Lemma script_empty_sheet_crashes_witness :
  Script.main ([] :: Example.script_sheets) [3; 1] = Failed [] IndexError.
Proof.
  apply (script_empty_sheet_crashes ([] :: Example.script_sheets) [3; 1] 0).
  - vm_compute. lia.
  - lia.
  - reflexivity.
Defined.

(** ** What the validator reports *)

Module ReportFacts.
Import UI PyStrFacts.

(** A row read from the sheet has four option entries, the first of which
    is its correct answer. *)
Lemma read_row_shape (r : series) (row : UI.row) :
  read_row r = inr row ->
  exists q a b c d, row = (q, [a; b; c; d], a).
Proof.
  unfold read_row. destruct (r !! 0) as [c0|]; [|discriminate].
  intros H. injection H as <-. simpl. eauto 10.
Qed.

Lemma empty_question_in_row (sname s : string) (i j : nat) (r : UI.row) :
  V.EmptyQuestion s j ∈ V.check_row sname i r <->
  s = sname /\ j = i /\ PyStr.strip r.1.1 = EmptyString.
Proof.
  destruct r as [[q opts] corr]. unfold V.check_row. cbn [fst].
  rewrite !elem_of_app. split.
  - intros [H|[H|H]].
    + destruct (PyStr.truthy (PyStr.strip q)) eqn:E; simpl in H.
      * inversion H.
      * apply list_elem_of_singleton in H. injection H as -> ->.
        repeat split. apply truthy_false, E.
    + destruct (negb _); [|inversion H].
      apply list_elem_of_singleton in H. discriminate.
    + destruct (_ <? _); [|inversion H].
      apply list_elem_of_singleton in H. discriminate.
  - intros (-> & -> & E). left. rewrite E. simpl.
    apply list_elem_of_singleton. reflexivity.
Qed.

Lemma empty_question_in_rows (sname s : string) (i j : nat) (rows : list UI.row) :
  V.EmptyQuestion s j ∈ V.check_rows sname i rows <->
  s = sname /\
  exists k r, rows !! k = Some r /\ PyStr.strip r.1.1 = EmptyString /\ j = i + k.
Proof.
  revert i. induction rows as [|r rows IH]; intros i; simpl.
  - split; [intros H; inversion H | intros (_ & k & r & H & _); discriminate].
  - rewrite elem_of_app, empty_question_in_row, IH. split.
    + intros [(-> & -> & E)|(-> & k & r' & Hk & E & ->)].
      * split; [reflexivity|]. exists 0, r. repeat split; [exact E | lia].
      * split; [reflexivity|]. exists (S k), r'. repeat split; [exact Hk | exact E | lia].
    + intros (-> & [|k] & r' & Hk & E & ->).
      * left. injection Hk as <-. repeat split; [lia | exact E].
      * right. split; [reflexivity|]. exists k, r'. repeat split; [exact Hk | exact E | lia].
Qed.

Lemma empty_question_in_bank (idx : nat) (sheets : list (list UI.row))
    (names : list string) (from_first : Z) (errors : list V.verror)
    (s : string) (j : nat) :
  V.validate_from idx sheets names from_first = inr errors ->
  (V.EmptyQuestion s j ∈ errors <->
   exists n rows k r,
     sheets !! n = Some rows /\ names !! (idx + n) = Some s /\
     rows !! k = Some r /\ PyStr.strip r.1.1 = EmptyString /\ j = k + 2).
Proof.
  revert idx errors. induction sheets as [|rows sheets IH]; intros idx errors; simpl.
  - intros H. injection H as <-.
    split; [intros H; inversion H | intros (n & ? & ? & ? & H & _); discriminate].
  - destruct (names !! idx) as [sname|] eqn:Hs; [|discriminate].
    destruct (V.validate_from (S idx) sheets names from_first)
      as [e|more] eqn:Hrest; [discriminate|].
    intros H. injection H as <-.
    rewrite !elem_of_app, empty_question_in_rows, (IH _ _ Hrest). split.
    + intros [[H|(-> & k & r & Hk & E & ->)]|(n & rows' & k & r & Hn & Hname & Hk & E & ->)].
      * destruct (_ <? _)%Z; [|inversion H].
        apply list_elem_of_singleton in H. discriminate.
      * exists 0, rows, k, r. rewrite Nat.add_0_r.
        repeat split; [exact Hs | exact Hk | exact E | lia].
      * exists (S n), rows', k, r.
        replace (idx + S n) with (S idx + n) by lia.
        repeat split; assumption.
    + intros ([|n] & rows' & k & r & Hn & Hname & Hk & E & ->).
      * left. right. injection Hn as <-. rewrite Nat.add_0_r, Hs in Hname.
        injection Hname as <-. split; [reflexivity|].
        exists k, r. repeat split; [exact Hk | exact E | lia].
      * right. exists n, rows', k, r.
        replace (idx + S n) with (S idx + n) in Hname by lia.
        repeat split; assumption.
Qed.

End ReportFacts.

(** X14.  For a row as the program reads it from the sheet, the message
    about a missing correct answer never comes alone: the correct answer
    is the first of the four option cells, so whenever it is blank the
    message about fewer than four options is reported for the same line
    too. *)
Theorem missing_answer_is_reported_with_missing_option
    (sname : string) (i : nat) (r : series) (row : UI.row) :
  UI.read_row r = inr row ->
  V.NoCorrectAnswer sname i ∈ V.check_row sname i row ->
  V.NotFourOptions sname i ∈ V.check_row sname i row.
Proof.
  intros Hread Hin.
  apply ReportFacts.read_row_shape in Hread as (q & a & b & c & d & ->).
  apply ValidationFacts.no_correct_reported in Hin.
  unfold V.check_row. rewrite !elem_of_app. right. right. cbv zeta.
  set (valid_opts := List.filter _ _).
  assert (Hlen : length valid_opts < 4).
  { subst valid_opts. cbn [List.filter]. rewrite Hin. cbn [PyStr.truthy].
    destruct (PyStr.truthy (PyStr.strip b)), (PyStr.truthy (PyStr.strip c)),
      (PyStr.truthy (PyStr.strip d)); simpl; lia. }
  destruct (Nat.ltb_spec (length valid_opts) 4) as [_|Hge]; [|lia].
  apply list_elem_of_singleton. reflexivity.
Qed.

Lemma missing_answer_is_reported_with_missing_option_witness :
  V.NotFourOptions "Sheet1" 2
    ∈ V.check_row "Sheet1" 2 ("2+2?", [" "; "3"; "5"; "6"], " ").
Proof.
  apply (missing_answer_is_reported_with_missing_option "Sheet1" 2
           [Some "2+2?"; Some " "; Some "3"; Some "5"; Some "6"]).
  - reflexivity.
  - vm_compute. apply list_elem_of_here.
Defined.

(** X15.  Every message about an empty question names the sheet and the
    line of a row that has one, and every such row is reported: the
    validator lists [EmptyQuestion sname i] exactly when the sheet named
    [sname] holds, at position [i - 2] of its loaded rows, a row whose
    question is blank. *)
Theorem empty_question_error_names_sheet_and_line
    (sheets : list (list UI.row)) (names : list string) (from_first : Z)
    (errors : list V.verror) (sname : string) (i : nat) :
  V.validate_question_bank sheets names from_first = inr errors ->
  (V.EmptyQuestion sname i ∈ errors <->
   exists idx rows k q opts corr,
     sheets !! idx = Some rows /\ names !! idx = Some sname /\
     rows !! k = Some (q, opts, corr) /\
     PyStr.strip q = EmptyString /\ i = k + 2).
Proof.
  intros Hrun. unfold V.validate_question_bank in Hrun.
  rewrite (ReportFacts.empty_question_in_bank 0 _ _ _ _ sname i Hrun). split.
  - intros (n & rows & k & [[q opts] corr] & Hn & Hname & Hk & E & ->).
    exists n, rows, k, q, opts, corr. auto.
  - intros (n & rows & k & q & opts & corr & Hn & Hname & Hk & E & ->).
    exists n, rows, k, (q, opts, corr). auto.
Qed.

Lemma empty_question_error_names_sheet_and_line_witness :
  V.EmptyQuestion "S2" 3
  ∈ [V.NotFourOptions "S1" 2; V.EmptyQuestion "S2" 3] <->
  exists idx rows k q opts corr,
    [[("q1", ["a"; "b"; "c"; ""], "a")];
     [("q2", ["a"; "b"; "c"; "d"], "a"); (" ", ["a"; "b"; "c"; "d"], "a")]]
      !! idx = Some rows /\
    ["S1"; "S2"] !! idx = Some "S2" /\
    rows !! k = Some (q, opts, corr) /\
    PyStr.strip q = EmptyString /\ 3 = k + 2.
Proof.
  apply (empty_question_error_names_sheet_and_line
           [[("q1", ["a"; "b"; "c"; ""], "a")];
            [("q2", ["a"; "b"; "c"; "d"], "a"); (" ", ["a"; "b"; "c"; "d"], "a")]]
           ["S1"; "S2"] 1 _ "S2" 3).
  reflexivity.
Defined.

(** ** The sheets as the script reads them *)

Module InputFacts.
Import Script ScriptInput PyStrFacts.

(** Under a true label in the second column, the answer and option A are
    both read from that column and the question from the first. *)
Lemma columns_of_sheet (cols : list value) (label : value) (m : colmap) :
  cols !! 1 = Some label -> truthy label = true ->
  match detect_columns cols with
  | inl e => inl e
  | inr m0 => fill_columns cols m0
  end = inr m ->
  c_question m = Some 0 /\ c_correct m = Some 1 /\ c_option_a m = Some 1.
Proof.
  intros Hl Ht. destruct cols as [|c0 [|c1 cols]]; try discriminate.
  injection Hl as ->.
  unfold detect_columns, fill_columns, fill_option, unset, col_at.
  cbn [lookup list_lookup length Nat.ltb Nat.leb c_question c_correct c_option_a].
  rewrite Ht. cbn [negb]. destruct (negb (truthy c0)); intros H; injection H as <-;
    auto.
Qed.

Lemma read_row_same_column (m : colmap) (r : list value) (x : row) :
  c_correct m = c_option_a m ->
  read_row m r = Some x ->
  r_correct x = Some (r_A x) /\ r_correct_raw x = None.
Proof.
  intros Hc. unfold read_row. rewrite Hc.
  destruct (holds (fetch r (c_question m)) && _); [|discriminate].
  intros H. injection H as <-. split; reflexivity.
Qed.

Lemma read_sheet_rows_elem (m : colmap) (df : list (list value)) (x : row) :
  x ∈ read_sheet_rows df m <-> exists r, r ∈ df /\ read_row m r = Some x.
Proof. unfold read_sheet_rows. apply list_elem_of_omap. Qed.

(** What normalisation makes of a row whose answer is its option A. *)
Lemma normalize_option_a (r : row) :
  r_correct r = Some (r_A r) ->
  PyStr.strip (r_A r) <> EmptyString ->
  normalize_correct_label (r_correct r) r
  = Some (if (String.length (PyStr.strip (r_A r)) =? 1)
             && is_label (upper (PyStr.strip (r_A r)))
          then upper (PyStr.strip (r_A r)) else "A").
Proof.
  intros Hc Hne. rewrite Hc. unfold normalize_correct_label.
  assert (Ht : PyStr.truthy (r_A r) = true).
  { apply truthy_true, strip_nonempty_arg, Hne. }
  rewrite Ht. cbn [negb].
  destruct ((String.length (PyStr.strip (r_A r)) =? 1)
            && is_label (upper (PyStr.strip (r_A r)))); [reflexivity|].
  unfold LABELS. cbn [List.find].
  change (option_text r "A") with (PyStr.strip (r_A r)).
  apply truthy_true in Hne. rewrite Hne, String.eqb_refl. reflexivity.
Qed.



(** Reading a sheet fails only on a frame without columns. *)
Lemma load_sheet_fails (df : frame) :
  match f_columns df with
  | [] => load_sheet df = inl IndexError
  | _ :: _ => exists m, load_sheet df = inr (read_sheet_rows (tail (f_rows df)) m)
  end.
Proof.
  unfold load_sheet, detect_columns. destruct (f_columns df) as [|c0 cols] eqn:Hc.
  - reflexivity.
  - unfold fill_columns. cbn [c_question].
    destruct (unset (c0 :: cols) (Some 0)); eexists; reflexivity.
Qed.

Lemma load_sheets_fails (book : list frame) :
  Exists (fun df => f_columns df = []) book ->
  load_sheets book = inl IndexError.
Proof.
  induction book as [|df book IH]; intros H; [inversion H|]. simpl.
  pose proof (load_sheet_fails df) as Hdf.
  destruct (f_columns df) as [|c0 cols] eqn:Hc.
  - rewrite Hdf. reflexivity.
  - destruct Hdf as [m ->]. inversion H as [? ? Hhd|? ? Htl]; subst.
    + congruence.
    + rewrite (IH Htl). reflexivity.
Qed.


End InputFacts.

(** X16.  In a sheet whose second column has a label that is true, the
    script reads the correct answer from the same cell as option A: after
    normalisation every row keeps the text of its option A as the raw
    answer, and when that text is not blank its label is "A", unless the
    text trims to a single letter among a..d or A..D, in which case the
    label is that letter in upper case. *)
Theorem script_answer_is_read_from_option_a
    (df : ScriptInput.frame) (label : ScriptInput.value) (rows : list Script.row) :
  ScriptInput.f_columns df !! 1 = Some label ->
  ScriptInput.truthy label = true ->
  ScriptInput.load_sheet df = inr rows ->
  Forall (fun r =>
            Script.r_correct_raw r = Some (Script.r_A r) /\
            (PyStr.strip (Script.r_A r) <> EmptyString ->
             Script.r_correct r
             = Some (if (String.length (PyStr.strip (Script.r_A r)) =? 1)
                        && Script.is_label (Script.upper (PyStr.strip (Script.r_A r)))
                     then Script.upper (PyStr.strip (Script.r_A r)) else "A")))
         (map Script.normalize_row rows).
Proof.
  intros Hl Ht Hload. unfold ScriptInput.load_sheet in Hload.
  pose proof (InputFacts.columns_of_sheet (ScriptInput.f_columns df) label) as Hcols.
  destruct (ScriptInput.detect_columns (ScriptInput.f_columns df)) as [e|m0];
    [discriminate|].
  destruct (ScriptInput.fill_columns (ScriptInput.f_columns df) m0) as [e|m] eqn:Hm;
    [discriminate|].
  injection Hload as <-.
  destruct (Hcols m Hl Ht eq_refl) as (_ & Hc & Ha).
  apply Forall_forall. intros r' Hin.
  apply list_elem_of_fmap in Hin as (r & -> & Hin).
  apply InputFacts.read_sheet_rows_elem in Hin as (cells & _ & Hrow).
  apply InputFacts.read_row_same_column in Hrow as [Hcorr _]; [|congruence].
  unfold Script.normalize_row. cbn [Script.r_correct_raw Script.r_correct Script.r_A].
  split; [exact Hcorr|]. intros Hne.
  apply InputFacts.normalize_option_a; assumption.
Qed.

Lemma script_answer_is_read_from_option_a_witness :
  Forall (fun r =>
            Script.r_correct_raw r = Some (Script.r_A r) /\
            (PyStr.strip (Script.r_A r) <> EmptyString ->
             Script.r_correct r
             = Some (if (String.length (PyStr.strip (Script.r_A r)) =? 1)
                        && Script.is_label (Script.upper (PyStr.strip (Script.r_A r)))
                     then Script.upper (PyStr.strip (Script.r_A r)) else "A")))
         (map Script.normalize_row
              [Script.mkRow "2+2?" "4" "3" "5" "" (Some "4") None;
               Script.mkRow "Which letter?" "b" "x" "y" "z" (Some "b") None]).
Proof.
  apply (script_answer_is_read_from_option_a Example.frame1
           (ScriptInput.Text "Javob")); reflexivity.
Defined.

(** X17.  Whatever the answer cell holds, the label the script derives
    from it is one of A, B, C, D or there is none. *)
Theorem script_label_is_one_of_four
    (correct : option string) (r : Script.row) (l : string) :
  Script.normalize_correct_label correct r = Some l -> l ∈ LABELS.
Proof.
  unfold Script.normalize_correct_label.
  destruct correct as [c|]; [|discriminate].
  destruct (negb (PyStr.truthy c)); [discriminate|].
  destruct (String.length (PyStr.strip c) =? 1) eqn:Hlen; cbn [andb].
  - destruct (Script.is_label (Script.upper (PyStr.strip c))) eqn:Hl.
    + intros H. injection H as <-.
      apply ScriptFacts.is_label_lookup in Hl as [i Hi].
      eapply list_elem_of_lookup_2, Hi.
    + destruct (List.find _ LABELS) as [l'|] eqn:Hf.
      * intros H. injection H as <-.
        apply List.find_some in Hf as [Hin _]. apply list_elem_of_In, Hin.
      * intros H. apply List.find_some in H as [Hin _]. apply list_elem_of_In, Hin.
  - destruct (List.find _ LABELS) as [l'|] eqn:Hf.
    + intros H. injection H as <-.
      apply List.find_some in Hf as [Hin _]. apply list_elem_of_In, Hin.
    + intros H. apply List.find_some in H as [Hin _]. apply list_elem_of_In, Hin.
Qed.

Lemma script_label_is_one_of_four_witness : "C" ∈ LABELS.
Proof.
  apply (script_label_is_one_of_four (Some " c ")
           (Script.mkRow "q" "x" "y" "z" "" None None) "C").
  reflexivity.
Defined.



(** X19.  A sheet without any column stops the script while it reads the
    workbook: [detect_columns] raises [IndexError] on it, wherever the
    sheet stands in the workbook, and no variant is written. *)
Theorem script_sheet_without_columns_crashes
    (book : list ScriptInput.frame) (g : rng) :
  Exists (fun df => ScriptInput.f_columns df = []) book ->
  ScriptInput.script book g = Failed [] IndexError.
Proof.
  intros H. unfold ScriptInput.script.
  rewrite (InputFacts.load_sheets_fails book H). reflexivity.
Qed.

Lemma script_sheet_without_columns_crashes_witness :
  ScriptInput.script [Example.frame1; ScriptInput.mkFrame [] []] [1; 2]
  = Failed [] IndexError.
Proof.
  apply (script_sheet_without_columns_crashes
           [Example.frame1; ScriptInput.mkFrame [] []] [1; 2]).
  apply Exists_cons_tl, Exists_cons_hd. reflexivity.
Defined.

(** X20.  [find_column] returns a column whose label equals one of the
    aliases up to case and surrounding whitespace, and the order of the
    aliases decides: no column matches an alias that stands before the one
    that was found.  It returns [None] exactly when no column matches any
    alias. *)
Theorem find_column_prefers_earlier_alias (columns aliases : list string) :
  match ScriptInput.find_column columns aliases with
  | Some orig =>
      orig ∈ columns /\
      exists i a,
        aliases !! i = Some a /\
        ScriptInput.column_key a = ScriptInput.column_key orig /\
        forall j a' c, j < i -> aliases !! j = Some a' -> c ∈ columns ->
                       ScriptInput.column_key a' <> ScriptInput.column_key c
  | None =>
      forall a c, a ∈ aliases -> c ∈ columns ->
                  ScriptInput.column_key a <> ScriptInput.column_key c
  end.
Proof.
  induction aliases as [|a aliases IH]; simpl.
  - intros a c Ha. inversion Ha.
  - destruct (List.find _ columns) as [orig|] eqn:Hf.
    + apply List.find_some in Hf as [Hin Heq]. apply String.eqb_eq in Heq.
      split; [apply list_elem_of_In, Hin|].
      exists 0, a. repeat split; [exact Heq|]. intros j a' c Hj. lia.
    + assert (Hnone : forall c, c ∈ columns ->
                ScriptInput.column_key a <> ScriptInput.column_key c).
      { intros c Hc. apply list_elem_of_In in Hc.
        apply String.eqb_neq. exact (List.find_none _ _ Hf c Hc). }
      destruct (ScriptInput.find_column columns aliases) as [orig|].
      * destruct IH as (Hin & i & a0 & Hi & Heq & Hbefore).
        split; [exact Hin|]. exists (S i), a0. repeat split; [exact Hi | exact Heq |].
        intros [|j] a' c Hj Ha' Hc.
        -- injection Ha' as <-. apply Hnone, Hc.
        -- apply (Hbefore j a' c); [lia | exact Ha' | exact Hc].
      * intros a' c Ha' Hc. apply elem_of_cons in Ha' as [->|Ha'].
        -- apply Hnone, Hc.
        -- apply IH; assumption.
Qed.

(** ** The booklet of the script *)

Module ScriptBookletFacts.
Import Script Docx PyStrFacts.

(** The option lines of a question are those of its non-blank slots. *)
Lemma script_option_printed (q : question_out) (l t : string) :
  l ∈ LABELS ->
  (mkPar (l +:+ ") " +:+ t) false None ∈ ScriptDocx.option_paragraphs q <->
   q_get q l = Some t /\ PyStr.strip t <> EmptyString).
Proof.
  intros Hl. unfold ScriptDocx.option_paragraphs.
  rewrite list_elem_of_In, in_flat_map. split.
  - intros (l' & Hl' & Hin). apply list_elem_of_In in Hl'.
    assert (Hget : exists t', q_get q l' = Some t').
    { apply BookletFacts.label_cases in Hl' as [-> | [-> | [-> | ->]]]; simpl; eauto. }
    destruct Hget as [t' Ht']. rewrite Ht' in Hin. simpl in Hin.
    destruct (PyStr.truthy (PyStr.strip t')) eqn:Htruthy; [|destruct Hin].
    destruct Hin as [Heq|[]]. injection Heq as Heq.
    apply BookletFacts.option_line_inj in Heq as [-> ->]; [|assumption..].
    split; [exact Ht' | apply truthy_true, Htruthy].
  - intros [Hget Hne]. exists l. split; [apply list_elem_of_In, Hl|].
    rewrite Hget. simpl. apply truthy_true in Hne. rewrite Hne. left. reflexivity.
Qed.

(** The question handed to the writer has the slots of the shuffled row. *)
Lemma q_get_row (x : row) (l : string) :
  q_get (mkQ (r_question x) (r_A x) (r_B x) (r_C x) (r_D x)) l = get x l.
Proof. reflexivity. Qed.

(** A non-empty slot of the relabelled row holds one of the shuffled
    texts, hence a non-blank one. *)
Lemma relabel_slot_not_blank (r : row) (sh : list (string * string))
    (l v : string) :
  sh ≡ₚ non_empty_options r -> l ∈ LABELS ->
  get (relabel (r_question r) (map snd sh)) l = Some v -> v <> EmptyString ->
  PyStr.strip v <> EmptyString.
Proof.
  intros Hperm Hl Hget Hne.
  apply list_elem_of_lookup in Hl as [i Hi].
  rewrite (ScriptFacts.get_label _ i l Hi) in Hget.
  apply ScriptFacts.relabel_slot in Hget; [|
    rewrite length_map, Hperm; apply ScriptFacts.non_empty_options_length | exact Hne].
  apply list_elem_of_lookup_2, list_elem_of_fmap in Hget as ([l0 v0] & -> & Hin).
  rewrite Hperm in Hin. apply ScriptFacts.non_empty_options_elem in Hin as [_ H].
  exact H.
Qed.

(** The label the shuffler finds names a non-empty slot of the new row. *)
Lemma found_label (new_row : row) (orig : option string) (l : string) :
  find_new_correct new_row orig = Some l ->
  l ∈ LABELS /\ exists v, get new_row l = Some v /\ v <> EmptyString.
Proof.
  unfold find_new_correct. destruct orig as [t|]; [|discriminate].
  destruct (PyStr.truthy t); [|discriminate].
  destruct (List.find (exact_match new_row t) LABELS) as [l'|] eqn:Hf.
  - intros H. injection H as <-.
    apply ScriptFacts.find_first in Hf as (i & Hi & Hm & _).
    split; [eapply list_elem_of_lookup_2, Hi|].
    apply ScriptFacts.exact_match_hit in Hm as (v & Hv & Hne & _). eauto.
  - intros H. apply ScriptFacts.find_first in H as (i & Hi & Hm & _).
    split; [eapply list_elem_of_lookup_2, Hi|].
    apply ScriptFacts.partial_match_hit in Hm as (v & Hv & Hne & _). eauto.
Qed.

End ScriptBookletFacts.

(** X21.  In the script a letter in the answer key always names an option
    the booklet prints: whenever the key entry of a question is not empty,
    it is one of A..D and the booklet has an option line under that letter,
    with a text that is not blank. *)
Theorem script_key_letter_is_always_printed (r : Script.row) (g : rng) :
  exists q lab g',
    Script.shuffle_entry r g = inr ((q, lab), g') /\
    (lab <> EmptyString ->
     lab ∈ LABELS /\
     exists t, PyStr.strip t <> EmptyString /\
               Docx.mkPar (lab +:+ ") " +:+ t) false None
                 ∈ ScriptDocx.option_paragraphs q).
Proof.
  destruct (Nat.lt_ge_cases (length (Script.non_empty_options r)) 2) as [Hlt|Hge].
  - destruct (Logic.spec_total _ _ _ g (ScriptFacts.spec_shuffle_question_skip r Hlt))
      as (out & g' & Hrun & ->).
    eexists _, _, g'. split.
    + unfold Script.shuffle_entry, bind. rewrite Hrun. reflexivity.
    + simpl. congruence.
  - destruct (Logic.spec_total _ _ _ g (ScriptFacts.spec_shuffle_question r Hge))
      as ([new_row lab0] & g' & Hrun & sh & Hperm & Hrow & Hlab).
    cbn [fst snd] in Hrow, Hlab.
    eexists _, _, g'. split.
    + unfold Script.shuffle_entry, bind. rewrite Hrun. reflexivity.
    + intros Hne. destruct lab0 as [l|]; [|simpl in Hne; congruence].
      unfold Script.key_entry in Hne |- *.
      destruct (PyStr.truthy l); [|congruence].
      symmetry in Hlab.
      apply ScriptBookletFacts.found_label in Hlab as (Hl & v & Hv & Hv0).
      split; [exact Hl|]. exists v.
      assert (Hblank : PyStr.strip v <> EmptyString).
      { rewrite Hrow in Hv.
        eapply ScriptBookletFacts.relabel_slot_not_blank; eassumption. }
      split; [exact Hblank|].
      apply ScriptBookletFacts.script_option_printed; [exact Hl|].
      rewrite ScriptBookletFacts.q_get_row. auto.
Qed.

(** X22.  For a row with at least two non-blank options the booklet of
    the script prints exactly these options, each once, in the shuffled
    order and under consecutive letters from A on: blank options leave no
    gap between the letters. *)
Theorem script_booklet_letters_are_consecutive (r : Script.row) (g : rng) :
  2 <= length (Script.non_empty_options r) ->
  exists q lab g' texts,
    Script.shuffle_entry r g = inr ((q, lab), g') /\
    texts ≡ₚ map snd (Script.non_empty_options r) /\
    ScriptDocx.option_paragraphs q
    = zip_with (fun l t => Docx.mkPar (l +:+ ") " +:+ t) false None) LABELS texts.
Proof.
  intros Hge.
  destruct (Logic.spec_total _ _ _ g (ScriptFacts.spec_shuffle_question r Hge))
    as ([new_row lab0] & g' & Hrun & sh & Hperm & Hrow & _).
  cbn [fst snd] in Hrow.
  eexists _, _, g', (map snd sh). split; [|split].
  - unfold Script.shuffle_entry, bind. rewrite Hrun. reflexivity.
  - rewrite Hperm. reflexivity.
  - assert (Hall : Forall (fun t => PyStr.truthy (PyStr.strip t) = true) (map snd sh)).
    { apply Forall_forall. intros t Ht.
      apply list_elem_of_fmap in Ht as ([l0 t0] & -> & Hin).
      rewrite Hperm in Hin.
      apply ScriptFacts.non_empty_options_elem in Hin as [_ H].
      apply PyStrFacts.truthy_true, H. }
    assert (Hlen : 2 <= length (map snd sh) <= 4).
    { rewrite length_map, Hperm. split; [exact Hge|].
      apply ScriptFacts.non_empty_options_length. }
    subst new_row. destruct (map snd sh) as [|a [|b [|c [|d [|e l]]]]];
      cbn [length] in Hlen; try lia;
      repeat match goal with
             | H : Forall _ (_ :: _) |- _ =>
                 let Hx := fresh "Hx" in
                 apply Forall_cons in H as [Hx H]
             end;
      unfold ScriptDocx.option_paragraphs, LABELS; cbn [flat_map q_get String.eqb Ascii.eqb Bool.eqb
        Script.relabel Script.r_A Script.r_B Script.r_C Script.r_D Script.r_question
        q_A q_B q_C q_D default from_option id lookup list_lookup zip_with app];
      repeat match goal with
             | H : PyStr.truthy _ = true |- _ => rewrite H; clear H
             end;
      rewrite ?PyStrFacts.strip_empty; reflexivity.
Qed.

Lemma script_booklet_letters_are_consecutive_witness :
  exists q lab g' texts,
    Script.shuffle_entry
      (Script.mkRow "2+2?" "4" "" "5" "" (Some "A") (Some "4")) [0; 7]
    = inr ((q, lab), g') /\
    texts ≡ₚ map snd (Script.non_empty_options
                        (Script.mkRow "2+2?" "4" "" "5" "" (Some "A") (Some "4"))) /\
    ScriptDocx.option_paragraphs q
    = zip_with (fun l t => Docx.mkPar (l +:+ ") " +:+ t) false None) LABELS texts.
Proof.
  apply (script_booklet_letters_are_consecutive
           (Script.mkRow "2+2?" "4" "" "5" "" (Some "A") (Some "4")) [0; 7]).
  vm_compute. lia.
Defined.

(** ** Variants larger than the bank *)

Module RepeatFacts.
Import UI Random Logic RandomFacts Shape LoopFacts DrawFacts Keyed.

(** Two postconditions of the same program hold together. *)
Lemma spec_conj {A} (m : M A) (n : nat) (P Q : A -> Prop) :
  spec m n P -> spec m n Q -> spec m n (fun a => P a /\ Q a).
Proof.
  intros [HP Hn] [HQ _]. split; [|exact Hn]. intros g.
  destruct (HP g) as (a & g' & Hrun & Ha).
  destruct (HQ g) as (a' & g'' & Hrun' & Ha').
  rewrite Hrun in Hrun'. injection Hrun' as <- <-. eauto.
Qed.

(** One pass over a validated bank makes every question from a row of the
    bank. *)
Lemma V_body_made (sheets : list (list row)) (Q S F : Z) :
  (0 <= Q)%Z -> (0 <= F)%Z ->
  Forall (Forall well_formed) sheets -> Forall (sheet_ok F) sheets ->
  let n1 := V_quota F sheets in
  let n2 := V_extra (EXTRA Q S F) (concat sheets) in
  spec (V.variant_body sheets (concat sheets) Q S F)
       (n1 + (n2 + ((n1 + n2 - 1) + ((Z.to_nat Q `min` (n1 + n2)) * 3 + 7))))
       (fun x => exists rows,
            Forall (fun r => r ∈ concat sheets) rows /\
            Forall2 keyed rows (zip (final_q x) (key x))).
Proof.
  intros HQ HF Hwf Hok n1 n2.
  pose proof (concat_well_formed _ Hwf) as Hwf_pool.
  pose proof (RunFacts.concat_row_ok _ _ Hok) as Hok_pool.
  rewrite Forall_forall in Hwf_pool, Hok_pool.
  change (V.variant_body sheets (concat sheets) Q S F)
    with (loop_body (V.quota_loop sheets F [])
            (V.extra_step (concat sheets) (EXTRA Q S F))
            V.shuffle_options Q).
  apply KeyFacts.spec_loop_body_made.
  - apply RunFacts.pool_quota, HF.
  - intros sel Hl Hsel. apply RunFacts.pool_extra; auto.
    unfold EXTRA. lia.
  - intros r Hr. apply KeyFacts.V_spec_keyed; auto.
  - exact HQ.
Qed.

Lemma made_texts (rows : list row) (z : list (question_out * string)) :
  Forall2 keyed rows z ->
  map (fun p => q_question p.1) z = map (fun r => r.1.1) rows.
Proof.
  induction 1 as [|[[qtext opts] corr] p rows z Hk _ IH]; [reflexivity|].
  destruct Hk as [Hq _]. cbn [map fst]. f_equal; [exact Hq | exact IH].
Qed.

(** More questions than rows to make them from: a text comes twice. *)
Lemma more_questions_than_rows (pool rows : list row)
    (qs : list question_out) (keys : list string) :
  Forall (fun r => r ∈ pool) rows ->
  Forall2 keyed rows (zip qs keys) ->
  length keys = length qs -> length pool < length qs ->
  ~ NoDup (map q_question qs).
Proof.
  intros Hin Hmade Hlen Hlt Hnodup.
  pose proof (made_texts rows _ Hmade) as Hm.
  assert (Hz : map (fun p : question_out * string => q_question p.1) (zip qs keys)
               = map q_question qs).
  { rewrite <- (fst_zip qs keys) at 2 by lia.
    rewrite <- list_fmap_compose. reflexivity. }
  rewrite Hz in Hm. rewrite Hm in Hnodup.
  match type of Hm with _ = map ?f rows => set (text := f) in * end.
  assert (Hsub : map text rows ⊆+ map text pool).
  { apply NoDup_submseteq; [exact Hnodup|]. intros x Hx.
    apply list_elem_of_fmap in Hx as (r & -> & Hr).
    apply list_elem_of_fmap. exists r. split; [reflexivity|].
    rewrite Forall_forall in Hin. apply Hin, Hr. }
  apply submseteq_length in Hsub.
  rewrite !length_map in Hsub.
  apply (f_equal length) in Hm. rewrite !length_map in Hm.
  unfold UI.row in *. lia.
Qed.

End RepeatFacts.

(** X23.  The overflow rows are drawn from all loaded sheets, the quota
    sheets included, so a variant of [TestApp-With-Validation.py] can ask a
    question twice, and it must when it keeps more questions than the
    loaded sheets have rows: then every variant of the run holds some
    question text at two positions. *)
Theorem oversized_variant_repeats_a_question
    (xls : workbook) (VC Q S F : Z) (g : rng) (sheets : list (list UI.row)) :
  (0 <= Q)%Z -> (0 <= F)%Z ->
  UI.load_sheets (slice_to xls S) = inr sheets ->
  V.validate_question_bank sheets (map fst (slice_to xls S)) F = inr [] ->
  length (concat sheets)
  < Z.to_nat Q `min` (length sheets * Z.to_nat F
                      + V_extra (UI.EXTRA Q S F) (concat sheets)) ->
  exists files,
    V.start_generation xls VC Q S F g = Finished files /\
    map fst files = seq 1 (Z.to_nat VC) /\
    Forall (fun f => ~ NoDup (map q_question (final_q f.2))) files.
Proof.
  intros HQ HF Hload Hval Hbig.
  destruct (UIFacts.load_sheets_well_formed _ _ Hload) as [_ Hwf].
  pose proof (ValidationFacts.validate_from_accepts _ _ _ _ Hval) as Hok.
  pose proof (RepeatFacts.spec_conj _ _ _ _
                (BodyFacts.V_spec_variant_body sheets Q S F HQ HF Hwf)
                (RepeatFacts.V_body_made sheets Q S F HQ HF Hwf Hok)) as Hbody.
  cbv zeta in Hbody.
  destruct (LoopFacts.gen_loop_total _ _ _ (Z.to_nat VC) 1 g Hbody)
    as (files & Hrun & Hnum & Hall).
  exists files. split; [|split; [exact Hnum|]].
  - unfold V.start_generation. rewrite Hload, Hval.
    unfold run_loop. rewrite Hrun. reflexivity.
  - eapply Forall_impl; [exact Hall|].
    intros f ((Hlq & Hlk & _) & rows & Hin & Hmade).
    rewrite (DrawFacts.V_quota_validated F sheets HF Hok) in Hlq, Hlk.
    apply (RepeatFacts.more_questions_than_rows (concat sheets) rows _ (key f.2));
      [exact Hin | exact Hmade | lia | lia].
Qed.

Lemma oversized_variant_repeats_a_question_witness :
  exists files,
    V.start_generation Example.book 1 10 1 2 [3; 1; 4] = Finished files /\
    map fst files = seq 1 (Z.to_nat 1) /\
    Forall (fun f => ~ NoDup (map q_question (final_q f.2))) files.
Proof.
  apply (oversized_variant_repeats_a_question Example.book 1 10 1 2 [3; 1; 4]
           [Example.rows1]);
    first [lia | reflexivity | (vm_compute; lia)].
Defined.

(** ** Rows and their place in the sheet *)

Module SheetFacts.
Import UI.

Lemma read_rows_lookup (df : dataframe) (rows : list row) :
  read_rows df = inr rows ->
  length rows = length df /\
  forall k x, rows !! k = Some x ->
    exists r, df !! k = Some r /\ read_row r = inr x.
Proof.
  revert rows. induction df as [|r df IH]; intros rows; simpl.
  - intros H. injection H as <-. split; [reflexivity|]. intros k x H. discriminate.
  - destruct (read_row r) as [e|x0] eqn:Hr; [discriminate|].
    destruct (read_rows df) as [e|xs]; [discriminate|].
    intros H. injection H as <-. destruct (IH xs eq_refl) as [Hlen Hk].
    split; [simpl; rewrite Hlen; reflexivity|].
    intros [|k] x Hx; simpl in Hx.
    + injection Hx as <-. exists r. split; [reflexivity | exact Hr].
    + apply Hk, Hx.
Qed.

Lemma tail_lookup {A} (l : list A) (k : nat) : tail l !! k = l !! S k.
Proof. destruct l; reflexivity. Qed.

Lemma tail_length {A} (l : list A) : length (tail l) = length l - 1.
Proof. destruct l; simpl; lia. Qed.

End SheetFacts.

(** X24.  Both Tkinter programs drop the first row of every sheet they
    load and turn each remaining row into one question row, in order: a
    sheet of [n] rows gives [n - 1] question rows, and the question row at
    position [k] is read from the sheet row at position [k + 1]. *)
Theorem first_row_of_a_sheet_is_never_used
    (book : list (string * dataframe)) (sheets : list (list UI.row)) :
  UI.load_sheets book = inr sheets ->
  Forall2 (fun sheet rows =>
             length rows = length sheet.2 - 1 /\
             forall k x, rows !! k = Some x ->
               exists r, sheet.2 !! S k = Some r /\ UI.read_row r = inr x)
          book sheets.
Proof.
  revert sheets. induction book as [|[sname df] book IH]; intros sheets; simpl.
  - intros H. injection H as <-. constructor.
  - destruct (UI.read_rows (tail df)) as [e|rows] eqn:Hr; [discriminate|].
    destruct (UI.load_sheets book) as [e|more]; [discriminate|].
    intros H. injection H as <-. constructor; [|apply IH; reflexivity].
    apply SheetFacts.read_rows_lookup in Hr as [Hlen Hk]. cbn [snd]. split.
    + rewrite Hlen. apply SheetFacts.tail_length.
    + intros k x Hx. destruct (Hk k x Hx) as (r & Hr & Hread).
      exists r. rewrite <- SheetFacts.tail_lookup. auto.
Qed.

Lemma first_row_of_a_sheet_is_never_used_witness :
  Forall2 (fun sheet rows =>
             length rows = length sheet.2 - 1 /\
             forall k x, rows !! k = Some x ->
               exists r, sheet.2 !! S k = Some r /\ UI.read_row r = inr x)
          Example.book [Example.rows1].
Proof.
  apply (first_row_of_a_sheet_is_never_used Example.book [Example.rows1]).
  reflexivity.
Defined.

(** ** The numbering of the booklet *)

Module NumberingFacts.

(** The bold paragraphs among the option lines: none. *)
Lemma options_not_bold (q : question_out) :
  List.filter Docx.p_bold (Docx.option_paragraphs q) = [].
Proof.
  unfold Docx.option_paragraphs, LABELS. cbn [flat_map app].
  repeat match goal with
         | |- context [if ?b then _ else _] => destruct b
         end; reflexivity.
Qed.

Lemma questions_bold (start : nat) (questions : list question_out) :
  List.filter Docx.p_bold (Docx.questions_from start questions)
  = imap (fun i q => Docx.mkPar (Docx.str_nat (start + i) +:+ "-savol. "
                                  +:+ q_question q) true (Some 4))
         questions.
Proof.
  revert start. induction questions as [|q questions IH]; intros start;
    [reflexivity|].
  cbn [Docx.questions_from]. unfold Docx.question_paragraphs.
  rewrite !List.filter_app, options_not_bold, IH. cbn [List.filter Docx.p_bold app].
  rewrite imap_cons, Nat.add_0_r. f_equal.
  apply imap_ext. intros i x _. simpl. rewrite Nat.add_succ_r. reflexivity.
Qed.

End NumberingFacts.

(** X25.  The booklet of [TestVariant-W.py] prints every question once and
    numbers the questions 1, 2, ... in the order of the variant: its bold
    paragraphs are the title followed by one line ["i-savol. text"] per
    question. *)
Theorem booklet_numbers_questions_in_order
    (booklet_id program_name : string) (questions : list question_out) :
  List.filter Docx.p_bold
    (Docx.d_body (Docx.write_variant_docx booklet_id program_name questions))
  = Docx.mkPar ("Savollar kitobchasi: " +:+ booklet_id) true (Some 4)
    :: imap (fun i q => Docx.mkPar (Docx.str_nat (i + 1) +:+ "-savol. "
                                     +:+ q_question q) true (Some 4))
            questions.
Proof.
  unfold Docx.write_variant_docx. cbn [Docx.d_body].
  rewrite !List.filter_app, NumberingFacts.questions_bold.
  cbn [List.filter Docx.p_bold app map Docx.body_lines]. f_equal.
  apply imap_ext. intros i x _. simpl. rewrite Nat.add_comm. reflexivity.
Qed.
